(** * Room-rent API: billing and payment reconciliation

    A shallow embedding of the billing core of the room-rent backend
    (Express routes over Mongoose models) and the properties of it that
    the specification states.

    Conventions of the embedding.
    - A Mongoose collection is the list of its documents, oldest first.
      [findById]/[findOne] return the first matching document, [save]
      writes a document back over the stored one with the same [_id],
      [create] appends a document carrying the schema defaults.
    - A JavaScript [Number] holding money, a rate or a day count is a
      rational ([Q]); arithmetic is exact and [===] on numbers is
      [Qeq_bool].  Node rounds every sum, product and quotient to binary64:
      where the outcome of a route turns on a rounded sum (what the pay
      route accepts and refuses), the route is run on binary64 numbers, in
      the last part of the file.
    - A JavaScript [Date] is its time value, an integer count of
      milliseconds ([Z]); the local time zone is taken to be a fixed
      offset, so local calendar fields are computed as for UTC.  A time
      value is a date within 8.64e15 ms of the epoch ([validTime]).
    - A route handler is a computation in a state-and-failure monad over
      the database; [return res.status(4xx)] is [fail].  Notification
      documents are written to a collection of their own, which none of
      the handlers below reads; it is left out of the database record. *)

From Stdlib Require Import ZArith QArith Lqa Lia List Bool String Permutation.
Import ListNotations.

Set Implicit Arguments.

(** ** JavaScript dates *)

Module JsDate.
Local Open Scope Z_scope.

(** [1000 * 60 * 60 * 24] *)
Definition msPerDay : Z := 1000 * 60 * 60 * 24.

Definition DayFromYear (y : Z) : Z :=
  365 * (y - 1970) + (y - 1969) / 4 - (y - 1901) / 100 + (y - 1601) / 400.

Definition InLeapYear (y : Z) : bool :=
  ((y mod 4 =? 0) && negb (y mod 100 =? 0)) || (y mod 400 =? 0).

Definition leapDay (y : Z) : Z := if InLeapYear y then 1 else 0.

(** Day within the year on which month [m] (0 = January) starts. *)
Definition monthStart (leap m : Z) : Z :=
  match m with
  | 0 => 0
  | 1 => 31
  | 2 => 59 + leap
  | 3 => 90 + leap
  | 4 => 120 + leap
  | 5 => 151 + leap
  | 6 => 181 + leap
  | 7 => 212 + leap
  | 8 => 243 + leap
  | 9 => 273 + leap
  | 10 => 304 + leap
  | 11 => 334 + leap
  | _ => 365 + leap
  end.

Definition daysInMonth (y m : Z) : Z :=
  match m with
  | 1 => 28 + leapDay y
  | 3 | 5 | 8 | 10 => 30
  | _ => 31
  end.

Definition Day (t : Z) : Z := t / msPerDay.

(** The year whose first day is the latest one not after day [d]. *)
Definition YearFromDay (d : Z) : Z :=
  let y0 := 1970 + (d * 400) / 146097 in
  if d <? DayFromYear y0 then y0 - 1
  else if DayFromYear (y0 + 1) <=? d then y0 + 1
  else y0.

Definition DayWithinYear (d : Z) : Z := d - DayFromYear (YearFromDay d).

Definition MonthFromDay (d : Z) : Z :=
  let leap := leapDay (YearFromDay d) in
  let w := DayWithinYear d in
  if w <? 31 then 0
  else if w <? 59 + leap then 1
  else if w <? 90 + leap then 2
  else if w <? 120 + leap then 3
  else if w <? 151 + leap then 4
  else if w <? 181 + leap then 5
  else if w <? 212 + leap then 6
  else if w <? 243 + leap then 7
  else if w <? 273 + leap then 8
  else if w <? 304 + leap then 9
  else if w <? 334 + leap then 10
  else 11.

Definition DateFromDay (d : Z) : Z :=
  DayWithinYear d - monthStart (leapDay (YearFromDay d)) (MonthFromDay d) + 1.

(** [MakeDay]: months outside 0..11 carry into the year, and the day of the
    month is added as an offset, so day 0 is the last day of the month
    before and day 32 runs into the month after. *)
Definition MakeDay (year month date : Z) : Z :=
  let ym := year + month / 12 in
  let mn := month mod 12 in
  DayFromYear ym + monthStart (leapDay ym) mn + date - 1.

(** [new Date(year, month, date)]: midnight of that day. *)
Definition newDate (year month date : Z) : Z :=
  let yr := if (0 <=? year) && (year <=? 99) then 1900 + year else year in
  MakeDay yr month date * msPerDay.

Definition getFullYear (t : Z) : Z := YearFromDay (Day t).
Definition getMonth (t : Z) : Z := MonthFromDay (Day t).
Definition getDate (t : Z) : Z := DateFromDay (Day t).

End JsDate.

Definition Date := Z.
Definition ObjectId := nat.

(** ** Models (Mongoose schemas) *)

Inductive InvoiceStatus := unpaid | partially_paid | paid | overdue.
Inductive LeaseStatus := upcoming | active | ended | cancelled.
Inductive RoomStatus := vacant | occupied | partially_occupied | maintenance.
Inductive PaymentMode := cash | upi | bank_transfer | card.
Inductive LateFeeType := per_day | percentage.

Definition InvoiceStatus_eqb (a b : InvoiceStatus) : bool :=
  match a, b with
  | unpaid, unpaid | partially_paid, partially_paid
  | paid, paid | overdue, overdue => true
  | _, _ => false
  end.

Definition LeaseStatus_eqb (a b : LeaseStatus) : bool :=
  match a, b with
  | upcoming, upcoming | active, active
  | ended, ended | cancelled, cancelled => true
  | _, _ => false
  end.

Definition RoomStatus_eqb (a b : RoomStatus) : bool :=
  match a, b with
  | vacant, vacant | occupied, occupied
  | partially_occupied, partially_occupied | maintenance, maintenance => true
  | _, _ => false
  end.

(** Number comparisons of the handlers. *)
Definition Qlt_bool (a b : Q) : bool := negb (Qle_bool b a).

Module Room.
(** [floor], [capacity], [currentOccupancy], [defaultRent],
    [defaultDeposit] and [notes] are not read by the handlers below. *)
Record t := {
  _id : ObjectId;
  name : string;
  status : RoomStatus;
  currentLease : option ObjectId
}.
End Room.

Module Tenant.
Record t := { _id : ObjectId; fullName : string; phone : string }.
End Tenant.

Module Lease.
Record t := {
  _id : ObjectId;
  tenant : ObjectId;
  room : ObjectId;
  startDate : Date;
  endDate : option Date;
  rentPerMonth : Q;
  depositAgreed : Q;
  depositPaid : Q;
  depositRefunded : Q;
  billingDay : option Z;
  status : LeaseStatus;
  notes : option string
}.
End Lease.

Module Invoice.
Record t := {
  _id : ObjectId;
  lease : ObjectId;
  tenant : ObjectId;
  room : ObjectId;
  periodFrom : Date;
  periodTo : Date;
  issueDate : Date;
  dueDate : Date;
  baseAmount : Q;
  lateFee : Q;
  totalAmount : Q;
  paidAmount : Q;
  status : InvoiceStatus
}.

Definition set_paidAmount (i : t) (v : Q) : t :=
  {| _id := _id i; lease := lease i; tenant := tenant i; room := room i;
     periodFrom := periodFrom i; periodTo := periodTo i;
     issueDate := issueDate i; dueDate := dueDate i;
     baseAmount := baseAmount i; lateFee := lateFee i;
     totalAmount := totalAmount i; paidAmount := v; status := status i |}.

Definition set_status (i : t) (v : InvoiceStatus) : t :=
  {| _id := _id i; lease := lease i; tenant := tenant i; room := room i;
     periodFrom := periodFrom i; periodTo := periodTo i;
     issueDate := issueDate i; dueDate := dueDate i;
     baseAmount := baseAmount i; lateFee := lateFee i;
     totalAmount := totalAmount i; paidAmount := paidAmount i; status := v |}.

Definition set_lateFee (i : t) (v : Q) : t :=
  {| _id := _id i; lease := lease i; tenant := tenant i; room := room i;
     periodFrom := periodFrom i; periodTo := periodTo i;
     issueDate := issueDate i; dueDate := dueDate i;
     baseAmount := baseAmount i; lateFee := v;
     totalAmount := totalAmount i; paidAmount := paidAmount i;
     status := status i |}.

Definition set_totalAmount (i : t) (v : Q) : t :=
  {| _id := _id i; lease := lease i; tenant := tenant i; room := room i;
     periodFrom := periodFrom i; periodTo := periodTo i;
     issueDate := issueDate i; dueDate := dueDate i;
     baseAmount := baseAmount i; lateFee := lateFee i;
     totalAmount := v; paidAmount := paidAmount i; status := status i |}.
End Invoice.

Module Payment.
Record t := {
  _id : ObjectId;
  invoice : ObjectId;
  lease : ObjectId;
  tenant : ObjectId;
  amount : Q;
  date : Date;
  mode : PaymentMode;
  note : option string
}.
End Payment.

Module LightBill.
Record t := {
  _id : ObjectId;
  room : ObjectId;
  tenant : ObjectId;
  lease : ObjectId;
  periodFrom : Date;
  periodTo : Date;
  unitsConsumed : Q;
  ratePerUnit : Q;
  totalAmount : Q;
  paidAmount : Q;
  issueDate : Date;
  dueDate : Date;
  status : InvoiceStatus;
  fixedCharge : Q;
  tax : Q;
  notes : option string
}.
End LightBill.

Module Settings.
Record LateFeeConfig := {
  type : LateFeeType;
  graceDays : Q;
  perDayAmount : Q;
  percentage : Q
}.
(** [currency] and [defaultBillingDay] are not read by the handlers. *)
Record t := { lateFeeConfig : LateFeeConfig }.

(** The schema defaults: per_day, 3 grace days, 5 per day, 1 percent. *)
Definition defaults : t :=
  {| lateFeeConfig :=
       {| type := per_day; graceDays := 3; perDayAmount := 5;
          percentage := 1 |} |}.
End Settings.

(** ** The database and the handler monad *)

Record Db := {
  rooms : list Room.t;
  tenants : list Tenant.t;
  leases : list Lease.t;
  invoices : list Invoice.t;
  payments : list Payment.t;
  lightBills : list LightBill.t;
  settings : option Settings.t;
  nextId : ObjectId
}.

Definition emptyDb : Db :=
  {| rooms := []; tenants := []; leases := []; invoices := [];
     payments := []; lightBills := []; settings := None; nextId := 0%nat |}.

(** One constructor per 4xx response of the handlers, named after its
    message, and [ServerError] for the 500 response of a handler's [catch]
    block (in this model: a property read on a reference that populated
    as [null]). *)
Inductive failure :=
  | PaymentAmountNotPositive
  | PaymentDateRequired
  | InvoiceNotFound
  | PaymentExceedsInvoiceTotal
  | SettingsNotConfigured
  | TenantAndRoomRequired
  | StartDateRequired
  | RentNotPositive
  | DepositNotZeroOrPositive
  | TenantNotFound
  | RoomNotFound
  | LeaseNotFound
  | RoomAlreadyOccupied
  | RoomHasLeaseDuringPeriod
  | RoomTenantLeaseRequired
  | PeriodDatesRequired
  | PeriodFromNotBeforePeriodTo
  | IssueDateNotBeforeDueDate
  | UnitsConsumedNotPositive
  | RatePerUnitNotPositive
  | IssueAndDueDateRequired
  | LightBillAlreadyExists
  | LightBillNotFound
  | PaymentExceedsBillTotal
  | RoomNameEmpty
  | RoomNameExists
  | ServerError.

Definition httpStatus (e : failure) : Z :=
  match e with
  | InvoiceNotFound | TenantNotFound | RoomNotFound | LeaseNotFound
  | LightBillNotFound => 404
  | ServerError => 500
  | _ => 400
  end%Z.

(** The failure taxonomy of the specification. *)
Inductive ErrorKind :=
  NotFound | InvalidInput | Conflict | FailedPrecondition | StorageError.

Definition kind (e : failure) : ErrorKind :=
  match e with
  | InvoiceNotFound | TenantNotFound | RoomNotFound | LeaseNotFound
  | LightBillNotFound => NotFound
  | PaymentExceedsInvoiceTotal | PaymentExceedsBillTotal
  | RoomAlreadyOccupied | RoomHasLeaseDuringPeriod
  | LightBillAlreadyExists | RoomNameExists => Conflict
  | SettingsNotConfigured => FailedPrecondition
  | ServerError => StorageError
  | _ => InvalidInput
  end.

Definition M (A : Type) : Type := Db -> (failure + A) * Db.

Definition ret {A : Type} (a : A) : M A := fun db => (inr a, db).

Definition fail {A : Type} (e : failure) : M A := fun db => (inl e, db).

Definition bind {A B : Type} (m : M A) (k : A -> M B) : M B :=
  fun db =>
    match m db with
    | (inl e, db') => (inl e, db')
    | (inr a, db') => k a db'
    end.

Definition reads {A : Type} (f : Db -> A) : M A := fun db => (inr (f db), db).

Definition modify (f : Db -> Db) : M unit := fun db => (inr tt, f db).

(** [if (c) return res.status(4xx)...] *)
Definition reject (c : bool) (e : failure) : M unit :=
  if c then fail e else ret tt.

(** [const x = await Model.findById(...); if (!x) return res.status(404)...] *)
Definition orFail {A : Type} (o : option A) (e : failure) : M A :=
  match o with
  | Some a => ret a
  | None => fail e
  end.

Declare Scope handler_scope.
Delimit Scope handler_scope with handler.
Notation "x <- m ;; k" := (bind m (fun x => k))
  (at level 61, m at next level, right associativity) : handler_scope.
Notation "m ;; k" := (bind m (fun _ => k))
  (at level 61, right associativity) : handler_scope.

(** A fresh [_id] for a created document. *)
Definition freshId : M ObjectId :=
  fun db =>
    (inr (nextId db),
     {| rooms := rooms db; tenants := tenants db; leases := leases db;
        invoices := invoices db; payments := payments db;
        lightBills := lightBills db; settings := settings db;
        nextId := S (nextId db) |}).

Definition set_rooms (v : list Room.t) (db : Db) : Db :=
  {| rooms := v; tenants := tenants db; leases := leases db;
     invoices := invoices db; payments := payments db;
     lightBills := lightBills db; settings := settings db;
     nextId := nextId db |}.

Definition set_leases (v : list Lease.t) (db : Db) : Db :=
  {| rooms := rooms db; tenants := tenants db; leases := v;
     invoices := invoices db; payments := payments db;
     lightBills := lightBills db; settings := settings db;
     nextId := nextId db |}.

Definition set_invoices (v : list Invoice.t) (db : Db) : Db :=
  {| rooms := rooms db; tenants := tenants db; leases := leases db;
     invoices := v; payments := payments db;
     lightBills := lightBills db; settings := settings db;
     nextId := nextId db |}.

Definition set_payments (v : list Payment.t) (db : Db) : Db :=
  {| rooms := rooms db; tenants := tenants db; leases := leases db;
     invoices := invoices db; payments := v;
     lightBills := lightBills db; settings := settings db;
     nextId := nextId db |}.

Definition set_lightBills (v : list LightBill.t) (db : Db) : Db :=
  {| rooms := rooms db; tenants := tenants db; leases := leases db;
     invoices := invoices db; payments := payments db;
     lightBills := v; settings := settings db;
     nextId := nextId db |}.

Definition set_settings (v : option Settings.t) (db : Db) : Db :=
  {| rooms := rooms db; tenants := tenants db; leases := leases db;
     invoices := invoices db; payments := payments db;
     lightBills := lightBills db; settings := v;
     nextId := nextId db |}.

(** ** Collections *)

Section Collection.
Variable A : Type.
Variable idOf : A -> ObjectId.

(** [Model.findById(id)] *)
Definition findDoc (id : ObjectId) (l : list A) : option A :=
  find (fun x => Nat.eqb (idOf x) id) l.

(** [doc.save()]: the stored document with this [_id] is overwritten. *)
Fixpoint saveDoc (doc : A) (l : list A) : list A :=
  match l with
  | [] => []
  | x :: r =>
      if Nat.eqb (idOf x) (idOf doc) then doc :: r
      else x :: saveDoc doc r
  end.

(** [Model.findByIdAndDelete(id)] *)
Fixpoint deleteDoc (id : ObjectId) (l : list A) : list A :=
  match l with
  | [] => []
  | x :: r => if Nat.eqb (idOf x) id then r else x :: deleteDoc id r
  end.
End Collection.

(** [x || 0] on a number. *)
Definition orZero (x : Q) : Q := if Qeq_bool x 0 then 0 else x.

(** [!x] on a number that is present: only zero is falsy. *)
Definition falsyQ (x : Q) : bool := Qeq_bool x 0.

Module PayReq.
(** [req.body] of the two pay routes; an absent field is [None]. *)
Record t := {
  amount : option Q;
  date : option Date;
  mode : option PaymentMode;
  note : option string
}.
End PayReq.

Definition isActive (l : Lease.t) : bool :=
  LeaseStatus_eqb (Lease.status l) active.

(** [lease.billingDay || 1] *)
Definition billingDayOr1 (l : Lease.t) : Z :=
  match Lease.billingDay l with
  | Some d => if Z.eqb d 0 then 1%Z else d
  | None => 1%Z
  end.

(** [Invoice.findOne({ lease, periodFrom, periodTo })] *)
Definition samePeriod (lease : ObjectId) (periodFrom periodTo : Date)
    (i : Invoice.t) : bool :=
  Nat.eqb (Invoice.lease i) lease
  && Z.eqb (Invoice.periodFrom i) periodFrom
  && Z.eqb (Invoice.periodTo i) periodTo.

Definition Invoice_findOne (lease : ObjectId) (periodFrom periodTo : Date)
    : M (option Invoice.t) :=
  reads (fun db => find (samePeriod lease periodFrom periodTo) (invoices db)).

(** [Invoice.create({...})] as the generators call it: [lateFee],
    [paidAmount] and [status] take the schema defaults. *)
Definition Invoice_create (lease tenant room : ObjectId)
    (periodFrom periodTo issueDate dueDate : Date)
    (baseAmount totalAmount : Q) : M Invoice.t :=
  (id <- freshId ;;
   let invoice :=
     {| Invoice._id := id; Invoice.lease := lease; Invoice.tenant := tenant;
        Invoice.room := room; Invoice.periodFrom := periodFrom;
        Invoice.periodTo := periodTo; Invoice.issueDate := issueDate;
        Invoice.dueDate := dueDate; Invoice.baseAmount := baseAmount;
        Invoice.lateFee := 0; Invoice.totalAmount := totalAmount;
        Invoice.paidAmount := 0; Invoice.status := unpaid |} in
   modify (fun db => set_invoices (invoices db ++ [invoice]) db) ;;
   ret invoice)%handler.

Definition Invoice_findById (id : ObjectId) : M (option Invoice.t) :=
  reads (fun db => findDoc Invoice._id id (invoices db)).

Definition Invoice_save (invoice : Invoice.t) : M unit :=
  modify (fun db => set_invoices (saveDoc Invoice._id invoice (invoices db)) db).

(** [Lease.find({ status: "active" }).populate("tenant room")]: the leases
    with their referenced tenant and room documents; a reference to a
    document that is gone populates as [null]. *)
Definition Lease_findActivePopulated
    : M (list (Lease.t * option Tenant.t * option Room.t)) :=
  reads (fun db =>
    map (fun l => (l, findDoc Tenant._id (Lease.tenant l) (tenants db),
                      findDoc Room._id (Lease.room l) (rooms db)))
        (filter isActive (leases db))).

(** ** Invoice routes ([routes/invoiceRoutes.js]) *)

Module InvoiceRoutes.
Import JsDate.
Local Open Scope handler_scope.

(** The [for (const lease of leases)] loop of POST /generate-monthly. *)
Fixpoint generateLoop (today : Date) (year month : Z) (firstDay lastDay : Date)
    (ls : list (Lease.t * option Tenant.t * option Room.t))
    (created : list Invoice.t) : M (list Invoice.t) :=
  match ls with
  | [] => ret created
  | (lease, tenant, room) :: rest =>
      existingInvoice <- Invoice_findOne (Lease._id lease) firstDay lastDay ;;
      match existingInvoice with
      | Some _ => generateLoop today year month firstDay lastDay rest created
      | None =>
          let periodFrom := firstDay in
          let periodTo := lastDay in
          let issueDate := today in
          let dueDate := newDate year month (billingDayOr1 lease) in
          tenantDoc <- orFail tenant ServerError ;;
          roomDoc <- orFail room ServerError ;;
          invoice <- Invoice_create (Lease._id lease) (Tenant._id tenantDoc)
                       (Room._id roomDoc) periodFrom periodTo issueDate dueDate
                       (Lease.rentPerMonth lease) (Lease.rentPerMonth lease) ;;
          generateLoop today year month firstDay lastDay rest
            (created ++ [invoice])
      end
  end.

(** POST /api/invoices/generate-monthly; [today] is [new Date()]. *)
Definition generateMonthly (today : Date) : M (list Invoice.t) :=
  let year := getFullYear today in
  let month := (getMonth today + 1)%Z in
  let firstDay := newDate (getFullYear today) (getMonth today) 1 in
  let lastDay := newDate (getFullYear today) (getMonth today + 1)%Z 0 in
  ls <- Lease_findActivePopulated ;;
  generateLoop today year month firstDay lastDay ls [].

(** POST /api/invoices/:id/pay; [now] is the [new Date()] that stands in
    for an absent [date]. *)
Definition payInvoice (now : Date) (id : ObjectId) (body : PayReq.t)
    : M (Payment.t * Invoice.t) :=
  match PayReq.amount body with
  | None => fail PaymentAmountNotPositive
  | Some amount =>
      reject (falsyQ amount || Qle_bool amount 0) PaymentAmountNotPositive ;;
      found <- Invoice_findById id ;;
      invoice <- orFail found InvoiceNotFound ;;
      let newPaidAmount := (orZero (Invoice.paidAmount invoice) + amount)%Q in
      reject (Qlt_bool (Invoice.totalAmount invoice) newPaidAmount)
        PaymentExceedsInvoiceTotal ;;
      pid <- freshId ;;
      let payment :=
        {| Payment._id := pid; Payment.invoice := Invoice._id invoice;
           Payment.lease := Invoice.lease invoice;
           Payment.tenant := Invoice.tenant invoice;
           Payment.amount := amount;
           Payment.date := match PayReq.date body with
                           | Some d => d | None => now end;
           Payment.mode := match PayReq.mode body with
                           | Some m => m | None => cash end;
           Payment.note := PayReq.note body |} in
      modify (fun db => set_payments (payments db ++ [payment]) db) ;;
      let invoice1 := Invoice.set_paidAmount invoice newPaidAmount in
      let invoice2 :=
        if Qle_bool (Invoice.totalAmount invoice1) (Invoice.paidAmount invoice1)
        then Invoice.set_status invoice1 paid
        else if Qlt_bool 0 (Invoice.paidAmount invoice1)
        then Invoice.set_status invoice1 partially_paid
        else invoice1 in
      Invoice_save invoice2 ;;
      ret (payment, invoice2)
  end.

Definition diffDaysOf (today dueDate : Date) : Z :=
  ((today - dueDate) / msPerDay)%Z.

(** The late fee computed in the body of the recalculation loop. *)
Definition lateFeeOf (lateFeeConfig : Settings.LateFeeConfig) (today : Date)
    (invoice : Invoice.t) : Q :=
  let diffDays := diffDaysOf today (Invoice.dueDate invoice) in
  if Qlt_bool (Settings.graceDays lateFeeConfig) (inject_Z diffDays) then
    let effectiveDays :=
      (inject_Z diffDays - Settings.graceDays lateFeeConfig)%Q in
    match Settings.type lateFeeConfig with
    | per_day => (effectiveDays * Settings.perDayAmount lateFeeConfig)%Q
    | percentage =>
        (Invoice.baseAmount invoice * Settings.percentage lateFeeConfig / 100)%Q
    end
  else 0%Q.

(** [Invoice.find({ status: { $in: ["unpaid", "partially_paid"] } })] *)
Definition isOpen (i : Invoice.t) : bool :=
  InvoiceStatus_eqb (Invoice.status i) unpaid
  || InvoiceStatus_eqb (Invoice.status i) partially_paid.

(** The [for (const invoice of invoices)] loop of
    POST /recalculate-late-fees. *)
Fixpoint recalculateLoop (lateFeeConfig : Settings.LateFeeConfig)
    (today : Date) (found : list Invoice.t) (updatedCount : nat) : M nat :=
  match found with
  | [] => ret updatedCount
  | invoice :: rest =>
      let lateFee := lateFeeOf lateFeeConfig today invoice in
      if negb (Qeq_bool lateFee (Invoice.lateFee invoice)) then
        let invoice1 := Invoice.set_lateFee invoice lateFee in
        let invoice2 :=
          Invoice.set_totalAmount invoice1
            (Invoice.baseAmount invoice1 + lateFee)%Q in
        Invoice_save invoice2 ;;
        recalculateLoop lateFeeConfig today rest (S updatedCount)
      else recalculateLoop lateFeeConfig today rest updatedCount
  end.

(** POST /api/invoices/recalculate-late-fees; the result is [updatedCount]. *)
Definition recalculateLateFees (today : Date) : M nat :=
  s <- reads settings ;;
  settingsDoc <- orFail s SettingsNotConfigured ;;
  found <- reads (fun db => filter isOpen (invoices db)) ;;
  recalculateLoop (Settings.lateFeeConfig settingsDoc) today found 0.

End InvoiceRoutes.

(** ** The earlier copy of the invoice routes

    A second copy of the invoice router in the repository; its pay route
    has the text of the one above, its generator and its recalculation
    differ. *)

Module InvoiceRoutesVariant.
Import JsDate.
Local Open Scope handler_scope.

Fixpoint generateLoop (today : Date) (year month : Z)
    (ls : list (Lease.t * option Tenant.t * option Room.t))
    (created : list Invoice.t) : M (list Invoice.t) :=
  match ls with
  | [] => ret created
  | (lease, tenant, room) :: rest =>
      let periodFrom := newDate year month 1 in
      let periodTo := newDate year (month + 1)%Z 0 in
      exists_ <- Invoice_findOne (Lease._id lease) periodFrom periodTo ;;
      match exists_ with
      | Some _ => generateLoop today year month rest created
      | None =>
          let issueDate := today in
          let dueDate := newDate year month (billingDayOr1 lease) in
          tenantDoc <- orFail tenant ServerError ;;
          roomDoc <- orFail room ServerError ;;
          invoice <- Invoice_create (Lease._id lease) (Tenant._id tenantDoc)
                       (Room._id roomDoc) periodFrom periodTo issueDate dueDate
                       (Lease.rentPerMonth lease) (Lease.rentPerMonth lease) ;;
          generateLoop today year month rest (created ++ [invoice])
      end
  end.

Definition generateMonthly (today : Date) : M (list Invoice.t) :=
  let month := getMonth today in
  let year := getFullYear today in
  ls <- Lease_findActivePopulated ;;
  generateLoop today year month ls [].

Definition payInvoice := InvoiceRoutes.payInvoice.

(** This copy writes every invoice it visits and re-derives its status. *)
Fixpoint recalculateLoop (lateFeeConfig : Settings.LateFeeConfig)
    (today : Date) (found : list Invoice.t) (updatedCount : nat) : M nat :=
  match found with
  | [] => ret updatedCount
  | invoice :: rest =>
      let lateFee := InvoiceRoutes.lateFeeOf lateFeeConfig today invoice in
      let invoice1 := Invoice.set_lateFee invoice lateFee in
      let invoice2 :=
        Invoice.set_totalAmount invoice1
          (Invoice.baseAmount invoice1 + lateFee)%Q in
      let invoice3 :=
        if Qle_bool (Invoice.totalAmount invoice2) (Invoice.paidAmount invoice2)
        then Invoice.set_status invoice2 paid
        else if Z.ltb (Invoice.dueDate invoice2) today
        then Invoice.set_status invoice2
               (if Qlt_bool 0 (Invoice.paidAmount invoice2)
                then partially_paid else overdue)
        else invoice2 in
      Invoice_save invoice3 ;;
      recalculateLoop lateFeeConfig today rest (S updatedCount)
  end.

Definition recalculateLateFees (today : Date) : M nat :=
  s <- reads settings ;;
  settingsDoc <- orFail s SettingsNotConfigured ;;
  found <- reads (fun db => filter InvoiceRoutes.isOpen (invoices db)) ;;
  recalculateLoop (Settings.lateFeeConfig settingsDoc) today found 0.

End InvoiceRoutesVariant.

(** ** The monthly job ([services/invoiceCronService.js]) *)

Module InvoiceCronService.
Import JsDate.
Local Open Scope handler_scope.

Fixpoint generateLoop (today : Date) (year month : Z)
    (ls : list (Lease.t * option Tenant.t * option Room.t))
    (created : list Invoice.t) : M (list Invoice.t) :=
  match ls with
  | [] => ret created
  | (lease, tenant, room) :: rest =>
      let periodFrom := newDate year month 1 in
      let periodTo := newDate year (month + 1)%Z 0 in
      exists_ <- Invoice_findOne (Lease._id lease) periodFrom periodTo ;;
      match exists_ with
      | Some _ => generateLoop today year month rest created
      | None =>
          let issueDate := today in
          let dueDate := newDate year month (billingDayOr1 lease) in
          tenantDoc <- orFail tenant ServerError ;;
          roomDoc <- orFail room ServerError ;;
          invoice <- Invoice_create (Lease._id lease) (Tenant._id tenantDoc)
                       (Room._id roomDoc) periodFrom periodTo issueDate dueDate
                       (Lease.rentPerMonth lease) (Lease.rentPerMonth lease) ;;
          generateLoop today year month rest (created ++ [invoice])
      end
  end.

(** The task scheduled by [scheduleMonthlyInvoiceGeneration]
    (cron [0 2 1 * *]), run at time [today]. *)
Definition scheduledTask (today : Date) : M (list Invoice.t) :=
  let month := getMonth today in
  let year := getFullYear today in
  ls <- Lease_findActivePopulated ;;
  generateLoop today year month ls [].

End InvoiceCronService.

(** ** Lease routes ([routes/leaseRoutes.js]) *)

Module LeaseReq.
(** [req.body] of POST /api/leases. *)
Record t := {
  tenant : option ObjectId;
  room : option ObjectId;
  startDate : option Date;
  endDate : option Date;
  rentPerMonth : option Q;
  depositAgreed : option Q;
  billingDay : option Z
}.
End LeaseReq.

Module EndLeaseReq.
Record t := { endDate : option Date; notes : option string }.
End EndLeaseReq.

Module LeaseRoutes.
Local Open Scope handler_scope.

(** [{ field: { $lte: x } }] and [{ field: { $gte: x } }] on a date field:
    a document without the field does not match either. *)
Definition fieldLte (field : option Date) (x : Date) : bool :=
  match field with Some d => Z.leb d x | None => false end.

Definition fieldGte (field : option Date) (x : Date) : bool :=
  match field with Some d => Z.leb x d | None => false end.

Definition upcomingOrActive (l : Lease.t) : bool :=
  LeaseStatus_eqb (Lease.status l) upcoming
  || LeaseStatus_eqb (Lease.status l) active.

(** [leaseQuery] of POST /api/leases as a predicate on a stored lease. *)
Definition leaseQuery (room : ObjectId) (startDate : Date)
    (endDate : option Date) (l : Lease.t) : bool :=
  Nat.eqb (Lease.room l) room
  && upcomingOrActive l
  && match endDate with
     | Some endDate =>
         (fieldLte (Some (Lease.startDate l)) startDate
          && fieldGte (Lease.endDate l) startDate)
         || (fieldLte (Some (Lease.startDate l)) endDate
             && fieldGte (Lease.endDate l) endDate)
         || (fieldGte (Some (Lease.startDate l)) startDate
             && fieldLte (Lease.endDate l) endDate)
     | None => fieldLte (Some (Lease.startDate l)) startDate
     end.

(** [Room.findByIdAndUpdate(id, { status, currentLease })] *)
Fixpoint Room_update (id : ObjectId) (st : RoomStatus)
    (cur : option ObjectId) (l : list Room.t) : list Room.t :=
  match l with
  | [] => []
  | r :: rest =>
      if Nat.eqb (Room._id r) id then
        {| Room._id := Room._id r; Room.name := Room.name r;
           Room.status := st; Room.currentLease := cur |} :: rest
      else r :: Room_update id st cur rest
  end.

(** POST /api/leases *)
Definition createLease (body : LeaseReq.t) : M Lease.t :=
  match LeaseReq.tenant body, LeaseReq.room body with
  | Some tenant, Some room =>
      startDate <- orFail (LeaseReq.startDate body) StartDateRequired ;;
      rentPerMonth <- orFail (LeaseReq.rentPerMonth body) RentNotPositive ;;
      reject (falsyQ rentPerMonth || Qle_bool rentPerMonth 0) RentNotPositive ;;
      depositAgreed <- orFail (LeaseReq.depositAgreed body)
                         DepositNotZeroOrPositive ;;
      reject (falsyQ depositAgreed || Qlt_bool depositAgreed 0)
        DepositNotZeroOrPositive ;;
      t <- reads (fun db => findDoc Tenant._id tenant (tenants db)) ;;
      _ <- orFail t TenantNotFound ;;
      r <- reads (fun db => findDoc Room._id room (rooms db)) ;;
      roomExists <- orFail r RoomNotFound ;;
      reject (RoomStatus_eqb (Room.status roomExists) occupied)
        RoomAlreadyOccupied ;;
      existingLease <- reads (fun db =>
        find (leaseQuery room startDate (LeaseReq.endDate body)) (leases db)) ;;
      reject (match existingLease with Some _ => true | None => false end)
        RoomHasLeaseDuringPeriod ;;
      id <- freshId ;;
      let lease :=
        {| Lease._id := id; Lease.tenant := tenant; Lease.room := room;
           Lease.startDate := startDate;
           Lease.endDate := LeaseReq.endDate body;
           Lease.rentPerMonth := rentPerMonth;
           Lease.depositAgreed := depositAgreed;
           Lease.depositPaid := 0; Lease.depositRefunded := 0;
           Lease.billingDay := match LeaseReq.billingDay body with
                               | Some d => Some d | None => Some 1%Z end;
           Lease.status := active; Lease.notes := None |} in
      modify (fun db => set_leases (leases db ++ [lease]) db) ;;
      modify (fun db =>
        set_rooms (Room_update room occupied (Some (Lease._id lease))
                     (rooms db)) db) ;;
      ret lease
  | _, _ => fail TenantAndRoomRequired
  end.

(** PATCH /api/leases/:id/end *)
Definition endLease (now : Date) (id : ObjectId) (body : EndLeaseReq.t)
    : M Lease.t :=
  found <- reads (fun db => findDoc Lease._id id (leases db)) ;;
  lease <- orFail found LeaseNotFound ;;
  let lease' :=
    {| Lease._id := Lease._id lease; Lease.tenant := Lease.tenant lease;
       Lease.room := Lease.room lease; Lease.startDate := Lease.startDate lease;
       Lease.endDate := Some (match EndLeaseReq.endDate body with
                              | Some d => d | None => now end);
       Lease.rentPerMonth := Lease.rentPerMonth lease;
       Lease.depositAgreed := Lease.depositAgreed lease;
       Lease.depositPaid := Lease.depositPaid lease;
       Lease.depositRefunded := Lease.depositRefunded lease;
       Lease.billingDay := Lease.billingDay lease;
       Lease.status := ended; Lease.notes := EndLeaseReq.notes body |} in
  modify (fun db => set_leases (saveDoc Lease._id lease' (leases db)) db) ;;
  modify (fun db =>
    set_rooms (Room_update (Lease.room lease') vacant None (rooms db)) db) ;;
  ret lease'.

End LeaseRoutes.

(** ** Room routes: PUT /api/rooms/:id

    The handler passes [req.body] to [Room.findByIdAndUpdate]; of the body
    only the fields the room record above keeps are modelled. *)

Module RoomReq.
Record t := { name : option string; status : option RoomStatus }.
End RoomReq.

Module RoomRoutes.
Local Open Scope handler_scope.

Fixpoint Room_assign (id : ObjectId) (body : RoomReq.t) (l : list Room.t)
    : list Room.t :=
  match l with
  | [] => []
  | r :: rest =>
      if Nat.eqb (Room._id r) id then
        {| Room._id := Room._id r;
           Room.name := match RoomReq.name body with
                        | Some n => n | None => Room.name r end;
           Room.status := match RoomReq.status body with
                          | Some s => s | None => Room.status r end;
           Room.currentLease := Room.currentLease r |} :: rest
      else r :: Room_assign id body rest
  end.

Definition updateRoom (id : ObjectId) (body : RoomReq.t) : M Room.t :=
  reject (match RoomReq.name body with
          | Some n => String.eqb n EmptyString | None => false end)
    RoomNameEmpty ;;
  existingRoom <- reads (fun db =>
    match RoomReq.name body with
    | Some n => find (fun r => String.eqb (Room.name r) n
                               && negb (Nat.eqb (Room._id r) id)) (rooms db)
    | None => None
    end) ;;
  reject (match existingRoom with Some _ => true | None => false end)
    RoomNameExists ;;
  modify (fun db => set_rooms (Room_assign id body (rooms db)) db) ;;
  updated <- reads (fun db => findDoc Room._id id (rooms db)) ;;
  orFail updated RoomNotFound.

End RoomRoutes.

(** ** Settings routes: PUT /api/settings *)

Module SettingsRoutes.
(** [Object.assign(settings, req.body)] for a body that carries a whole
    [lateFeeConfig], or [Settings.create(req.body)] when there is none. *)
Definition updateSettings (body : Settings.t) : M Settings.t :=
  bind (modify (set_settings (Some body))) (fun _ => ret body).
End SettingsRoutes.

(** ** Light-bill routes ([routes/lightBillRoutes.js]) *)

Module LightBillReq.
(** [req.body] of POST /api/light-bills. *)
Record t := {
  room : option ObjectId;
  tenant : option ObjectId;
  lease : option ObjectId;
  periodFrom : option Date;
  periodTo : option Date;
  unitsConsumed : option Q;
  ratePerUnit : option Q;
  fixedCharge : option Q;
  tax : option Q;
  issueDate : option Date;
  dueDate : option Date;
  notes : option string
}.
End LightBillReq.

Module LightBillUpdate.
(** [req.body] of PUT /api/light-bills/:id. *)
Record t := {
  periodFrom : option Date;
  periodTo : option Date;
  unitsConsumed : option Q;
  ratePerUnit : option Q;
  fixedCharge : option Q;
  tax : option Q;
  issueDate : option Date;
  dueDate : option Date;
  notes : option string
}.
End LightBillUpdate.

Module LightBillRoutes.
Local Open Scope handler_scope.

Definition isSome {A : Type} (o : option A) : bool :=
  match o with Some _ => true | None => false end.

Definition orElse {A : Type} (o d : option A) : option A :=
  match o with Some _ => o | None => d end.

Definition getOr {A : Type} (o : option A) (d : A) : A :=
  match o with Some a => a | None => d end.

(** The last document of a list that satisfies [p]:
    [findOne(...).sort({ createdAt: -1 })]. *)
Definition findLatest {A : Type} (p : A -> bool) (l : list A) : option A :=
  find p (rev l).

(** [LightBill.findOne({ room, tenant, lease, periodFrom, periodTo })],
    leaving out the bill [except] when given. *)
Definition duplicateBill (room tenant lease : ObjectId)
    (periodFrom periodTo : Date) (except : option ObjectId)
    (b : LightBill.t) : bool :=
  Nat.eqb (LightBill.room b) room
  && Nat.eqb (LightBill.tenant b) tenant
  && Nat.eqb (LightBill.lease b) lease
  && Z.eqb (LightBill.periodFrom b) periodFrom
  && Z.eqb (LightBill.periodTo b) periodTo
  && match except with
     | Some id => negb (Nat.eqb (LightBill._id b) id)
     | None => true
     end.

(** The block that fills in [tenant] and [lease] from the room's active
    or upcoming lease. *)
Definition resolveFromRoom (room tenant lease : option ObjectId)
    : M (option ObjectId * option ObjectId) :=
  match room with
  | Some r =>
      if negb (isSome tenant) || negb (isSome lease) then
        activeLease <- reads (fun db =>
          find (fun l => Nat.eqb (Lease.room l) r
                         && (LeaseStatus_eqb (Lease.status l) active
                             || LeaseStatus_eqb (Lease.status l) upcoming))
               (leases db)) ;;
        match activeLease with
        | Some al =>
            tenant' <-
              match tenant with
              | Some _ => ret tenant
              | None =>
                  populated <- reads (fun db =>
                    findDoc Tenant._id (Lease.tenant al) (tenants db)) ;;
                  tenantDoc <- orFail populated ServerError ;;
                  ret (Some (Tenant._id tenantDoc))
              end ;;
            ret (tenant', orElse lease (Some (Lease._id al)))
        | None => ret (tenant, lease)
        end
      else ret (tenant, lease)
  | None => ret (tenant, lease)
  end.

(** POST /api/light-bills *)
Definition createLightBill (body : LightBillReq.t) : M LightBill.t :=
  let room := LightBillReq.room body in
  let fixedCharge := getOr (LightBillReq.fixedCharge body) 0%Q in
  let tax := getOr (LightBillReq.tax body) 0%Q in
  tl <- resolveFromRoom room (LightBillReq.tenant body)
          (LightBillReq.lease body) ;;
  let tenant := fst tl in
  let lease := snd tl in
  latestInvoice <- reads (fun db =>
    match tenant, lease with
    | Some t, Some l =>
        if negb (isSome (LightBillReq.periodFrom body))
           || negb (isSome (LightBillReq.periodTo body))
           || negb (isSome (LightBillReq.issueDate body))
           || negb (isSome (LightBillReq.dueDate body))
        then findLatest (fun i => Nat.eqb (Invoice.tenant i) t
                                  && Nat.eqb (Invoice.lease i) l)
                        (invoices db)
        else None
    | _, _ => None
    end) ;;
  let periodFrom :=
    orElse (LightBillReq.periodFrom body)
           (option_map Invoice.periodFrom latestInvoice) in
  let periodTo :=
    orElse (LightBillReq.periodTo body)
           (option_map Invoice.periodTo latestInvoice) in
  let issueDate :=
    orElse (LightBillReq.issueDate body)
           (option_map Invoice.issueDate latestInvoice) in
  let dueDate :=
    orElse (LightBillReq.dueDate body)
           (option_map Invoice.dueDate latestInvoice) in
  match room, tenant, lease with
  | Some room, Some tenant, Some lease =>
      match periodFrom, periodTo with
      | Some periodFrom, Some periodTo =>
          reject (Z.leb periodTo periodFrom) PeriodFromNotBeforePeriodTo ;;
          unitsConsumed <- orFail (LightBillReq.unitsConsumed body)
                             UnitsConsumedNotPositive ;;
          reject (falsyQ unitsConsumed || Qle_bool unitsConsumed 0)
            UnitsConsumedNotPositive ;;
          ratePerUnit <- orFail (LightBillReq.ratePerUnit body)
                           RatePerUnitNotPositive ;;
          reject (falsyQ ratePerUnit || Qle_bool ratePerUnit 0)
            RatePerUnitNotPositive ;;
          match issueDate, dueDate with
          | Some issueDate, Some dueDate =>
              r <- reads (fun db => findDoc Room._id room (rooms db)) ;;
              _ <- orFail r RoomNotFound ;;
              t <- reads (fun db => findDoc Tenant._id tenant (tenants db)) ;;
              _ <- orFail t TenantNotFound ;;
              l <- reads (fun db => findDoc Lease._id lease (leases db)) ;;
              _ <- orFail l LeaseNotFound ;;
              existingBill <- reads (fun db =>
                find (duplicateBill room tenant lease periodFrom periodTo None)
                     (lightBills db)) ;;
              reject (isSome existingBill) LightBillAlreadyExists ;;
              let totalAmount :=
                ((unitsConsumed * ratePerUnit) + fixedCharge + tax)%Q in
              id <- freshId ;;
              let lightBill :=
                {| LightBill._id := id; LightBill.room := room;
                   LightBill.tenant := tenant; LightBill.lease := lease;
                   LightBill.periodFrom := periodFrom;
                   LightBill.periodTo := periodTo;
                   LightBill.unitsConsumed := unitsConsumed;
                   LightBill.ratePerUnit := ratePerUnit;
                   LightBill.totalAmount := totalAmount;
                   LightBill.paidAmount := 0;
                   LightBill.issueDate := issueDate;
                   LightBill.dueDate := dueDate;
                   LightBill.status := unpaid;
                   LightBill.fixedCharge := fixedCharge;
                   LightBill.tax := tax;
                   LightBill.notes := LightBillReq.notes body |} in
              modify (fun db =>
                set_lightBills (lightBills db ++ [lightBill]) db) ;;
              ret lightBill
          | _, _ => fail IssueAndDueDateRequired
          end
      | _, _ => fail PeriodDatesRequired
      end
  | _, _, _ => fail RoomTenantLeaseRequired
  end.

Definition LightBill_save (b : LightBill.t) : M unit :=
  modify (fun db =>
    set_lightBills (saveDoc LightBill._id b (lightBills db)) db).

Definition set_payment (b : LightBill.t) (paidAmount : Q)
    (status : InvoiceStatus) : LightBill.t :=
  {| LightBill._id := LightBill._id b; LightBill.room := LightBill.room b;
     LightBill.tenant := LightBill.tenant b;
     LightBill.lease := LightBill.lease b;
     LightBill.periodFrom := LightBill.periodFrom b;
     LightBill.periodTo := LightBill.periodTo b;
     LightBill.unitsConsumed := LightBill.unitsConsumed b;
     LightBill.ratePerUnit := LightBill.ratePerUnit b;
     LightBill.totalAmount := LightBill.totalAmount b;
     LightBill.paidAmount := paidAmount;
     LightBill.issueDate := LightBill.issueDate b;
     LightBill.dueDate := LightBill.dueDate b;
     LightBill.status := status;
     LightBill.fixedCharge := LightBill.fixedCharge b;
     LightBill.tax := LightBill.tax b;
     LightBill.notes := LightBill.notes b |}.

(** POST /api/light-bills/:id/pay *)
Definition payLightBill (id : ObjectId) (body : PayReq.t) : M LightBill.t :=
  match PayReq.amount body with
  | None => fail PaymentAmountNotPositive
  | Some amount =>
      reject (falsyQ amount || Qle_bool amount 0) PaymentAmountNotPositive ;;
      reject (negb (isSome (PayReq.date body))) PaymentDateRequired ;;
      found <- reads (fun db => findDoc LightBill._id id (lightBills db)) ;;
      lightBill <- orFail found LightBillNotFound ;;
      let newPaidAmount := (LightBill.paidAmount lightBill + amount)%Q in
      reject (Qlt_bool (LightBill.totalAmount lightBill) newPaidAmount)
        PaymentExceedsBillTotal ;;
      let lightBill' :=
        set_payment lightBill newPaidAmount
          (if Qle_bool (LightBill.totalAmount lightBill) newPaidAmount
           then paid
           else if Qlt_bool 0 newPaidAmount then partially_paid
           else LightBill.status lightBill) in
      LightBill_save lightBill' ;;
      ret lightBill'
  end.

(** PUT /api/light-bills/:id *)
Definition updateLightBill (id : ObjectId) (body : LightBillUpdate.t)
    : M LightBill.t :=
  found <- reads (fun db => findDoc LightBill._id id (lightBills db)) ;;
  lightBill <- orFail found LightBillNotFound ;;
  let periodFrom := LightBillUpdate.periodFrom body in
  let periodTo := LightBillUpdate.periodTo body in
  let unitsConsumed := LightBillUpdate.unitsConsumed body in
  let ratePerUnit := LightBillUpdate.ratePerUnit body in
  let fixedCharge := LightBillUpdate.fixedCharge body in
  let tax := LightBillUpdate.tax body in
  let issueDate := LightBillUpdate.issueDate body in
  let dueDate := LightBillUpdate.dueDate body in
  reject (match periodFrom, periodTo with
          | Some f, Some t => Z.leb t f | _, _ => false end)
    PeriodFromNotBeforePeriodTo ;;
  reject (match issueDate, dueDate with
          | Some i, Some d => Z.leb d i | _, _ => false end)
    IssueDateNotBeforeDueDate ;;
  reject (match unitsConsumed with
          | Some u => Qle_bool u 0 | None => false end)
    UnitsConsumedNotPositive ;;
  reject (match ratePerUnit with
          | Some r => Qle_bool r 0 | None => false end)
    RatePerUnitNotPositive ;;
  existingBill <- reads (fun db =>
    if isSome periodFrom || isSome periodTo then
      let fromDate := getOr periodFrom (LightBill.periodFrom lightBill) in
      let toDate := getOr periodTo (LightBill.periodTo lightBill) in
      find (duplicateBill (LightBill.room lightBill)
              (LightBill.tenant lightBill) (LightBill.lease lightBill)
              fromDate toDate (Some id))
           (lightBills db)
    else None) ;;
  reject (isSome existingBill) LightBillAlreadyExists ;;
  let units := getOr unitsConsumed (LightBill.unitsConsumed lightBill) in
  let rate := getOr ratePerUnit (LightBill.ratePerUnit lightBill) in
  let fixed := getOr fixedCharge (LightBill.fixedCharge lightBill) in
  let taxes := getOr tax (LightBill.tax lightBill) in
  let lightBill' :=
    {| LightBill._id := LightBill._id lightBill;
       LightBill.room := LightBill.room lightBill;
       LightBill.tenant := LightBill.tenant lightBill;
       LightBill.lease := LightBill.lease lightBill;
       LightBill.periodFrom := getOr periodFrom (LightBill.periodFrom lightBill);
       LightBill.periodTo := getOr periodTo (LightBill.periodTo lightBill);
       LightBill.unitsConsumed := units;
       LightBill.ratePerUnit := rate;
       LightBill.totalAmount :=
         if isSome unitsConsumed || isSome ratePerUnit
            || isSome fixedCharge || isSome tax
         then ((units * rate) + fixed + taxes)%Q
         else LightBill.totalAmount lightBill;
       LightBill.paidAmount := LightBill.paidAmount lightBill;
       LightBill.issueDate := getOr issueDate (LightBill.issueDate lightBill);
       LightBill.dueDate := getOr dueDate (LightBill.dueDate lightBill);
       LightBill.status := LightBill.status lightBill;
       LightBill.fixedCharge := fixed;
       LightBill.tax := taxes;
       LightBill.notes :=
         orElse (LightBillUpdate.notes body) (LightBill.notes lightBill) |} in
  LightBill_save lightBill' ;;
  ret lightBill'.

(** DELETE /api/light-bills/:id *)
Definition deleteLightBill (id : ObjectId) : M unit :=
  found <- reads (fun db => findDoc LightBill._id id (lightBills db)) ;;
  _ <- orFail found LightBillNotFound ;;
  modify (fun db =>
    set_lightBills (deleteDoc LightBill._id id (lightBills db)) db).

End LightBillRoutes.

(** ** Requests

    The requests that write to the database, and the database after one
    has been served (whether it succeeded or not). *)

Definition exec {A : Type} (m : M A) (db : Db) : Db := snd (m db).
Definition result {A : Type} (m : M A) (db : Db) : failure + A := fst (m db).

Inductive Request :=
  | GenerateMonthly (today : Date)
  | ScheduledTask (today : Date)
  | PayInvoice (now : Date) (id : ObjectId) (body : PayReq.t)
  | RecalculateLateFees (today : Date)
  | CreateLease (body : LeaseReq.t)
  | EndLease (now : Date) (id : ObjectId) (body : EndLeaseReq.t)
  | UpdateRoom (id : ObjectId) (body : RoomReq.t)
  | UpdateSettings (body : Settings.t)
  | CreateLightBill (body : LightBillReq.t)
  | PayLightBill (id : ObjectId) (body : PayReq.t)
  | UpdateLightBill (id : ObjectId) (body : LightBillUpdate.t)
  | DeleteLightBill (id : ObjectId)
  | VariantGenerateMonthly (today : Date)
  | VariantRecalculateLateFees (today : Date).

Definition handle (r : Request) : Db -> Db :=
  match r with
  | GenerateMonthly today => exec (InvoiceRoutes.generateMonthly today)
  | ScheduledTask today => exec (InvoiceCronService.scheduledTask today)
  | PayInvoice now id body => exec (InvoiceRoutes.payInvoice now id body)
  | RecalculateLateFees today => exec (InvoiceRoutes.recalculateLateFees today)
  | CreateLease body => exec (LeaseRoutes.createLease body)
  | EndLease now id body => exec (LeaseRoutes.endLease now id body)
  | UpdateRoom id body => exec (RoomRoutes.updateRoom id body)
  | UpdateSettings body => exec (SettingsRoutes.updateSettings body)
  | CreateLightBill body => exec (LightBillRoutes.createLightBill body)
  | PayLightBill id body => exec (LightBillRoutes.payLightBill id body)
  | UpdateLightBill id body => exec (LightBillRoutes.updateLightBill id body)
  | DeleteLightBill id => exec (LightBillRoutes.deleteLightBill id)
  | VariantGenerateMonthly today =>
      exec (InvoiceRoutesVariant.generateMonthly today)
  | VariantRecalculateLateFees today =>
      exec (InvoiceRoutesVariant.recalculateLateFees today)
  end.

Definition serve (rs : list Request) (db : Db) : Db :=
  fold_left (fun d r => handle r d) rs db.

(** The clock reading a request was served at, for those that read it. *)
Definition clockOf (r : Request) : option Date :=
  match r with
  | GenerateMonthly t | ScheduledTask t | PayInvoice t _ _
  | RecalculateLateFees t | EndLease t _ _
  | VariantGenerateMonthly t | VariantRecalculateLateFees t => Some t
  | _ => None
  end.

(** * Properties *)

(** ** Numbers *)

Lemma Qlt_bool_iff (a b : Q) : Qlt_bool a b = true <-> (a < b)%Q.
Proof.
  unfold Qlt_bool. rewrite negb_true_iff. split; intro H.
  - apply Qnot_le_lt. intro Hle. apply Qle_bool_iff in Hle. congruence.
  - destruct (Qle_bool b a) eqn:E; [|reflexivity].
    apply Qle_bool_iff in E. exfalso. exact (Qlt_not_le _ _ H E).
Qed.

Lemma Qlt_bool_false_iff (a b : Q) : Qlt_bool a b = false <-> (b <= a)%Q.
Proof.
  unfold Qlt_bool. rewrite negb_false_iff. apply Qle_bool_iff.
Qed.

Lemma Qle_bool_false_iff (a b : Q) : Qle_bool a b = false <-> (b < a)%Q.
Proof.
  rewrite <- Qlt_bool_iff. unfold Qlt_bool.
  destruct (Qle_bool a b); cbn; intuition congruence.
Qed.

Lemma orZero_eq (x : Q) : (orZero x == x)%Q.
Proof.
  unfold orZero. destruct (Qeq_bool x 0) eqn:E; [|reflexivity].
  apply Qeq_bool_iff in E. symmetry. exact E.
Qed.

Lemma notPositive_iff (x : Q) :
  falsyQ x || Qle_bool x 0 = true <-> (x <= 0)%Q.
Proof.
  unfold falsyQ. rewrite orb_true_iff, Qeq_bool_iff, Qle_bool_iff.
  split; [intros [H | H]|intro H]; [rewrite H; apply Qle_refl|exact H|now right].
Qed.

Lemma positive_passes (x : Q) :
  (0 < x)%Q -> falsyQ x || Qle_bool x 0 = false.
Proof.
  intro H. destruct (falsyQ x || Qle_bool x 0) eqn:E; [|reflexivity].
  apply notPositive_iff in E. exfalso. exact (Qlt_not_le _ _ H E).
Qed.

Ltac unfold_handler :=
  unfold bind, reject, orFail, reads, modify, ret, fail in *; cbn beta iota in *.

(** ** A running example

    One room, one tenant and the default settings; a lease at 5000 a month
    billed on the 5th; the March 2024 invoice from the scheduled job. *)

Module Example.
Import JsDate.

Definition seedDb : Db :=
  {| rooms := [ {| Room._id := 1%nat; Room.name := "Room 101";
                   Room.status := vacant; Room.currentLease := None |} ];
     tenants := [ {| Tenant._id := 2%nat; Tenant.fullName := "Tenant";
                     Tenant.phone := "0000000000" |} ];
     leases := []; invoices := []; payments := []; lightBills := [];
     settings := Some Settings.defaults; nextId := 10%nat |}.

Definition leaseBody : LeaseReq.t :=
  {| LeaseReq.tenant := Some 2%nat; LeaseReq.room := Some 1%nat;
     LeaseReq.startDate := Some (newDate 2024 0 1);
     LeaseReq.endDate := None;
     LeaseReq.rentPerMonth := Some 5000%Q;
     LeaseReq.depositAgreed := Some 10000%Q;
     LeaseReq.billingDay := Some 5%Z |}.

Definition pay (a : Q) : PayReq.t :=
  {| PayReq.amount := Some a; PayReq.date := None; PayReq.mode := None;
     PayReq.note := None |}.

Definition march1 : Date := (newDate 2024 2 1 + 2 * 60 * 60 * 1000)%Z.
Definition march10 : Date := newDate 2024 2 10.
Definition march15 : Date := newDate 2024 2 15.
Definition march18 : Date := newDate 2024 2 18.

Definition longGrace : Settings.t :=
  {| Settings.lateFeeConfig :=
       {| Settings.type := per_day; Settings.graceDays := 30;
          Settings.perDayAmount := 5; Settings.percentage := 1 |} |}.

(** The lease is created (it gets [_id] 10). *)
Definition leasedDb : Db := exec (LeaseRoutes.createLease leaseBody) seedDb.

(** The job of 1 March creates the invoice (it gets [_id] 11). *)
Definition billedDb : Db := exec (InvoiceCronService.scheduledTask march1) leasedDb.

Definition marchInvoice : Invoice.t :=
  {| Invoice._id := 11%nat; Invoice.lease := 10%nat;
     Invoice.tenant := 2%nat; Invoice.room := 1%nat;
     Invoice.periodFrom := newDate 2024 2 1;
     Invoice.periodTo := newDate 2024 3 0;
     Invoice.issueDate := march1;
     Invoice.dueDate := newDate 2024 2 5;
     Invoice.baseAmount := 5000; Invoice.lateFee := 0;
     Invoice.totalAmount := 5000; Invoice.paidAmount := 0;
     Invoice.status := unpaid |}.

(** On 18 March the late fee is 50; 5020 of the 5050 are paid; the grace
    period is then raised to 30 days and the fees recalculated. *)
Definition overpaidDb : Db :=
  let db1 := exec (InvoiceRoutes.recalculateLateFees march18) billedDb in
  let db2 := exec (InvoiceRoutes.payInvoice march18 11%nat (pay 5020)) db1 in
  let db3 := exec (SettingsRoutes.updateSettings longGrace) db2 in
  exec (InvoiceRoutes.recalculateLateFees march18) db3.

End Example.

(** ** The calendar *)

Section Calendar.
Import JsDate.
Local Open Scope Z_scope.

Lemma InLeapYear_spec y :
  InLeapYear y = true
  <-> (y mod 4 = 0 /\ y mod 100 <> 0) \/ y mod 400 = 0.
Proof.
  unfold InLeapYear.
  rewrite orb_true_iff, andb_true_iff, negb_true_iff, !Z.eqb_eq, Z.eqb_neq.
  tauto.
Qed.

Lemma leapDay_range y : 0 <= leapDay y <= 1.
Proof. unfold leapDay. destruct (InLeapYear y); lia. Qed.

Lemma DayFromYear_next y :
  DayFromYear (y + 1) = DayFromYear y + 365 + leapDay y.
Proof.
  unfold DayFromYear, leapDay. destruct (InLeapYear y) eqn:E.
  - apply InLeapYear_spec in E. Z.div_mod_to_equations. lia.
  - assert (~ ((y mod 4 = 0 /\ y mod 100 <> 0) \/ y mod 400 = 0))
      by (rewrite <- InLeapYear_spec; congruence).
    Z.div_mod_to_equations. lia.
Qed.

Lemma DayFromYear_mono a b : a <= b -> DayFromYear a <= DayFromYear b.
Proof. intro H. unfold DayFromYear. Z.div_mod_to_equations. lia. Qed.

Lemma YearFromDay_bounds d :
  DayFromYear (YearFromDay d) <= d < DayFromYear (YearFromDay d + 1).
Proof.
  unfold YearFromDay. cbv zeta.
  destruct (Z.ltb_spec d (DayFromYear (1970 + d * 400 / 146097))).
  - replace (1970 + d * 400 / 146097 - 1 + 1)
      with (1970 + d * 400 / 146097) by lia.
    split; [|lia]. unfold DayFromYear in *. Z.div_mod_to_equations. lia.
  - destruct (Z.leb_spec (DayFromYear (1970 + d * 400 / 146097 + 1)) d).
    + split; [lia|]. unfold DayFromYear in *. Z.div_mod_to_equations. lia.
    + lia.
Qed.

(** A day of year [y] is a day of no other year. *)
Lemma YearFromDay_unique y d :
  DayFromYear y <= d < DayFromYear (y + 1) -> YearFromDay d = y.
Proof.
  intros [Hlo Hhi]. pose proof (YearFromDay_bounds d) as [Hlo' Hhi'].
  destruct (Z.lt_trichotomy (YearFromDay d) y) as [Hlt | [Heq | Hgt]];
    [|exact Heq|].
  - pose proof (@DayFromYear_mono (YearFromDay d + 1) y). lia.
  - pose proof (@DayFromYear_mono (y + 1) (YearFromDay d)). lia.
Qed.

Lemma MonthFromDay_range d : 0 <= MonthFromDay d <= 11.
Proof.
  unfold MonthFromDay. cbv zeta.
  repeat match goal with
         | |- context [if ?c then _ else _] => destruct c; [lia|]
         end.
  lia.
Qed.

(** Day [date] of month [m] of year [y], for a date within the month. *)
Lemma MakeDay_fields y m date :
  0 <= m <= 11 ->
  1 <= date <= daysInMonth y m ->
  let d := MakeDay y m date in
  YearFromDay d = y /\ MonthFromDay d = m /\ DateFromDay d = date.
Proof.
  intros Hm Hdate d.
  assert (Hd : d = DayFromYear y + monthStart (leapDay y) m + date - 1).
  { subst d. unfold MakeDay. rewrite Z.div_small, Z.mod_small by lia.
    now rewrite Z.add_0_r. }
  pose proof (leapDay_range y) as Hleap.
  assert (Hcases : m = 0 \/ m = 1 \/ m = 2 \/ m = 3 \/ m = 4 \/ m = 5 \/ m = 6
                   \/ m = 7 \/ m = 8 \/ m = 9 \/ m = 10 \/ m = 11) by lia.
  set (leap := leapDay y) in *.
  assert (Hy : YearFromDay d = y).
  { apply YearFromDay_unique. rewrite DayFromYear_next, Hd. fold leap.
    repeat (destruct Hcases as [-> | Hcases]); try subst m;
      cbn [monthStart daysInMonth] in *; fold leap in Hdate; lia. }
  split; [exact Hy|].
  assert (Hmonth : MonthFromDay d = m).
  { unfold MonthFromDay, DayWithinYear. rewrite Hy, Hd. cbv zeta. fold leap.
    repeat (destruct Hcases as [-> | Hcases]); try subst m;
      cbn [monthStart daysInMonth] in *; fold leap in Hdate;
      repeat match goal with
             | |- context [if ?a <? ?b then _ else _] =>
                 destruct (Z.ltb_spec a b); try lia
             end. }
  split; [exact Hmonth|].
  unfold DateFromDay, DayWithinYear. rewrite Hmonth, Hy, Hd. fold leap. lia.
Qed.

Definition calendarDay (t : Date) : Z * Z * Z :=
  (getFullYear t, getMonth t, getDate t).

(** [new Date(year, month, date)] for a year outside 0..99 and a date
    within the month that [month] carries to. *)
Lemma newDate_calendarDay year month date :
  ~ 0 <= year <= 99 ->
  1 <= date <= daysInMonth (year + month / 12) (month mod 12) ->
  calendarDay (newDate year month date)
  = (year + month / 12, month mod 12, date).
Proof.
  intros Hyear Hdate. unfold calendarDay, getFullYear, getMonth, getDate.
  unfold newDate.
  assert (Hremap : (if (0 <=? year) && (year <=? 99) then 1900 + year
                    else year) = year).
  { destruct (Z.leb_spec 0 year); destruct (Z.leb_spec year 99); cbn;
      try reflexivity. lia. }
  rewrite Hremap. unfold Day. rewrite Z.div_mul by (unfold msPerDay; lia).
  assert (Hmk : MakeDay year month date
                = MakeDay (year + month / 12) (month mod 12) date).
  { unfold MakeDay. rewrite Z.mod_mod by lia.
    rewrite (Z.div_small (month mod 12)), Z.add_0_r
      by (apply Z.mod_pos_bound; lia).
    reflexivity. }
  rewrite Hmk.
  destruct (@MakeDay_fields (year + month / 12) (month mod 12) date)
    as (-> & -> & ->);
    [pose proof (Z.mod_pos_bound month 12); lia|exact Hdate|reflexivity].
Qed.

End Calendar.

(** ** The generation loops *)

Section Generators.
Import JsDate.

(** The three generation loops are one loop, up to how the period and the
    due date are computed. *)
Fixpoint generateWith (dueOf : Lease.t -> Date)
    (today periodFrom periodTo : Date)
    (ls : list (Lease.t * option Tenant.t * option Room.t))
    (created : list Invoice.t) : M (list Invoice.t) :=
  match ls with
  | [] => ret created
  | (lease, tenant, room) :: rest =>
      bind (Invoice_findOne (Lease._id lease) periodFrom periodTo)
        (fun found =>
           match found with
           | Some _ => generateWith dueOf today periodFrom periodTo rest created
           | None =>
               bind (orFail tenant ServerError) (fun tenantDoc =>
               bind (orFail room ServerError) (fun roomDoc =>
               bind (Invoice_create (Lease._id lease) (Tenant._id tenantDoc)
                       (Room._id roomDoc) periodFrom periodTo today
                       (dueOf lease)
                       (Lease.rentPerMonth lease) (Lease.rentPerMonth lease))
                 (fun invoice =>
                    generateWith dueOf today periodFrom periodTo rest
                      (created ++ [invoice]))))
           end)
  end.

Lemma route_generateWith today year month firstDay lastDay ls :
  forall created db,
    InvoiceRoutes.generateLoop today year month firstDay lastDay ls created db
    = generateWith (fun l => newDate year month (billingDayOr1 l))
        today firstDay lastDay ls created db.
Proof.
  induction ls as [|[[lease tenant] room] rest IH]; intros created db;
    [reflexivity|].
  cbn [InvoiceRoutes.generateLoop generateWith]. unfold bind.
  destruct (Invoice_findOne _ _ _ db) as [[e|[i|]] db1]; try reflexivity;
    [apply IH|].
  destruct (orFail tenant ServerError db1) as [[e|t] db2]; [reflexivity|].
  destruct (orFail room ServerError db2) as [[e|r] db3]; [reflexivity|].
  destruct (Invoice_create _ _ _ _ _ _ _ _ _ db3) as [[e|i] db4];
    [reflexivity|apply IH].
Qed.

Lemma cron_generateWith today year month ls :
  forall created db,
    InvoiceCronService.generateLoop today year month ls created db
    = generateWith (fun l => newDate year month (billingDayOr1 l))
        today (newDate year month 1) (newDate year (month + 1) 0)
        ls created db.
Proof.
  induction ls as [|[[lease tenant] room] rest IH]; intros created db;
    [reflexivity|].
  cbn [InvoiceCronService.generateLoop generateWith]. unfold bind.
  destruct (Invoice_findOne _ _ _ db) as [[e|[i|]] db1]; try reflexivity;
    [apply IH|].
  destruct (orFail tenant ServerError db1) as [[e|t] db2]; [reflexivity|].
  destruct (orFail room ServerError db2) as [[e|r] db3]; [reflexivity|].
  destruct (Invoice_create _ _ _ _ _ _ _ _ _ db3) as [[e|i] db4];
    [reflexivity|apply IH].
Qed.

Lemma variant_generateLoop_cron today year month ls created :
  InvoiceRoutesVariant.generateLoop today year month ls created
  = InvoiceCronService.generateLoop today year month ls created.
Proof. reflexivity. Qed.

(** An invoice as the generators create it for a lease. *)
Definition freshInvoiceOf (lease : Lease.t) (i : Invoice.t) : Prop :=
  Invoice.lease i = Lease._id lease
  /\ Invoice.baseAmount i = Lease.rentPerMonth lease
  /\ Invoice.totalAmount i = Lease.rentPerMonth lease
  /\ Invoice.lateFee i = 0%Q
  /\ Invoice.paidAmount i = 0%Q
  /\ Invoice.status i = unpaid.

Definition generatedFor (dueOf : Lease.t -> Date)
    (today periodFrom periodTo : Date)
    (ls : list (Lease.t * option Tenant.t * option Room.t))
    (i : Invoice.t) : Prop :=
  exists e,
    In e ls
    /\ freshInvoiceOf (fst (fst e)) i
    /\ Invoice.periodFrom i = periodFrom
    /\ Invoice.periodTo i = periodTo
    /\ Invoice.issueDate i = today
    /\ Invoice.dueDate i = dueOf (fst (fst e)).

Lemma generatedFor_tail dueOf today periodFrom periodTo e ls i :
  generatedFor dueOf today periodFrom periodTo ls i ->
  generatedFor dueOf today periodFrom periodTo (e :: ls) i.
Proof. intros (x & Hx & H). exists x. split; [now right|exact H]. Qed.

(** A run adds invoices, the ones it returns, and touches nothing else. *)
Record appended (db db' : Db) (extra : list Invoice.t) : Prop := {
  appended_rooms : rooms db' = rooms db;
  appended_tenants : tenants db' = tenants db;
  appended_leases : leases db' = leases db;
  appended_payments : payments db' = payments db;
  appended_lightBills : lightBills db' = lightBills db;
  appended_settings : settings db' = settings db;
  appended_invoices : invoices db' = invoices db ++ extra
}.

Lemma appended_nil db : appended db db [].
Proof. constructor; try reflexivity. now rewrite app_nil_r. Qed.

Lemma generateWith_effect dueOf today periodFrom periodTo ls :
  forall created db,
    let r := generateWith dueOf today periodFrom periodTo ls created db in
    exists extra,
      appended db (snd r) extra
      /\ Forall (generatedFor dueOf today periodFrom periodTo ls) extra
      /\ forall created', fst r = inr created' -> created' = created ++ extra.
Proof.
  induction ls as [|[[lease tenant] room] rest IH]; intros created db r.
  - subst r. exists []. cbn. split; [apply appended_nil|].
    split; [constructor|]. intros c [= <-]. now rewrite app_nil_r.
  - subst r. cbn [generateWith]. unfold Invoice_findOne. unfold_handler.
    destruct (find _ (invoices db)).
    + destruct (IH created db) as (extra & Happ & Hall & Hret).
      exists extra. split; [exact Happ|]. split; [|exact Hret].
      eapply Forall_impl; [|exact Hall]. intros i. apply generatedFor_tail.
    + destruct tenant as [tenantDoc|]; cbn;
        [|exists []; split; [apply appended_nil|];
          split; [constructor|intros c [=]]].
      destruct room as [roomDoc|]; cbn;
        [|exists []; split; [apply appended_nil|];
          split; [constructor|intros c [=]]].
      unfold Invoice_create, freshId. unfold_handler. cbn.
      match goal with
      | |- context [generateWith _ _ _ _ _ (_ ++ [?i]) ?d] =>
          destruct (IH (created ++ [i]) d) as (extra & Happ & Hall & Hret);
          exists (i :: extra)
      end.
      split; [|split].
      * destruct Happ as [H1 H2 H3 H4 H5 H6 H7]. constructor; try assumption.
        rewrite H7. cbn. now rewrite <- app_assoc.
      * constructor.
        -- exists (lease, Some tenantDoc, Some roomDoc).
           split; [now left|]. cbn. repeat split.
        -- eapply Forall_impl; [|exact Hall].
           intros i. apply generatedFor_tail.
      * intros c Hc. rewrite (Hret c Hc). now rewrite <- app_assoc.
Qed.

End Generators.

(** ** Monthly generation *)

Section GenerateMonthly.
Import JsDate.

Definition invoiceKey (i : Invoice.t) : ObjectId * Date * Date :=
  (Invoice.lease i, Invoice.periodFrom i, Invoice.periodTo i).

(** At most one invoice for a lease and a period. *)
Definition uniquePeriods (l : list Invoice.t) : Prop :=
  NoDup (map invoiceKey l).

Lemma samePeriod_key lease pf pt i :
  samePeriod lease pf pt i = true <-> invoiceKey i = (lease, pf, pt).
Proof.
  unfold samePeriod, invoiceKey.
  rewrite !andb_true_iff, Nat.eqb_eq, !Z.eqb_eq.
  split; [intros [[-> ->] ->]; reflexivity|intro H; inversion H; auto].
Qed.

Lemma find_none_key lease pf pt l :
  find (samePeriod lease pf pt) l = None ->
  ~ In (lease, pf, pt) (map invoiceKey l).
Proof.
  intros Hnone Hin. apply in_map_iff in Hin. destruct Hin as (i & Hk & Hi).
  apply (find_none _ _ Hnone) in Hi. apply samePeriod_key in Hk. congruence.
Qed.

Lemma uniquePeriods_snoc l i :
  uniquePeriods l ->
  find (samePeriod (Invoice.lease i) (Invoice.periodFrom i)
          (Invoice.periodTo i)) l = None ->
  uniquePeriods (l ++ [i]).
Proof.
  unfold uniquePeriods. intros Hl Hnone. rewrite map_app. cbn.
  apply NoDup_app; [exact Hl|repeat constructor; intros []|].
  intros k Hk [<- | []]. exact (find_none_key _ _ _ _ Hnone Hk).
Qed.

Lemma find_witness (A : Type) (p : A -> bool) (l : list A) (x : A) :
  In x l -> p x = true -> find p l <> None.
Proof.
  intros Hin Hp Hnone. pose proof (find_none _ _ Hnone x Hin). congruence.
Qed.

Lemma find_app_some (A : Type) (p : A -> bool) (l extra : list A) :
  find p l <> None -> find p (l ++ extra) <> None.
Proof.
  intro H. destruct (find p l) as [x|] eqn:E; [|contradiction].
  destruct (find_some _ _ E) as [Hin Hp].
  apply (find_witness _ _ x); [apply in_or_app; now left|exact Hp].
Qed.

(** A run keeps the periods unique and, when it goes through, leaves an
    invoice of the period for every lease it visited. *)
Lemma generateWith_outcome dueOf today periodFrom periodTo ls :
  forall created db,
    uniquePeriods (invoices db) ->
    let r := generateWith dueOf today periodFrom periodTo ls created db in
    uniquePeriods (invoices (snd r))
    /\ forall created', fst r = inr created' ->
         forall e, In e ls ->
           find (samePeriod (Lease._id (fst (fst e))) periodFrom periodTo)
                (invoices (snd r)) <> None.
Proof.
  induction ls as [|[[lease tenant] room] rest IH]; intros created db Hu r.
  - subst r. cbn. split; [exact Hu|]. intros _ _ e [].
  - subst r.
    pose proof (generateWith_effect dueOf today periodFrom periodTo rest)
      as Heff.
    cbn [generateWith]. unfold Invoice_findOne. unfold_handler.
    destruct (find (samePeriod (Lease._id lease) periodFrom periodTo)
                (invoices db)) eqn:Efind.
    + destruct (IH created db Hu) as (U & F). split; [exact U|].
      intros created' Hr e [<- | He]; [|eauto].
      destruct (Heff created db) as (extra & [_ _ _ _ _ _ Hex] & _).
      cbn [fst]. rewrite Hex. apply find_app_some. congruence.
    + destruct tenant as [tenantDoc|]; cbn;
        [|split; [exact Hu|intros ? [=]]].
      destruct room as [roomDoc|]; cbn;
        [|split; [exact Hu|intros ? [=]]].
      unfold Invoice_create, freshId. unfold_handler. cbn.
      match goal with
      | |- context [generateWith _ _ _ _ _ (_ ++ [?i]) ?d] =>
          destruct (IH (created ++ [i]) d) as (U & F);
          [cbn; apply uniquePeriods_snoc; [exact Hu|exact Efind]|];
          destruct (Heff (created ++ [i]) d)
            as (extra & [_ _ _ _ _ _ Hex] & _)
      end.
      split; [exact U|].
      intros created' Hr e [<- | He]; [|eauto].
      cbn [fst]. rewrite Hex. apply find_app_some. cbn.
      match goal with
      | |- find _ (_ ++ [?i]) <> None => apply (find_witness _ _ i)
      end.
      * apply in_or_app. right. now left.
      * apply samePeriod_key. reflexivity.
Qed.

Lemma generateWith_skips dueOf today periodFrom periodTo ls :
  forall created db,
    (forall e, In e ls ->
       find (samePeriod (Lease._id (fst (fst e))) periodFrom periodTo)
            (invoices db) <> None) ->
    generateWith dueOf today periodFrom periodTo ls created db
    = (inr created, db).
Proof.
  induction ls as [|[[lease tenant] room] rest IH]; intros created db H.
  - reflexivity.
  - cbn [generateWith]. unfold Invoice_findOne. unfold_handler.
    destruct (find (samePeriod (Lease._id lease) periodFrom periodTo)
                (invoices db)) eqn:Efind.
    + apply IH. intros e He. apply H. now right.
    + exfalso. apply (H (lease, tenant, room)); [now left|exact Efind].
Qed.

(** The three generators, as runs of the one loop over the active leases
    of the database. *)
Definition activeLeases (db : Db)
    : list (Lease.t * option Tenant.t * option Room.t) :=
  map (fun l => (l, findDoc Tenant._id (Lease.tenant l) (tenants db),
                    findDoc Room._id (Lease.room l) (rooms db)))
      (filter isActive (leases db)).

Definition periodFromOf (today : Date) : Date :=
  newDate (getFullYear today) (getMonth today) 1.

Definition periodToOf (today : Date) : Date :=
  newDate (getFullYear today) (getMonth today + 1) 0.

Lemma periodFromOf_month today1 today2 :
  getFullYear today1 = getFullYear today2 ->
  getMonth today1 = getMonth today2 ->
  periodFromOf today1 = periodFromOf today2.
Proof. unfold periodFromOf. now intros -> ->. Qed.

Lemma periodToOf_month today1 today2 :
  getFullYear today1 = getFullYear today2 ->
  getMonth today1 = getMonth today2 ->
  periodToOf today1 = periodToOf today2.
Proof. unfold periodToOf. now intros -> ->. Qed.

Lemma generateMonthly_generateWith today db :
  InvoiceRoutes.generateMonthly today db
  = generateWith
      (fun l => newDate (getFullYear today) (getMonth today + 1)
                  (billingDayOr1 l))
      today (periodFromOf today) (periodToOf today) (activeLeases db) [] db.
Proof.
  unfold InvoiceRoutes.generateMonthly, Lease_findActivePopulated.
  unfold bind, reads. rewrite route_generateWith.
  unfold periodFromOf, periodToOf, activeLeases. cbv zeta. reflexivity.
Qed.

Lemma scheduledTask_generateWith today db :
  InvoiceCronService.scheduledTask today db
  = generateWith
      (fun l => newDate (getFullYear today) (getMonth today) (billingDayOr1 l))
      today (periodFromOf today) (periodToOf today) (activeLeases db) [] db.
Proof.
  unfold InvoiceCronService.scheduledTask, Lease_findActivePopulated.
  unfold bind, reads. rewrite cron_generateWith.
  unfold periodFromOf, periodToOf, activeLeases. cbv zeta. reflexivity.
Qed.

Lemma variant_generateMonthly_scheduledTask today :
  InvoiceRoutesVariant.generateMonthly today
  = InvoiceCronService.scheduledTask today.
Proof. reflexivity. Qed.

(** Two runs of the loop for one period over the same leases: the second
    has nothing to do. *)
Lemma generateWith_twice dueOf1 dueOf2 today1 today2 periodFrom periodTo
    db db1 created :
  uniquePeriods (invoices db) ->
  generateWith dueOf1 today1 periodFrom periodTo (activeLeases db) [] db
    = (inr created, db1) ->
  generateWith dueOf2 today2 periodFrom periodTo (activeLeases db1) [] db1
    = (inr [], db1)
  /\ uniquePeriods (invoices db1).
Proof.
  intros Hu Hrun.
  destruct (generateWith_outcome dueOf1 today1 periodFrom periodTo
              (activeLeases db) [] db Hu) as (U & F).
  destruct (generateWith_effect dueOf1 today1 periodFrom periodTo
              (activeLeases db) [] db) as (extra & Happ & _).
  rewrite Hrun in U, F, Happ. cbn in U, F, Happ. split; [|exact U].
  assert (Hsame : activeLeases db1 = activeLeases db).
  { unfold activeLeases. destruct Happ as [H1 H2 H3 _ _ _ _].
    now rewrite H1, H2, H3. }
  rewrite Hsame. apply generateWith_skips.
  intros e He. exact (F created eq_refl e He).
Qed.

(** The second of two runs of the route in one month. *)
Lemma generateMonthly_second_run
    (today1 today2 : Date) (db db1 : Db) (created : list Invoice.t) :
  getFullYear today1 = getFullYear today2 ->
  getMonth today1 = getMonth today2 ->
  uniquePeriods (invoices db) ->
  InvoiceRoutes.generateMonthly today1 db = (inr created, db1) ->
  InvoiceRoutes.generateMonthly today2 db1 = (inr [], db1)
  /\ uniquePeriods (invoices db1).
Proof.
  intros Hy Hm Hu Hrun. rewrite generateMonthly_generateWith in Hrun.
  rewrite generateMonthly_generateWith.
  rewrite <- (@periodFromOf_month today1 today2 Hy Hm).
  rewrite <- (@periodToOf_month today1 today2 Hy Hm).
  exact (@generateWith_twice _ _ today1 today2 _ _ db db1 created Hu Hrun).
Qed.

(** The same holds when the first run is the scheduled job and the second
    the route. *)
Lemma generateMonthly_after_scheduledTask
    (today1 today2 : Date) (db db1 : Db) (created : list Invoice.t) :
  getFullYear today1 = getFullYear today2 ->
  getMonth today1 = getMonth today2 ->
  uniquePeriods (invoices db) ->
  InvoiceCronService.scheduledTask today1 db = (inr created, db1) ->
  InvoiceRoutes.generateMonthly today2 db1 = (inr [], db1)
  /\ uniquePeriods (invoices db1).
Proof.
  intros Hy Hm Hu Hrun. rewrite scheduledTask_generateWith in Hrun.
  rewrite generateMonthly_generateWith.
  rewrite <- (@periodFromOf_month today1 today2 Hy Hm).
  rewrite <- (@periodToOf_month today1 today2 Hy Hm).
  exact (@generateWith_twice _ _ today1 today2 _ _ db db1 created Hu Hrun).
Qed.

(** Uniqueness survives a run that stops on a failure as well. *)
Lemma generateMonthly_keeps_uniquePeriods (today : Date) (db : Db) :
  uniquePeriods (invoices db) ->
  uniquePeriods (invoices (exec (InvoiceRoutes.generateMonthly today) db)).
Proof.
  intro Hu. unfold exec. rewrite generateMonthly_generateWith.
  now destruct (generateWith_outcome
                  (fun l => newDate (getFullYear today) (getMonth today + 1)
                              (billingDayOr1 l))
                  today (periodFromOf today) (periodToOf today)
                  (activeLeases db) [] db Hu) as (U & _).
Qed.

End GenerateMonthly.

(** ** Due dates of generated invoices *)

Section DueDates.
Import JsDate.
Local Open Scope Z_scope.

Lemma daysInMonth_at_least_28 y m : 28 <= daysInMonth y m.
Proof.
  pose proof (leapDay_range y). unfold daysInMonth.
  repeat match goal with
         | |- context [match ?x with _ => _ end] => destruct x
         end; lia.
Qed.

Lemma activeLeases_In db e :
  In e (activeLeases db) ->
  In (fst (fst e)) (leases db) /\ isActive (fst (fst e)) = true.
Proof.
  unfold activeLeases. intro H. apply in_map_iff in H.
  destruct H as (l & <- & Hl). apply filter_In in Hl. exact Hl.
Qed.

(** What the scheduled job creates: for an active lease, an invoice at the
    rent of the lease, without late fee, due on the billing day of the
    month the job runs in (when the month has such a day). *)
Theorem scheduledTask_invoices
    (today : Date) (db db' : Db) (created : list Invoice.t) :
  InvoiceCronService.scheduledTask today db = (inr created, db') ->
  ~ 0 <= getFullYear today <= 99 ->
  Forall (fun inv =>
            exists lease,
              In lease (leases db)
              /\ isActive lease = true
              /\ freshInvoiceOf lease inv
              /\ (1 <= billingDayOr1 lease
                    <= daysInMonth (getFullYear today) (getMonth today) ->
                  calendarDay (Invoice.dueDate inv)
                  = (getFullYear today, getMonth today, billingDayOr1 lease)))
    created.
Proof.
  intros Hrun Hyear. rewrite scheduledTask_generateWith in Hrun.
  match type of Hrun with
  | generateWith ?f ?t ?pf ?pt ?ls ?c ?d = _ =>
      destruct (generateWith_effect f t pf pt ls c d)
        as (extra & _ & Hall & Hret)
  end.
  rewrite Hrun in Hret. rewrite (Hret created eq_refl). cbn [app].
  eapply Forall_impl; [|exact Hall].
  intros inv (e & He & Hfresh & _ & _ & _ & Hdue).
  destruct (activeLeases_In _ _ He) as [Hin Hact].
  exists (fst (fst e)). repeat split; try assumption; try apply Hfresh.
  intro Hday. rewrite Hdue.
  pose proof (MonthFromDay_range (Day today)) as Hm. fold (getMonth today) in Hm.
  rewrite newDate_calendarDay; rewrite ?Z.div_small, ?Z.mod_small by lia;
    rewrite ?Z.add_0_r; [reflexivity|exact Hyear|exact Hday].
Qed.

Lemma scheduledTask_invoices_witness :
  exists inv,
    Forall (fun inv =>
              exists lease,
                In lease (leases Example.leasedDb)
                /\ isActive lease = true
                /\ freshInvoiceOf lease inv
                /\ (1 <= billingDayOr1 lease <= daysInMonth 2024 2 ->
                    calendarDay (Invoice.dueDate inv)
                    = (2024, 2, billingDayOr1 lease)))
      [inv].
Proof.
  eexists.
  refine (@scheduledTask_invoices Example.march1 Example.leasedDb _ _ _ _).
  - vm_compute. reflexivity.
  - vm_compute. intros [_ H]. apply H. reflexivity.
Defined.

(** What the route creates: the same invoice, due on the billing day of
    the month after. *)
Theorem generateMonthly_invoices
    (today : Date) (db db' : Db) (created : list Invoice.t) :
  InvoiceRoutes.generateMonthly today db = (inr created, db') ->
  ~ 0 <= getFullYear today <= 99 ->
  Forall (fun inv =>
            exists lease,
              In lease (leases db)
              /\ isActive lease = true
              /\ freshInvoiceOf lease inv
              /\ (1 <= billingDayOr1 lease <= 28 ->
                  calendarDay (Invoice.dueDate inv)
                  = (getFullYear today + (getMonth today + 1) / 12,
                     (getMonth today + 1) mod 12,
                     billingDayOr1 lease)
                  /\ getMonth (Invoice.dueDate inv) <> getMonth today))
    created.
Proof.
  intros Hrun Hyear. rewrite generateMonthly_generateWith in Hrun.
  match type of Hrun with
  | generateWith ?f ?t ?pf ?pt ?ls ?c ?d = _ =>
      destruct (generateWith_effect f t pf pt ls c d)
        as (extra & _ & Hall & Hret)
  end.
  rewrite Hrun in Hret. rewrite (Hret created eq_refl). cbn [app].
  eapply Forall_impl; [|exact Hall].
  intros inv (e & He & Hfresh & _ & _ & _ & Hdue).
  destruct (activeLeases_In _ _ He) as [Hin Hact].
  exists (fst (fst e)). repeat split; try assumption; try apply Hfresh.
  - rewrite Hdue. apply newDate_calendarDay; [exact Hyear|].
    pose proof (daysInMonth_at_least_28
                  (getFullYear today + (getMonth today + 1) / 12)
                  ((getMonth today + 1) mod 12)). lia.
  - assert (Hcal : calendarDay (Invoice.dueDate inv)
                   = (getFullYear today + (getMonth today + 1) / 12,
                      (getMonth today + 1) mod 12,
                      billingDayOr1 (fst (fst e)))).
    { rewrite Hdue. apply newDate_calendarDay; [exact Hyear|].
      pose proof (daysInMonth_at_least_28
                    (getFullYear today + (getMonth today + 1) / 12)
                    ((getMonth today + 1) mod 12)). lia. }
    unfold calendarDay in Hcal. injection Hcal as _ Hmonth _.
    rewrite Hmonth.
    pose proof (MonthFromDay_range (Day today)) as Hm.
    fold (getMonth today) in Hm.
    Z.div_mod_to_equations. lia.
Qed.

(** C3 at its failing input: the lease at 5000 a month billed on the 5th,
    invoiced through the route on 10 March 2024.  The period is March and
    the amounts are as stated, but the due date is 5 April: the route
    passes the 1-indexed month to [new Date]. *)
Lemma generateMonthly_dueDate_in_following_month :
  exists inv db',
    InvoiceRoutes.generateMonthly Example.march10 Example.leasedDb
      = (inr [inv], db')
    /\ Invoice.baseAmount inv = 5000%Q
    /\ Invoice.totalAmount inv = 5000%Q
    /\ Invoice.lateFee inv = 0%Q
    /\ calendarDay (Invoice.periodFrom inv) = (2024, 2, 1)
    /\ calendarDay (Invoice.periodTo inv) = (2024, 2, 31)
    /\ calendarDay (Invoice.dueDate inv) = (2024, 3, 5).
Proof.
  eexists. eexists. split; [vm_compute; reflexivity|].
  vm_compute. repeat split.
Qed.

(** The scheduled job, on the same lease, dates the invoice 5 March. *)
Lemma scheduledTask_dueDate_in_target_month :
  exists inv db',
    InvoiceCronService.scheduledTask Example.march1 Example.leasedDb
      = (inr [inv], db')
    /\ Invoice.baseAmount inv = 5000%Q
    /\ Invoice.totalAmount inv = 5000%Q
    /\ Invoice.lateFee inv = 0%Q
    /\ calendarDay (Invoice.periodFrom inv) = (2024, 2, 1)
    /\ calendarDay (Invoice.periodTo inv) = (2024, 2, 31)
    /\ calendarDay (Invoice.dueDate inv) = (2024, 2, 5).
Proof.
  eexists. eexists. split; [vm_compute; reflexivity|].
  vm_compute. repeat split.
Qed.

End DueDates.

(** ** Documents and their [_id] *)

Section Documents.
Variable A : Type.
Variable idOf : A -> ObjectId.

Lemma saveDoc_app (doc x : A) (done rest : list A) :
  ~ In (idOf x) (map idOf done) ->
  idOf doc = idOf x ->
  saveDoc idOf doc (done ++ x :: rest) = done ++ doc :: rest.
Proof.
  intros Hnot Hid. induction done as [|d done IH]; cbn.
  - rewrite Hid, Nat.eqb_refl. reflexivity.
  - cbn in Hnot. destruct (Nat.eqb_spec (idOf d) (idOf doc)) as [E|E].
    + exfalso. apply Hnot. left. congruence.
    + f_equal. apply IH. intro H. apply Hnot. now right.
Qed.

Lemma findDoc_map (f : A -> A) (x : A) (l : list A) :
  (forall y, idOf (f y) = idOf y) ->
  NoDup (map idOf l) ->
  In x l ->
  findDoc idOf (idOf x) (map f l) = Some (f x).
Proof.
  intros Hf Hnd Hin. unfold findDoc.
  induction l as [|y l IH]; [destruct Hin|].
  cbn. rewrite Hf. inversion Hnd as [|? ? Hy Hl]; subst.
  destruct Hin as [-> | Hin].
  - now rewrite Nat.eqb_refl.
  - destruct (Nat.eqb_spec (idOf y) (idOf x)) as [E|E]; [|auto].
    exfalso. apply Hy. rewrite E. now apply in_map.
Qed.

Lemma NoDup_middle (done rest : list A) (x y : A) :
  idOf y = idOf x ->
  NoDup (map idOf (done ++ x :: rest)) ->
  NoDup (map idOf ((done ++ [y]) ++ rest))
  /\ ~ In (idOf x) (map idOf done).
Proof.
  intros Hid Hnd. rewrite <- app_assoc. cbn.
  rewrite map_app in *. cbn in *. rewrite Hid. split; [exact Hnd|].
  apply NoDup_remove_2 in Hnd. intro H. apply Hnd.
  apply in_or_app. now left.
Qed.
End Documents.

Lemma set_invoices_twice (a b : list Invoice.t) (db : Db) :
  set_invoices a (set_invoices b db) = set_invoices a db.
Proof. reflexivity. Qed.

Lemma set_invoices_same (db : Db) : set_invoices (invoices db) db = db.
Proof. destruct db; reflexivity. Qed.

(** ** Loops that save documents

    The two recalculation loops visit the open invoices found at the start
    and save some of them back.  With distinct [_id]s this rewrites the
    collection in place. *)

Section SaveEach.
Local Open Scope handler_scope.

Variable step : Invoice.t -> option Invoice.t.
Variable p : Invoice.t -> bool.
Hypothesis step_id : forall x y, step x = Some y -> Invoice._id y = Invoice._id x.

Fixpoint saveEach (found : list Invoice.t) (n : nat) : M nat :=
  match found with
  | [] => ret n
  | x :: rest =>
      match step x with
      | Some y => Invoice_save y ;; saveEach rest (S n)
      | None => saveEach rest n
      end
  end.

Definition stepped (x : Invoice.t) : Invoice.t :=
  match step x with Some y => y | None => x end.

Definition steppedIf (x : Invoice.t) : Invoice.t :=
  if p x then stepped x else x.

Definition written (x : Invoice.t) : bool :=
  match step x with Some _ => true | None => false end.

Lemma steppedIf_id x : Invoice._id (steppedIf x) = Invoice._id x.
Proof.
  unfold steppedIf, stepped. destruct (p x); [|reflexivity].
  destruct (step x) eqn:E; [now apply (@step_id _ _ E)|reflexivity].
Qed.

Lemma saveEach_run (todo : list Invoice.t) :
  forall (done : list Invoice.t) (db : Db) (n : nat),
    invoices db = done ++ todo ->
    NoDup (map Invoice._id (done ++ todo)) ->
    saveEach (filter p todo) n db
    = (inr (n + List.length (filter written (filter p todo)))%nat,
       set_invoices (done ++ map steppedIf todo) db).
Proof.
  induction todo as [|x todo IH]; intros done db n Hdb Hnd.
  - cbn. rewrite Nat.add_0_r, <- Hdb, set_invoices_same. reflexivity.
  - cbn [filter map]. unfold steppedIf at 1.
    assert (Hstep : forall y, Invoice._id y = Invoice._id x ->
              forall db', invoices db' = done ++ y :: todo ->
              forall n',
              saveEach (filter p todo) n' db'
              = (inr (n' + List.length (filter written (filter p todo)))%nat,
                 set_invoices (done ++ y :: map steppedIf todo) db')).
    { intros y Hy db' Hdb' n'.
      destruct (NoDup_middle Invoice._id done todo x y Hy Hnd) as [Hnd' _].
      rewrite (IH (done ++ [y]) db' n'); [|now rewrite <- app_assoc|exact Hnd'].
      now rewrite <- app_assoc. }
    destruct (p x) eqn:Ep; [|apply Hstep; [reflexivity|exact Hdb]].
    cbn [saveEach filter]. unfold stepped, written at 1.
    destruct (step x) as [y|] eqn:Ey; [|apply Hstep; [reflexivity|exact Hdb]].
    pose proof (Hstep y (@step_id _ _ Ey)) as Hy.
    unfold Invoice_save. unfold_handler. cbn [List.length].
    rewrite Hy.
    + rewrite set_invoices_twice, Nat.add_succ_r. reflexivity.
    + cbn. rewrite Hdb. apply saveDoc_app; [|exact (@step_id _ _ Ey)].
      now destruct (NoDup_middle Invoice._id done todo x x eq_refl Hnd).
Qed.

(** A pass that has nothing to write leaves the database alone. *)
Lemma saveEach_idle (found : list Invoice.t) (n : nat) (db : Db) :
  Forall (fun x => step x = None) found ->
  saveEach found n db = (inr n, db).
Proof.
  intro H. revert n. induction H as [|x found Hx _ IH]; intro n; cbn.
  - reflexivity.
  - rewrite Hx. apply IH.
Qed.

End SaveEach.

(** ** Recalculating late fees *)

Section LateFees.
Import JsDate.
Local Open Scope Q_scope.

(** The loop bodies as steps. *)
Definition feeStep (cfg : Settings.LateFeeConfig) (today : Date)
    (invoice : Invoice.t) : option Invoice.t :=
  let lateFee := InvoiceRoutes.lateFeeOf cfg today invoice in
  if negb (Qeq_bool lateFee (Invoice.lateFee invoice)) then
    Some (Invoice.set_totalAmount (Invoice.set_lateFee invoice lateFee)
            (Invoice.baseAmount invoice + lateFee))
  else None.

Lemma recalculateLoop_saveEach cfg today found :
  forall n db,
    InvoiceRoutes.recalculateLoop cfg today found n db
    = saveEach (feeStep cfg today) found n db.
Proof.
  induction found as [|x found IH]; intros n db; [reflexivity|].
  cbn [InvoiceRoutes.recalculateLoop saveEach]. unfold feeStep at 1.
  destruct (negb _); [|apply IH].
  unfold Invoice_save. unfold_handler. apply IH.
Qed.

Lemma feeStep_id cfg today x y :
  feeStep cfg today x = Some y -> Invoice._id y = Invoice._id x.
Proof.
  unfold feeStep. destruct (negb _); intros [=]. now subst.
Qed.

(** The invoice as the route leaves it. *)
Definition recalculated (cfg : Settings.LateFeeConfig) (today : Date)
    (invoice : Invoice.t) : Invoice.t :=
  steppedIf (feeStep cfg today) InvoiceRoutes.isOpen invoice.

Lemma recalculateLateFees_run (today : Date) (db : Db) (s : Settings.t) :
  settings db = Some s ->
  NoDup (map Invoice._id (invoices db)) ->
  InvoiceRoutes.recalculateLateFees today db
  = (inr (List.length
            (filter (written (feeStep (Settings.lateFeeConfig s) today))
               (filter InvoiceRoutes.isOpen (invoices db)))),
     set_invoices
       (map (recalculated (Settings.lateFeeConfig s) today) (invoices db)) db).
Proof.
  intros Hs Hnd. unfold InvoiceRoutes.recalculateLateFees. unfold_handler.
  rewrite Hs. rewrite recalculateLoop_saveEach.
  exact (@saveEach_run _ InvoiceRoutes.isOpen
           (@feeStep_id (Settings.lateFeeConfig s) today)
           (invoices db) [] db 0%nat eq_refl Hnd).
Qed.

Lemma isOpen_iff (i : Invoice.t) :
  InvoiceRoutes.isOpen i = true
  <-> Invoice.status i = unpaid \/ Invoice.status i = partially_paid.
Proof.
  unfold InvoiceRoutes.isOpen. destruct (Invoice.status i); cbn;
    intuition congruence.
Qed.

Lemma recalculated_open cfg today i :
  InvoiceRoutes.isOpen i = true ->
  (Invoice.lateFee (recalculated cfg today i)
     == InvoiceRoutes.lateFeeOf cfg today i)
  /\ Invoice.baseAmount (recalculated cfg today i) = Invoice.baseAmount i
  /\ Invoice.paidAmount (recalculated cfg today i) = Invoice.paidAmount i
  /\ Invoice.dueDate (recalculated cfg today i) = Invoice.dueDate i
  /\ Invoice.status (recalculated cfg today i) = Invoice.status i
  /\ (Invoice.totalAmount i == Invoice.baseAmount i + Invoice.lateFee i ->
      Invoice.totalAmount (recalculated cfg today i)
        == Invoice.baseAmount i + InvoiceRoutes.lateFeeOf cfg today i).
Proof.
  intro Hopen. unfold recalculated, steppedIf, stepped, feeStep.
  rewrite Hopen.
  destruct (Qeq_bool (InvoiceRoutes.lateFeeOf cfg today i) (Invoice.lateFee i))
    eqn:E; cbn.
  - apply Qeq_bool_iff in E. repeat split; try reflexivity.
    + symmetry. exact E.
    + intro H. rewrite H, E. reflexivity.
  - repeat split; reflexivity.
Qed.

Lemma lateFeeOf_cases cfg today i :
  let diffDays := inject_Z ((today - Invoice.dueDate i) / msPerDay) in
  let fee := InvoiceRoutes.lateFeeOf cfg today i in
  (Settings.graceDays cfg < diffDays ->
   Settings.type cfg = per_day ->
   fee = (diffDays - Settings.graceDays cfg) * Settings.perDayAmount cfg)
  /\ (Settings.graceDays cfg < diffDays ->
      Settings.type cfg = percentage ->
      fee = Invoice.baseAmount i * Settings.percentage cfg / 100)
  /\ (~ Settings.graceDays cfg < diffDays -> fee = 0).
Proof.
  cbv zeta. unfold InvoiceRoutes.lateFeeOf, InvoiceRoutes.diffDaysOf.
  destruct (Qlt_bool (Settings.graceDays cfg)
              (inject_Z ((today - Invoice.dueDate i) / msPerDay))) eqn:E.
  - apply Qlt_bool_iff in E. repeat split.
    + intros _ ->. reflexivity.
    + intros _ ->. reflexivity.
    + intro H. contradiction.
  - apply Qlt_bool_false_iff in E. repeat split.
    + intro H. exfalso. exact (Qlt_not_le _ _ H E).
    + intro H. exfalso. exact (Qlt_not_le _ _ H E).
Qed.

(** The late fee and the total that the recalculation leaves on a stored
    invoice that is unpaid or partially paid, when [_id]s are distinct and
    the invoice came with its total at base amount plus late fee. *)
Lemma recalculateLateFees_stored_fee
    (today : Date) (db : Db) (s : Settings.t) (invoice : Invoice.t) :
  settings db = Some s ->
  NoDup (map Invoice._id (invoices db)) ->
  In invoice (invoices db) ->
  Invoice.status invoice = unpaid \/ Invoice.status invoice = partially_paid ->
  Invoice.totalAmount invoice
    == Invoice.baseAmount invoice + Invoice.lateFee invoice ->
  let cfg := Settings.lateFeeConfig s in
  let diffDays := inject_Z ((today - Invoice.dueDate invoice) / msPerDay) in
  exists invoice',
    findDoc Invoice._id (Invoice._id invoice)
      (invoices (exec (InvoiceRoutes.recalculateLateFees today) db))
      = Some invoice'
    /\ (Settings.graceDays cfg < diffDays ->
        Settings.type cfg = per_day ->
        Invoice.lateFee invoice'
          == (diffDays - Settings.graceDays cfg) * Settings.perDayAmount cfg)
    /\ (Settings.graceDays cfg < diffDays ->
        Settings.type cfg = percentage ->
        Invoice.lateFee invoice'
          == Invoice.baseAmount invoice * Settings.percentage cfg / 100)
    /\ (~ Settings.graceDays cfg < diffDays -> Invoice.lateFee invoice' == 0)
    /\ Invoice.totalAmount invoice'
         == Invoice.baseAmount invoice' + Invoice.lateFee invoice'
    /\ Invoice.baseAmount invoice' = Invoice.baseAmount invoice.
Proof.
  intros Hs Hnd Hin Hst Htotal cfg diffDays.
  exists (recalculated cfg today invoice).
  apply isOpen_iff in Hst.
  destruct (recalculated_open cfg today invoice Hst)
    as (Hfee & Hbase & _ & _ & _ & Htot).
  destruct (lateFeeOf_cases cfg today invoice) as (Hday & Hpct & Hzero).
  split.
  { unfold exec. rewrite (recalculateLateFees_run today db Hs Hnd). cbn.
    apply findDoc_map; [|exact Hnd|exact Hin].
    intro y. apply steppedIf_id. exact (@feeStep_id cfg today). }
  repeat split.
  - intros H1 H2. rewrite Hfee, (Hday H1 H2). reflexivity.
  - intros H1 H2. rewrite Hfee, (Hpct H1 H2). reflexivity.
  - intro H1. rewrite Hfee, (Hzero H1). reflexivity.
  - rewrite Hbase, Hfee. exact (Htot Htotal).
  - exact Hbase.
Qed.

(** The second pass finds every fee as it computes it. *)
Lemma feeStep_recalculated cfg today i :
  InvoiceRoutes.isOpen (recalculated cfg today i) = true ->
  feeStep cfg today (recalculated cfg today i) = None.
Proof.
  unfold recalculated, steppedIf, stepped.
  destruct (InvoiceRoutes.isOpen i) eqn:Eopen; [intros _|congruence].
  destruct (feeStep cfg today i) as [y|] eqn:Ey; [|exact Ey].
  unfold feeStep in Ey.
  destruct (negb _) in Ey; [|discriminate]. injection Ey as <-.
  unfold feeStep, InvoiceRoutes.lateFeeOf. cbn.
  fold (InvoiceRoutes.lateFeeOf cfg today i).
  now rewrite Qeq_bool_refl.
Qed.

(** A second run at the same clock reading, on distinct [_id]s. *)
Lemma recalculateLateFees_second_run
    (today : Date) (db db1 : Db) (n : nat) :
  NoDup (map Invoice._id (invoices db)) ->
  InvoiceRoutes.recalculateLateFees today db = (inr n, db1) ->
  InvoiceRoutes.recalculateLateFees today db1 = (inr 0%nat, db1).
Proof.
  intros Hnd Hrun. destruct (settings db) as [s|] eqn:Hs.
  - rewrite (recalculateLateFees_run today db Hs Hnd) in Hrun.
    injection Hrun as _ <-.
    unfold InvoiceRoutes.recalculateLateFees. unfold_handler. cbn.
    rewrite Hs, recalculateLoop_saveEach. apply saveEach_idle.
    apply Forall_forall. intros j Hj. apply filter_In in Hj.
    destruct Hj as [Hj Hopen]. apply in_map_iff in Hj.
    destruct Hj as (i & <- & _). now apply feeStep_recalculated.
  - unfold InvoiceRoutes.recalculateLateFees in Hrun. unfold_handler.
    rewrite Hs in Hrun. discriminate.
Qed.

(** The route never touches the status of an invoice. *)
Lemma recalculateLateFees_keeps_status
    (today : Date) (db : Db) (s : Settings.t) (invoice : Invoice.t) :
  settings db = Some s ->
  NoDup (map Invoice._id (invoices db)) ->
  In invoice (invoices db) ->
  exists invoice',
    findDoc Invoice._id (Invoice._id invoice)
      (invoices (exec (InvoiceRoutes.recalculateLateFees today) db))
      = Some invoice'
    /\ Invoice.status invoice' = Invoice.status invoice.
Proof.
  intros Hs Hnd Hin.
  exists (recalculated (Settings.lateFeeConfig s) today invoice). split.
  - unfold exec. rewrite (recalculateLateFees_run today db Hs Hnd). cbn.
    apply findDoc_map; [|exact Hnd|exact Hin].
    intro y. apply steppedIf_id.
    exact (@feeStep_id (Settings.lateFeeConfig s) today).
  - destruct (InvoiceRoutes.isOpen invoice) eqn:Eopen.
    + now destruct (recalculated_open (Settings.lateFeeConfig s) today
                      invoice Eopen) as (_ & _ & _ & _ & H & _).
    + unfold recalculated, steppedIf. now rewrite Eopen.
Qed.

(** C5 at its failing input: the March invoice, unpaid, nothing paid, on
    18 March (13 days after its due date).  The recalculation raises the
    total to 5050 and leaves the status unpaid, where the statement has it
    become overdue. *)
Lemma recalculateLateFees_overdue_invoice_stays_unpaid :
  (Invoice.dueDate Example.marchInvoice < Example.march18)%Z
  /\ In Example.marchInvoice (invoices Example.billedDb)
  /\ Invoice.status Example.marchInvoice = unpaid
  /\ map (fun i => (Invoice.paidAmount i, Invoice.totalAmount i,
                    Invoice.status i))
       (invoices (exec (InvoiceRoutes.recalculateLateFees Example.march18)
                    Example.billedDb))
     = [(0, 5050, unpaid)].
Proof.
  split; [reflexivity|]. split; [left; reflexivity|].
  split; reflexivity.
Qed.

End LateFees.

(** ** The earlier copy of the recalculation *)

Section VariantLateFees.
Import JsDate.
Local Open Scope Q_scope.

Definition rederived (today : Date) (invoice : Invoice.t) : Invoice.t :=
  if Qle_bool (Invoice.totalAmount invoice) (Invoice.paidAmount invoice)
  then Invoice.set_status invoice paid
  else if Z.ltb (Invoice.dueDate invoice) today
  then Invoice.set_status invoice
         (if Qlt_bool 0 (Invoice.paidAmount invoice)
          then partially_paid else overdue)
  else invoice.

Definition variantStep (cfg : Settings.LateFeeConfig) (today : Date)
    (invoice : Invoice.t) : option Invoice.t :=
  let lateFee := InvoiceRoutes.lateFeeOf cfg today invoice in
  Some (rederived today
          (Invoice.set_totalAmount (Invoice.set_lateFee invoice lateFee)
             (Invoice.baseAmount invoice + lateFee))).

Lemma variant_recalculateLoop_saveEach cfg today found :
  forall n db,
    InvoiceRoutesVariant.recalculateLoop cfg today found n db
    = saveEach (variantStep cfg today) found n db.
Proof.
  induction found as [|x found IH]; intros n db; [reflexivity|].
  cbn [InvoiceRoutesVariant.recalculateLoop saveEach variantStep].
  unfold Invoice_save. unfold_handler. apply IH.
Qed.

Lemma rederived_id today x : Invoice._id (rederived today x) = Invoice._id x.
Proof.
  unfold rederived. destruct (Qle_bool _ _); [reflexivity|].
  now destruct (Z.ltb _ _).
Qed.

Lemma variantStep_id cfg today x y :
  variantStep cfg today x = Some y -> Invoice._id y = Invoice._id x.
Proof.
  unfold variantStep. intros [= <-]. now rewrite rederived_id.
Qed.

Lemma variant_recalculateLateFees_run (today : Date) (db : Db)
    (s : Settings.t) :
  settings db = Some s ->
  NoDup (map Invoice._id (invoices db)) ->
  InvoiceRoutesVariant.recalculateLateFees today db
  = (inr (List.length (filter InvoiceRoutes.isOpen (invoices db))),
     set_invoices
       (map (steppedIf (variantStep (Settings.lateFeeConfig s) today)
               InvoiceRoutes.isOpen) (invoices db)) db).
Proof.
  intros Hs Hnd. unfold InvoiceRoutesVariant.recalculateLateFees.
  unfold_handler. rewrite Hs, variant_recalculateLoop_saveEach.
  rewrite (@saveEach_run _ InvoiceRoutes.isOpen
             (@variantStep_id (Settings.lateFeeConfig s) today)
             (invoices db) [] db 0%nat eq_refl Hnd).
  cbn. f_equal. f_equal. f_equal.
  induction (filter InvoiceRoutes.isOpen (invoices db)) as [|x l IH];
    [reflexivity|]. cbn. now rewrite IH.
Qed.

(** What the statement of C5 says, on the copy that does it: the copy
    sets the fee and the total on each unpaid or partially paid invoice and
    then re-derives its status from the paid amount, the new total and the
    due date. *)
Theorem variant_recalculateLateFees_rederives_status
    (today : Date) (db : Db) (s : Settings.t) (invoice : Invoice.t) :
  settings db = Some s ->
  NoDup (map Invoice._id (invoices db)) ->
  In invoice (invoices db) ->
  Invoice.status invoice = unpaid \/ Invoice.status invoice = partially_paid ->
  exists invoice',
    findDoc Invoice._id (Invoice._id invoice)
      (invoices (exec (InvoiceRoutesVariant.recalculateLateFees today) db))
      = Some invoice'
    /\ Invoice.paidAmount invoice' = Invoice.paidAmount invoice
    /\ Invoice.dueDate invoice' = Invoice.dueDate invoice
    /\ Invoice.lateFee invoice'
       = InvoiceRoutes.lateFeeOf (Settings.lateFeeConfig s) today invoice
    /\ Invoice.totalAmount invoice'
       = Invoice.baseAmount invoice + Invoice.lateFee invoice'
    /\ (Invoice.totalAmount invoice' <= Invoice.paidAmount invoice' ->
        Invoice.status invoice' = paid)
    /\ (Invoice.paidAmount invoice' < Invoice.totalAmount invoice' ->
        (Invoice.dueDate invoice' < today)%Z ->
        0 < Invoice.paidAmount invoice' ->
        Invoice.status invoice' = partially_paid)
    /\ (Invoice.paidAmount invoice' < Invoice.totalAmount invoice' ->
        (Invoice.dueDate invoice' < today)%Z ->
        Invoice.paidAmount invoice' <= 0 ->
        Invoice.status invoice' = overdue)
    /\ (Invoice.paidAmount invoice' < Invoice.totalAmount invoice' ->
        ~ (Invoice.dueDate invoice' < today)%Z ->
        Invoice.status invoice' = Invoice.status invoice).
Proof.
  intros Hs Hnd Hin Hst. apply isOpen_iff in Hst.
  eexists. split.
  { unfold exec. rewrite (variant_recalculateLateFees_run today db Hs Hnd).
    cbn. apply findDoc_map; [|exact Hnd|exact Hin].
    intro y. apply steppedIf_id.
    exact (@variantStep_id (Settings.lateFeeConfig s) today). }
  unfold steppedIf, stepped, variantStep. rewrite Hst.
  set (fee := InvoiceRoutes.lateFeeOf (Settings.lateFeeConfig s) today invoice).
  unfold rederived. cbn.
  destruct (Qle_bool (Invoice.baseAmount invoice + fee)
              (Invoice.paidAmount invoice)) eqn:Epaid; cbn.
  - apply Qle_bool_iff in Epaid.
    repeat split; intros; try reflexivity; exfalso; lra.
  - apply Qle_bool_false_iff in Epaid.
    destruct (Z.ltb_spec (Invoice.dueDate invoice) today) as [Hdue|Hdue]; cbn.
    + destruct (Qlt_bool 0 (Invoice.paidAmount invoice)) eqn:Epos;
        [apply Qlt_bool_iff in Epos|apply Qlt_bool_false_iff in Epos];
        repeat split; intros; try reflexivity; exfalso; solve [lra|lia].
    + repeat split; intros; try reflexivity; exfalso; solve [lra|lia].
Qed.

(** On the invoice of the running example the copy does report overdue. *)
Lemma variant_recalculateLateFees_overdue_invoice :
  map (fun i => (Invoice.paidAmount i, Invoice.totalAmount i,
                 Invoice.status i))
    (invoices (exec (InvoiceRoutesVariant.recalculateLateFees Example.march18)
                 Example.billedDb))
  = [(0, 5050, overdue)].
Proof. reflexivity. Qed.

End VariantLateFees.

(** ** Status and payment history *)

Section StatusPurity.
Local Open Scope Q_scope.

(** The specification's statement: from one database and at one clock
    reading, two request sequences that leave an invoice with the same paid
    amount, total and due date leave it with the same status. *)
Definition status_determined_by_amounts (now : Date) (db0 : Db)
    (id : ObjectId) : Prop :=
  forall rs1 rs2 i1 i2,
    Forall (fun r => clockOf r = None \/ clockOf r = Some now) rs1 ->
    Forall (fun r => clockOf r = None \/ clockOf r = Some now) rs2 ->
    findDoc Invoice._id id (invoices (serve rs1 db0)) = Some i1 ->
    findDoc Invoice._id id (invoices (serve rs2 db0)) = Some i2 ->
    Invoice.paidAmount i1 == Invoice.paidAmount i2 ->
    Invoice.totalAmount i1 == Invoice.totalAmount i2 ->
    Invoice.dueDate i1 = Invoice.dueDate i2 ->
    Invoice.status i1 = Invoice.status i2.

(** C6 does not hold of the route of [routes/invoiceRoutes.js].  On 18
    March the March invoice is paid 5000 in two ways: at once, which
    settles its total of 5000 (status paid); or after a recalculation has
    raised the total to 5050 (status partially paid), the grace period
    then being extended and the fees recalculated, which brings the total
    back to 5000 and leaves the status alone.  The recalculation never
    assigns the status (the defect of C5). *)
Lemma status_depends_on_history :
  ~ status_determined_by_amounts Example.march18 Example.billedDb 11%nat.
Proof.
  intro H.
  assert (E : partially_paid = paid); [|discriminate].
  apply (H
    [RecalculateLateFees Example.march18;
     PayInvoice Example.march18 11%nat (Example.pay 5000);
     UpdateSettings Example.longGrace;
     RecalculateLateFees Example.march18]
    [PayInvoice Example.march18 11%nat (Example.pay 5000)]
    (Invoice.set_status
       (Invoice.set_paidAmount Example.marchInvoice 5000) partially_paid)
    (Invoice.set_status
       (Invoice.set_paidAmount Example.marchInvoice 5000) paid)).
  - repeat (apply Forall_cons;
            [first [left; reflexivity|right; reflexivity]|]).
    apply Forall_nil.
  - repeat (apply Forall_cons;
            [first [left; reflexivity|right; reflexivity]|]).
    apply Forall_nil.
  - vm_compute. reflexivity.
  - vm_compute. reflexivity.
  - reflexivity.
  - reflexivity.
  - reflexivity.
Qed.

Definition Qsum (l : list Q) : Q := fold_right Qplus 0 l.

Lemma findDoc_saveDoc (A : Type) (idOf : A -> ObjectId) (id : ObjectId)
    (x y : A) (l : list A) :
  findDoc idOf id l = Some x ->
  idOf y = id ->
  findDoc idOf id (saveDoc idOf y l) = Some y.
Proof.
  unfold findDoc. intros Hfind Hy. induction l as [|z l IH]; [discriminate|].
  cbn in *. rewrite Hy.
  destruct (Nat.eqb (idOf z) id) eqn:E.
  - cbn. now rewrite Hy, Nat.eqb_refl.
  - cbn. rewrite E. auto.
Qed.

Lemma findDoc_id (A : Type) (idOf : A -> ObjectId) (id : ObjectId)
    (x : A) (l : list A) :
  findDoc idOf id l = Some x -> idOf x = id.
Proof.
  intro H. apply find_some in H. destruct H as [_ H].
  now apply Nat.eqb_eq in H.
Qed.

(** The other copy of the router re-derives the status when it
    recalculates: served by it, the first history leaves the invoice paid,
    as the second does. *)
Lemma variant_status_after_both_histories :
  option_map Invoice.status
    (findDoc Invoice._id 11%nat
       (invoices
          (serve [VariantRecalculateLateFees Example.march18;
                  PayInvoice Example.march18 11%nat (Example.pay 5000);
                  UpdateSettings Example.longGrace;
                  VariantRecalculateLateFees Example.march18]
             Example.billedDb)))
  = Some paid
  /\ option_map Invoice.status
       (findDoc Invoice._id 11%nat
          (invoices
             (serve [PayInvoice Example.march18 11%nat (Example.pay 5000)]
                Example.billedDb)))
     = Some paid.
Proof. split; vm_compute; reflexivity. Qed.

End StatusPurity.

(** ** Overlapping leases *)

Module LeaseExample.
Import JsDate.

Definition summerLease : LeaseReq.t :=
  {| LeaseReq.tenant := Some 2%nat; LeaseReq.room := Some 1%nat;
     LeaseReq.startDate := Some (newDate 2024 5 1);
     LeaseReq.endDate := Some (newDate 2024 6 1);
     LeaseReq.rentPerMonth := Some 5000%Q;
     LeaseReq.depositAgreed := Some 10000%Q;
     LeaseReq.billingDay := None |}.

Definition markVacant : RoomReq.t :=
  {| RoomReq.name := None; RoomReq.status := Some vacant |}.

(** Room 1 carries an active lease for June 2024 and has been marked
    vacant again through the room route. *)
Definition summerDb : Db :=
  serve [CreateLease summerLease; UpdateRoom 1%nat markVacant] Example.seedDb.

(** Room 1 carries the open-ended lease of the running example and has
    been marked vacant again. *)
Definition openEndedDb : Db :=
  serve [CreateLease Example.leaseBody; UpdateRoom 1%nat markVacant]
    Example.seedDb.

(** A lease from 1 March 2024 with no end date. *)
Definition fromMarch : LeaseReq.t :=
  {| LeaseReq.tenant := Some 2%nat; LeaseReq.room := Some 1%nat;
     LeaseReq.startDate := Some (newDate 2024 2 1);
     LeaseReq.endDate := None;
     LeaseReq.rentPerMonth := Some 5000%Q;
     LeaseReq.depositAgreed := Some 10000%Q;
     LeaseReq.billingDay := None |}.

(** A lease for February 2024. *)
Definition february : LeaseReq.t :=
  {| LeaseReq.tenant := Some 2%nat; LeaseReq.room := Some 1%nat;
     LeaseReq.startDate := Some (newDate 2024 1 1);
     LeaseReq.endDate := Some (newDate 2024 2 1);
     LeaseReq.rentPerMonth := Some 5000%Q;
     LeaseReq.depositAgreed := Some 10000%Q;
     LeaseReq.billingDay := None |}.

(** A lease from mid June to August 2024. *)
Definition midJune : LeaseReq.t :=
  {| LeaseReq.tenant := Some 2%nat; LeaseReq.room := Some 1%nat;
     LeaseReq.startDate := Some (newDate 2024 5 15);
     LeaseReq.endDate := Some (newDate 2024 7 1);
     LeaseReq.rentPerMonth := Some 5000%Q;
     LeaseReq.depositAgreed := Some 10000%Q;
     LeaseReq.billingDay := None |}.

End LeaseExample.

Section LeaseOverlap.
Local Open Scope Z_scope.

(** Overlap of [a1, b1) and [a2, b2) with a missing end taken as
    unbounded. *)
Definition intervalsOverlap (a1 : Date) (b1 : option Date)
    (a2 : Date) (b2 : option Date) : Prop :=
  match b2 with Some b2 => a1 <= b2 | None => True end
  /\ match b1 with Some b1 => a2 <= b1 | None => True end.

(** The specification's statement: a lease on the room, upcoming or
    active, that overlaps the requested interval makes the request fail
    with a Conflict and leaves the database as it was. *)
Definition overlap_is_conflict (body : LeaseReq.t) (db : Db) : Prop :=
  forall room startDate lease,
    LeaseReq.room body = Some room ->
    LeaseReq.startDate body = Some startDate ->
    In lease (leases db) ->
    Lease.room lease = room ->
    LeaseRoutes.upcomingOrActive lease = true ->
    intervalsOverlap (Lease.startDate lease) (Lease.endDate lease)
      startDate (LeaseReq.endDate body) ->
    exists e,
      LeaseRoutes.createLease body db = (inl e, db) /\ kind e = Conflict.

(** C8, as stated, fails: with an active lease for June on a room that is
    not marked occupied, a request for the same room from 1 March with no
    end date is accepted.  For a request without end date the route looks
    only for leases that start on or before the requested start. *)
Lemma createLease_open_ended_request_accepted :
  ~ overlap_is_conflict LeaseExample.fromMarch LeaseExample.summerDb.
Proof.
  intro H. edestruct H as (e & He & _).
  - reflexivity.
  - reflexivity.
  - vm_compute. left. reflexivity.
  - reflexivity.
  - reflexivity.
  - vm_compute. split; [exact I|discriminate].
  - vm_compute in He. discriminate He.
Qed.

(** The same happens, for a request with an end date, when the stored
    lease has none: the comparisons of the query on [endDate] match no
    document that lacks the field. *)
Lemma createLease_open_ended_lease_not_seen :
  ~ overlap_is_conflict LeaseExample.february LeaseExample.openEndedDb.
Proof.
  intro H. edestruct H as (e & He & _).
  - reflexivity.
  - reflexivity.
  - vm_compute. left. reflexivity.
  - reflexivity.
  - reflexivity.
  - vm_compute. split; [discriminate|exact I].
  - vm_compute in He. discriminate He.
Qed.

Lemma leaseQuery_matches room startDate endDate lease :
  Lease.room lease = room ->
  LeaseRoutes.upcomingOrActive lease = true ->
  match endDate with
  | Some endDate =>
      exists leaseEnd,
        Lease.endDate lease = Some leaseEnd
        /\ Lease.startDate lease <= endDate
        /\ startDate <= leaseEnd
  | None => Lease.startDate lease <= startDate
  end ->
  LeaseRoutes.leaseQuery room startDate endDate lease = true.
Proof.
  intros Hroom Hst H. unfold LeaseRoutes.leaseQuery.
  rewrite Hroom, Nat.eqb_refl, Hst. cbn.
  destruct endDate as [endDate|].
  - destruct H as (leaseEnd & -> & H1 & H2). cbn.
    destruct (Z.leb_spec (Lease.startDate lease) startDate);
    destruct (Z.leb_spec startDate leaseEnd);
    destruct (Z.leb_spec (Lease.startDate lease) endDate);
    destruct (Z.leb_spec endDate leaseEnd);
    destruct (Z.leb_spec startDate (Lease.startDate lease));
    destruct (Z.leb_spec leaseEnd endDate); cbn; try reflexivity; lia.
  - cbn. now apply Z.leb_le.
Qed.

End LeaseOverlap.

Section LeaseConflict.
Local Open Scope Q_scope.

(** C8, amended: for a request that passes validation (tenant and room
    given and stored, start date given, rent and deposit positive),
    createLease fails with a Conflict and leaves the database as it was
    when a lease on the room with status upcoming or active, for a request
    with an end date, has an end date itself and overlaps the requested
    interval (a1 <= b2 and a2 <= b1, boundaries included), or, for a
    request without end date, starts on or before the requested start. *)
Theorem createLease_overlap_conflict
    (body : LeaseReq.t) (db : Db) (tenant room : ObjectId) (startDate : Date)
    (rentPerMonth depositAgreed : Q) (tenantDoc : Tenant.t) (roomDoc : Room.t)
    (lease : Lease.t) :
  LeaseReq.tenant body = Some tenant ->
  LeaseReq.room body = Some room ->
  LeaseReq.startDate body = Some startDate ->
  LeaseReq.rentPerMonth body = Some rentPerMonth ->
  0 < rentPerMonth ->
  LeaseReq.depositAgreed body = Some depositAgreed ->
  0 < depositAgreed ->
  findDoc Tenant._id tenant (tenants db) = Some tenantDoc ->
  findDoc Room._id room (rooms db) = Some roomDoc ->
  In lease (leases db) ->
  Lease.room lease = room ->
  LeaseRoutes.upcomingOrActive lease = true ->
  match LeaseReq.endDate body with
  | Some endDate =>
      exists leaseEnd,
        Lease.endDate lease = Some leaseEnd
        /\ (Lease.startDate lease <= endDate)%Z
        /\ (startDate <= leaseEnd)%Z
  | None => (Lease.startDate lease <= startDate)%Z
  end ->
  exists e,
    LeaseRoutes.createLease body db = (inl e, db) /\ kind e = Conflict.
Proof.
  intros Ht Hr Hs Hrent Hrentpos Hdep Hdeppos Htenant Hroom Hin Hlr Hst Hov.
  unfold LeaseRoutes.createLease. rewrite Ht, Hr, Hs, Hrent, Hdep.
  unfold_handler. rewrite (positive_passes Hrentpos).
  assert (Hd : falsyQ depositAgreed || Qlt_bool depositAgreed 0 = false).
  { apply orb_false_iff. split.
    - unfold falsyQ. destruct (Qeq_bool depositAgreed 0) eqn:E; [|reflexivity].
      apply Qeq_bool_iff in E. lra.
    - apply Qlt_bool_false_iff. lra. }
  rewrite Hd, Htenant, Hroom.
  destruct (RoomStatus_eqb (Room.status roomDoc) occupied).
  - exists RoomAlreadyOccupied. split; reflexivity.
  - destruct (find (LeaseRoutes.leaseQuery room startDate
                      (LeaseReq.endDate body)) (leases db)) eqn:Efind.
    + exists RoomHasLeaseDuringPeriod. split; reflexivity.
    + exfalso. pose proof (find_none _ _ Efind lease Hin) as Hno.
      rewrite (@leaseQuery_matches room startDate (LeaseReq.endDate body)
                 lease Hlr Hst Hov) in Hno.
      discriminate.
Qed.

Lemma createLease_overlap_conflict_witness :
  exists e,
    LeaseRoutes.createLease LeaseExample.midJune LeaseExample.summerDb
      = (inl e, LeaseExample.summerDb)
    /\ kind e = Conflict.
Proof.
  eapply (@createLease_overlap_conflict LeaseExample.midJune
            LeaseExample.summerDb 2%nat 1%nat).
  - reflexivity.
  - reflexivity.
  - reflexivity.
  - reflexivity.
  - reflexivity.
  - reflexivity.
  - reflexivity.
  - vm_compute. reflexivity.
  - vm_compute. reflexivity.
  - vm_compute. left. reflexivity.
  - reflexivity.
  - reflexivity.
  - cbn. eexists. split; [reflexivity|]. vm_compute. split; discriminate.
Defined.

End LeaseConflict.

(** ** What each request does to the invoices and to the light bills *)


Section StoredDocuments.
Variable A : Type.
Variable idOf : A -> ObjectId.
Variable P : A -> Prop.

Lemma Forall_saveDoc (y : A) (l : list A) :
  Forall P l -> P y -> Forall P (saveDoc idOf y l).
Proof.
  intros Hl Hy. induction Hl as [|x l Hx Hl IH]; cbn; [constructor|].
  destruct (Nat.eqb (idOf x) (idOf y)); constructor; assumption.
Qed.

Lemma Forall_deleteDoc (id : ObjectId) (l : list A) :
  Forall P l -> Forall P (deleteDoc idOf id l).
Proof.
  intros Hl. induction Hl as [|x l Hx Hl IH]; cbn; [constructor|].
  destruct (Nat.eqb (idOf x) id); [assumption|constructor; assumption].
Qed.
End StoredDocuments.

Lemma findDoc_In (A : Type) (idOf : A -> ObjectId) (id : ObjectId)
    (x : A) (l : list A) :
  findDoc idOf id l = Some x -> In x l.
Proof. intro H. apply find_some in H. exact (proj1 H). Qed.

Section Effects.
Local Open Scope Q_scope.

(** Saving steps of stored invoices keeps what holds of every invoice. *)
Lemma saveEach_effect (step : Invoice.t -> option Invoice.t)
    (P : Invoice.t -> Prop) (found : list Invoice.t) :
  (forall x y, P x -> step x = Some y -> P y) ->
  Forall P found ->
  forall n db,
    let r := saveEach step found n db in
    lightBills (snd r) = lightBills db
    /\ (Forall P (invoices db) -> Forall P (invoices (snd r))).
Proof.
  intros Hstep Hfound. induction Hfound as [|x found Hx _ IH]; intros n db r.
  - subst r. cbn. auto.
  - subst r. cbn [saveEach]. destruct (step x) as [y|] eqn:Ey; [|apply IH].
    unfold Invoice_save. unfold_handler.
    match goal with
    | |- context [saveEach step found ?m ?d] => destruct (IH m d) as [L F]
    end.
    split; [exact L|]. intro Hall. apply F. cbn.
    apply Forall_saveDoc; [exact Hall|]. exact (Hstep x y Hx Ey).
Qed.

Lemma payInvoice_effect now id body db :
  let db' := exec (InvoiceRoutes.payInvoice now id body) db in
  lightBills db' = lightBills db
  /\ (invoices db' = invoices db
      \/ exists invoice amount st,
           In invoice (invoices db)
           /\ 0 < amount
           /\ Invoice.paidAmount invoice + amount <= Invoice.totalAmount invoice
           /\ invoices db'
              = saveDoc Invoice._id
                  (Invoice.set_status
                     (Invoice.set_paidAmount invoice
                        (orZero (Invoice.paidAmount invoice) + amount)) st)
                  (invoices db)).
Proof.
  unfold exec, InvoiceRoutes.payInvoice.
  destruct (PayReq.amount body) as [amount|]; [|cbn; auto].
  unfold_handler.
  destruct (falsyQ amount || Qle_bool amount 0) eqn:Epos; [cbn; auto|].
  unfold Invoice_findById. unfold_handler.
  destruct (findDoc Invoice._id id (invoices db)) as [invoice|] eqn:Efind;
    [|cbn; auto].
  destruct (Qlt_bool (Invoice.totalAmount invoice)
              (orZero (Invoice.paidAmount invoice) + amount)) eqn:Efit;
    [cbn; auto|].
  unfold freshId, Invoice_save. unfold_handler. cbn.
  split; [reflexivity|]. right.
  assert (Ha : 0 < amount).
  { apply Qnot_le_lt. intro Hle. apply notPositive_iff in Hle. congruence. }
  apply Qlt_bool_false_iff in Efit. rewrite orZero_eq in Efit.
  apply findDoc_In in Efind.
  destruct (Qle_bool (Invoice.totalAmount invoice)
              (orZero (Invoice.paidAmount invoice) + amount));
    [|destruct (Qlt_bool 0 (orZero (Invoice.paidAmount invoice) + amount))].
  - exists invoice, amount, paid. split; [|split; [|split]]; auto.
  - exists invoice, amount, partially_paid. split; [|split; [|split]]; auto.
  - exists invoice, amount, (Invoice.status invoice).
    split; [|split; [|split]]; auto.
Qed.

Lemma payLightBill_effect id body db :
  let db' := exec (LightBillRoutes.payLightBill id body) db in
  invoices db' = invoices db
  /\ (lightBills db' = lightBills db
      \/ exists bill amount,
           In bill (lightBills db)
           /\ 0 < amount
           /\ LightBill.paidAmount bill + amount <= LightBill.totalAmount bill
           /\ lightBills db'
              = saveDoc LightBill._id
                  (LightBillRoutes.set_payment bill
                     (LightBill.paidAmount bill + amount)
                     (if Qle_bool (LightBill.totalAmount bill)
                           (LightBill.paidAmount bill + amount)
                      then paid
                      else if Qlt_bool 0 (LightBill.paidAmount bill + amount)
                      then partially_paid
                      else LightBill.status bill))
                  (lightBills db)).
Proof.
  unfold exec, LightBillRoutes.payLightBill.
  destruct (PayReq.amount body) as [amount|]; [|cbn; auto].
  unfold_handler.
  destruct (falsyQ amount || Qle_bool amount 0) eqn:Epos; [cbn; auto|].
  destruct (negb (LightBillRoutes.isSome (PayReq.date body))); [cbn; auto|].
  destruct (findDoc LightBill._id id (lightBills db)) as [bill|] eqn:Efind;
    [|cbn; auto].
  destruct (Qlt_bool (LightBill.totalAmount bill)
              (LightBill.paidAmount bill + amount)) eqn:Efit; [cbn; auto|].
  unfold LightBillRoutes.LightBill_save. unfold_handler. cbn.
  split; [reflexivity|]. right. exists bill, amount.
  apply Qlt_bool_false_iff in Efit. apply findDoc_In in Efind.
  split; [exact Efind|]. split; [|split; [exact Efit|reflexivity]].
  apply Qnot_le_lt. intro Hle. apply notPositive_iff in Hle. congruence.
Qed.

Lemma updateLightBill_effect id body db :
  let db' := exec (LightBillRoutes.updateLightBill id body) db in
  invoices db' = invoices db
  /\ (lightBills db' = lightBills db
      \/ exists bill bill',
           In bill (lightBills db)
           /\ LightBill.paidAmount bill' = LightBill.paidAmount bill
           /\ LightBill.status bill' = LightBill.status bill
           /\ lightBills db' = saveDoc LightBill._id bill' (lightBills db)).
Proof.
  unfold exec, LightBillRoutes.updateLightBill. unfold_handler.
  destruct (findDoc LightBill._id id (lightBills db)) as [bill|] eqn:Efind;
    [|cbn; auto].
  apply findDoc_In in Efind.
  unfold LightBillRoutes.LightBill_save. unfold_handler.
  repeat match goal with
         | |- context [if ?c then _ else _] => destruct c
         end;
    cbn; (split; [reflexivity|]);
    first [left; reflexivity
          |right; do 2 eexists; split; [exact Efind|];
           split; [|split; [|reflexivity]]; reflexivity].
Qed.

Lemma deleteLightBill_effect id db :
  let db' := exec (LightBillRoutes.deleteLightBill id) db in
  invoices db' = invoices db
  /\ (lightBills db' = lightBills db
      \/ lightBills db' = deleteDoc LightBill._id id (lightBills db)).
Proof.
  unfold exec, LightBillRoutes.deleteLightBill. unfold_handler.
  destruct (findDoc LightBill._id id (lightBills db)); cbn; auto.
Qed.

Lemma resolveFromRoom_reads room tenant lease db :
  snd (LightBillRoutes.resolveFromRoom room tenant lease db) = db.
Proof.
  unfold LightBillRoutes.resolveFromRoom.
  destruct room as [r|]; [|reflexivity].
  destruct (negb (LightBillRoutes.isSome tenant)
            || negb (LightBillRoutes.isSome lease)); [|reflexivity].
  unfold_handler. destruct (find _ (leases db)) as [al|]; [|reflexivity].
  destruct tenant as [t|]; [reflexivity|].
  destruct (findDoc Tenant._id (Lease.tenant al) (tenants db)); reflexivity.
Qed.

Lemma createLightBill_effect body db :
  let db' := exec (LightBillRoutes.createLightBill body) db in
  invoices db' = invoices db
  /\ (lightBills db' = lightBills db
      \/ exists bill,
           lightBills db' = lightBills db ++ [bill]
           /\ LightBill.status bill = unpaid
           /\ LightBill.paidAmount bill = 0
           /\ 0 < LightBill.unitsConsumed bill
           /\ 0 < LightBill.ratePerUnit bill
           /\ LightBill.fixedCharge bill
              = LightBillRoutes.getOr (LightBillReq.fixedCharge body) 0
           /\ LightBill.tax bill
              = LightBillRoutes.getOr (LightBillReq.tax body) 0
           /\ LightBill.totalAmount bill
              = LightBill.unitsConsumed bill * LightBill.ratePerUnit bill
                + LightBill.fixedCharge bill + LightBill.tax bill).
Proof.
  intro db'. subst db'. unfold exec.
  match goal with
  | |- context [snd ?x] => pattern (snd x)
  end.
  match goal with |- ?P _ => set (Q := P) end.
  assert (Hsame : forall e, Q (snd (@inl failure LightBill.t e, db))).
  { intro e. subst Q. cbn. auto. }
  unfold LightBillRoutes.createLightBill. unfold bind at 1.
  rewrite (surjective_pairing (LightBillRoutes.resolveFromRoom _ _ _ db)).
  rewrite resolveFromRoom_reads.
  destruct (fst (LightBillRoutes.resolveFromRoom _ _ _ db))
    as [e|[tenant lease]]; [apply Hsame|].
  cbn [fst snd]. unfold_handler.
  destruct (LightBillReq.room body) as [room|];
    [|destruct tenant; apply Hsame].
  destruct tenant as [tenant|]; [|apply Hsame].
  destruct lease as [lease|]; [|apply Hsame].
  destruct (LightBillRoutes.orElse (LightBillReq.periodFrom body) _)
    as [periodFrom|]; [|apply Hsame].
  destruct (LightBillRoutes.orElse (LightBillReq.periodTo body) _)
    as [periodTo|]; [|apply Hsame].
  destruct (Z.leb periodTo periodFrom); [apply Hsame|].
  destruct (LightBillReq.unitsConsumed body) as [units|]; [|apply Hsame].
  destruct (falsyQ units || Qle_bool units 0) eqn:Eu; [apply Hsame|].
  destruct (LightBillReq.ratePerUnit body) as [rate|]; [|apply Hsame].
  destruct (falsyQ rate || Qle_bool rate 0) eqn:Er; [apply Hsame|].
  destruct (LightBillRoutes.orElse (LightBillReq.issueDate body) _)
    as [issueDate|]; [|apply Hsame].
  destruct (LightBillRoutes.orElse (LightBillReq.dueDate body) _)
    as [dueDate|]; [|apply Hsame].
  destruct (findDoc Room._id room (rooms db)); [|apply Hsame].
  destruct (findDoc Tenant._id tenant (tenants db)); [|apply Hsame].
  destruct (findDoc Lease._id lease (leases db)); [|apply Hsame].
  destruct (LightBillRoutes.isSome _); [apply Hsame|].
  unfold freshId. unfold_handler. subst Q. cbn.
  split; [reflexivity|]. right.
  eexists. split; [reflexivity|]. cbn.
  split; [reflexivity|]. split; [reflexivity|].
  split; [|split; [|split; [reflexivity|split; reflexivity]]].
  - apply Qnot_le_lt. intro Hle. apply notPositive_iff in Hle. congruence.
  - apply Qnot_le_lt. intro Hle. apply notPositive_iff in Hle. congruence.
Qed.

End Effects.
Section RequestEffects.
Local Open Scope Q_scope.

Ltac frame_handler :=
  unfold exec; unfold_handler; cbn;
  repeat (match goal with
          | |- context [match ?x with _ => _ end] =>
              match type of x with
              | bool => destruct x
              | option _ => destruct x
              end
          end; cbn);
  auto.

Lemma createLease_frame body db :
  invoices (exec (LeaseRoutes.createLease body) db) = invoices db
  /\ lightBills (exec (LeaseRoutes.createLease body) db) = lightBills db.
Proof. unfold LeaseRoutes.createLease, freshId. frame_handler. Qed.

Lemma endLease_frame now id body db :
  invoices (exec (LeaseRoutes.endLease now id body) db) = invoices db
  /\ lightBills (exec (LeaseRoutes.endLease now id body) db) = lightBills db.
Proof. unfold LeaseRoutes.endLease. frame_handler. Qed.

Lemma updateRoom_frame id body db :
  invoices (exec (RoomRoutes.updateRoom id body) db) = invoices db
  /\ lightBills (exec (RoomRoutes.updateRoom id body) db) = lightBills db.
Proof. unfold RoomRoutes.updateRoom. frame_handler. Qed.

(** The three generators add fresh invoices of stored leases and touch
    nothing else. *)
Definition generated (db db' : Db) : Prop :=
  lightBills db' = lightBills db
  /\ exists extra,
       invoices db' = invoices db ++ extra
       /\ Forall (fun i => exists lease,
                    In lease (leases db) /\ freshInvoiceOf lease i) extra.

Lemma generated_of_effect dueOf today periodFrom periodTo created db :
  generated db
    (snd (generateWith dueOf today periodFrom periodTo (activeLeases db)
            created db)).
Proof.
  destruct (generateWith_effect dueOf today periodFrom periodTo
              (activeLeases db) created db)
    as (extra & [_ _ _ _ Hl _ Hex] & Hall & _).
  split; [exact Hl|]. exists extra. split; [exact Hex|].
  eapply Forall_impl; [|exact Hall].
  intros i (e & He & Hfresh & _). exists (fst (fst e)).
  split; [exact (proj1 (activeLeases_In _ _ He))|exact Hfresh].
Qed.

Lemma generateMonthly_generated today db :
  generated db (exec (InvoiceRoutes.generateMonthly today) db).
Proof.
  unfold exec. rewrite generateMonthly_generateWith.
  apply generated_of_effect.
Qed.

Lemma scheduledTask_generated today db :
  generated db (exec (InvoiceCronService.scheduledTask today) db).
Proof.
  unfold exec. rewrite scheduledTask_generateWith.
  apply generated_of_effect.
Qed.

Lemma variant_generateMonthly_generated today db :
  generated db (exec (InvoiceRoutesVariant.generateMonthly today) db).
Proof. exact (scheduledTask_generated today db). Qed.

Lemma Forall_filter (A : Type) (P : A -> Prop) (p : A -> bool) (l : list A) :
  Forall P l -> Forall P (filter p l).
Proof.
  intro H. apply Forall_forall. intros x Hx. apply filter_In in Hx.
  rewrite Forall_forall in H. apply H. tauto.
Qed.

Lemma recalculateLateFees_effect (P : Invoice.t -> Prop) today db :
  (forall cfg x y, P x -> feeStep cfg today x = Some y -> P y) ->
  let db' := exec (InvoiceRoutes.recalculateLateFees today) db in
  lightBills db' = lightBills db
  /\ (Forall P (invoices db) -> Forall P (invoices db')).
Proof.
  intros Hstep db'. subst db'.
  unfold exec, InvoiceRoutes.recalculateLateFees. unfold_handler.
  destruct (settings db) as [s|]; [|cbn; auto].
  rewrite recalculateLoop_saveEach. split.
  - apply (@saveEach_effect (feeStep (Settings.lateFeeConfig s) today)
             (fun _ => True) (filter InvoiceRoutes.isOpen (invoices db)));
      [auto|apply Forall_forall; auto].
  - intro Hall.
    apply (@saveEach_effect (feeStep (Settings.lateFeeConfig s) today) P
             (filter InvoiceRoutes.isOpen (invoices db))
             (Hstep (Settings.lateFeeConfig s))
             (Forall_filter _ Hall) 0%nat db).
    exact Hall.
Qed.

Lemma variant_recalculateLateFees_effect (P : Invoice.t -> Prop) today db :
  (forall cfg x y, P x -> variantStep cfg today x = Some y -> P y) ->
  let db' := exec (InvoiceRoutesVariant.recalculateLateFees today) db in
  lightBills db' = lightBills db
  /\ (Forall P (invoices db) -> Forall P (invoices db')).
Proof.
  intros Hstep db'. subst db'.
  unfold exec, InvoiceRoutesVariant.recalculateLateFees. unfold_handler.
  destruct (settings db) as [s|]; [|cbn; auto].
  rewrite variant_recalculateLoop_saveEach. split.
  - apply (@saveEach_effect (variantStep (Settings.lateFeeConfig s) today)
             (fun _ => True) (filter InvoiceRoutes.isOpen (invoices db)));
      [auto|apply Forall_forall; auto].
  - intro Hall.
    apply (@saveEach_effect (variantStep (Settings.lateFeeConfig s) today) P
             (filter InvoiceRoutes.isOpen (invoices db))
             (Hstep (Settings.lateFeeConfig s))
             (Forall_filter _ Hall) 0%nat db).
    exact Hall.
Qed.

End RequestEffects.

(** ** Totals and late fees *)

Section TotalsConsistent.
Local Open Scope Q_scope.

(** The total of an invoice is its base amount plus its late fee. *)
Definition totalConsistent (i : Invoice.t) : Prop :=
  Invoice.totalAmount i == Invoice.baseAmount i + Invoice.lateFee i.

(** Every request keeps the totals consistent: the generators create
    invoices with total and base amount at the rent and no late fee, the
    pay route leaves the three amounts alone, and the recalculations set
    the fee and the total together. *)
Lemma handle_keeps_totalConsistent (r : Request) (db : Db) :
  Forall totalConsistent (invoices db) ->
  Forall totalConsistent (invoices (handle r db)).
Proof.
  intro Hi.
  assert (Hgen : forall db',
            generated db db' -> Forall totalConsistent (invoices db')).
  { intros db' (_ & extra & -> & Hall). apply Forall_app. split; [exact Hi|].
    eapply Forall_impl; [|exact Hall].
    intros i (lease & _ & _ & Hbase & Htotal & Hfee & _).
    unfold totalConsistent. rewrite Hbase, Htotal, Hfee. ring. }
  destruct r as [today|today|now id body|today|body|now id body|id body|body
                |body|id body|id body|id|today|today]; cbn [handle].
  - apply Hgen, generateMonthly_generated.
  - apply Hgen, scheduledTask_generated.
  - destruct (payInvoice_effect now id body db)
      as (_ & [-> | (invoice & amount & st & Hin & _ & _ & ->)]);
      [exact Hi|].
    apply Forall_saveDoc; [exact Hi|].
    rewrite Forall_forall in Hi. exact (Hi invoice Hin).
  - destruct (@recalculateLateFees_effect totalConsistent today db)
      as (_ & F); [|exact (F Hi)].
    intros cfg x y _. unfold feeStep. destruct (negb _); intros [= <-].
    unfold totalConsistent. cbn. reflexivity.
  - now destruct (createLease_frame body db) as (-> & _).
  - now destruct (endLease_frame now id body db) as (-> & _).
  - now destruct (updateRoom_frame id body db) as (-> & _).
  - exact Hi.
  - now destruct (createLightBill_effect body db) as (-> & _).
  - now destruct (payLightBill_effect id body db) as (-> & _).
  - now destruct (updateLightBill_effect id body db) as (-> & _).
  - now destruct (deleteLightBill_effect id db) as (-> & _).
  - apply Hgen, variant_generateMonthly_generated.
  - destruct (@variant_recalculateLateFees_effect totalConsistent today db)
      as (_ & F); [|exact (F Hi)].
    intros cfg x y _. unfold variantStep, rederived. intros [= <-].
    unfold totalConsistent. cbn.
    destruct (Qle_bool _ _); [reflexivity|].
    destruct (Z.ltb _ _); reflexivity.
Qed.

Lemma serve_keeps_totalConsistent (rs : list Request) :
  forall db,
    Forall totalConsistent (invoices db) ->
    Forall totalConsistent (invoices (serve rs db)).
Proof.
  induction rs as [|r rs IH]; intros db H; [exact H|].
  cbn. apply IH. now apply handle_keeps_totalConsistent.
Qed.

End TotalsConsistent.

(** ** Invoice [_id]s

    In the databases the requests lead to, no two invoices share an [_id]:
    a created document gets the next unused one and a saved document keeps
    its own. *)

Section InvoiceIds.

Definition invoiceIds (db : Db) : list ObjectId :=
  map Invoice._id (invoices db).

Definition idsInOrder (db : Db) : Prop :=
  NoDup (invoiceIds db)
  /\ Forall (fun id => (id < nextId db)%nat) (invoiceIds db).

(** The request left the invoice [_id]s alone and took no [_id] back. *)
Definition idsKept (db db' : Db) : Prop :=
  invoiceIds db' = invoiceIds db /\ (nextId db <= nextId db')%nat.

Lemma idsKept_inOrder db db' : idsKept db db' -> idsInOrder db -> idsInOrder db'.
Proof.
  intros [Hids Hnext] [Hnd Hlt]. unfold idsInOrder. rewrite Hids.
  split; [exact Hnd|]. eapply Forall_impl; [|exact Hlt].
  intros id H. cbv beta in *. unfold ObjectId in *. lia.
Qed.

Lemma map_id_saveDoc (y : Invoice.t) (l : list Invoice.t) :
  map Invoice._id (saveDoc Invoice._id y l) = map Invoice._id l.
Proof.
  induction l as [|x l IH]; [reflexivity|]. cbn.
  destruct (Nat.eqb_spec (Invoice._id x) (Invoice._id y)) as [E|E]; cbn.
  - now rewrite E.
  - now rewrite IH.
Qed.

Lemma saveEach_idsKept (step : Invoice.t -> option Invoice.t)
    (found : list Invoice.t) :
  forall n db, idsKept db (snd (saveEach step found n db)).
Proof.
  induction found as [|x found IH]; intros n db; cbn [saveEach].
  - cbn. split; [reflexivity|lia].
  - destruct (step x) as [y|]; [|apply IH].
    unfold Invoice_save. unfold_handler.
    match goal with
    | |- context [saveEach step found ?m ?d] => destruct (IH m d) as [H1 H2]
    end.
    split; [|exact H2]. rewrite H1. unfold invoiceIds. cbn.
    apply map_id_saveDoc.
Qed.

Lemma generateWith_idsInOrder dueOf today periodFrom periodTo ls :
  forall created db,
    idsInOrder db ->
    idsInOrder (snd (generateWith dueOf today periodFrom periodTo ls
                       created db)).
Proof.
  induction ls as [|[[lease tenant] room] rest IH]; intros created db Hin.
  - exact Hin.
  - cbn [generateWith]. unfold Invoice_findOne. unfold_handler.
    destruct (find _ (invoices db)); [now apply IH|].
    destruct tenant as [tenantDoc|]; cbn; [|exact Hin].
    destruct room as [roomDoc|]; cbn; [|exact Hin].
    unfold Invoice_create, freshId. unfold_handler. cbn.
    apply IH. destruct Hin as [Hnd Hlt]. unfold idsInOrder, invoiceIds in *.
    cbn. rewrite map_app. cbn. split.
    + apply NoDup_app; [exact Hnd|repeat constructor; intros []|].
      intros id Hid [<- | []]. rewrite Forall_forall in Hlt.
      specialize (Hlt _ Hid). cbv beta in *. unfold ObjectId in *. lia.
    + apply Forall_app. split.
      * eapply Forall_impl; [|exact Hlt].
        intros id H. cbv beta in *. unfold ObjectId in *. lia.
      * repeat constructor.
Qed.

Ltac ids_handler :=
  unfold idsKept, invoiceIds, exec; unfold_handler; cbn;
  repeat (match goal with
          | |- context [match ?x with _ => _ end] =>
              match type of x with
              | bool => destruct x
              | option _ => destruct x
              end
          end; cbn);
  rewrite ?map_id_saveDoc; auto.

Lemma payInvoice_idsKept now id body db :
  idsKept db (exec (InvoiceRoutes.payInvoice now id body) db).
Proof.
  unfold InvoiceRoutes.payInvoice, Invoice_findById, Invoice_save, freshId.
  ids_handler.
Qed.

Lemma createLease_idsKept body db :
  idsKept db (exec (LeaseRoutes.createLease body) db).
Proof. unfold LeaseRoutes.createLease, freshId. ids_handler. Qed.

Lemma endLease_idsKept now id body db :
  idsKept db (exec (LeaseRoutes.endLease now id body) db).
Proof. unfold LeaseRoutes.endLease. ids_handler. Qed.

Lemma updateRoom_idsKept id body db :
  idsKept db (exec (RoomRoutes.updateRoom id body) db).
Proof. unfold RoomRoutes.updateRoom. ids_handler. Qed.

Lemma payLightBill_idsKept id body db :
  idsKept db (exec (LightBillRoutes.payLightBill id body) db).
Proof.
  unfold LightBillRoutes.payLightBill, LightBillRoutes.LightBill_save.
  ids_handler.
Qed.

Lemma updateLightBill_idsKept id body db :
  idsKept db (exec (LightBillRoutes.updateLightBill id body) db).
Proof.
  unfold LightBillRoutes.updateLightBill, LightBillRoutes.LightBill_save.
  ids_handler.
Qed.

Lemma deleteLightBill_idsKept id db :
  idsKept db (exec (LightBillRoutes.deleteLightBill id) db).
Proof. unfold LightBillRoutes.deleteLightBill. ids_handler. Qed.

Lemma createLightBill_idsKept body db :
  idsKept db (exec (LightBillRoutes.createLightBill body) db).
Proof.
  unfold exec, LightBillRoutes.createLightBill. unfold bind at 1.
  rewrite (surjective_pairing (LightBillRoutes.resolveFromRoom _ _ _ db)).
  rewrite resolveFromRoom_reads.
  destruct (fst (LightBillRoutes.resolveFromRoom _ _ _ db))
    as [e|[tenant lease]]; [split; [reflexivity|cbn; lia]|].
  cbn [fst snd]. unfold freshId. ids_handler.
Qed.

Lemma recalculateLateFees_idsKept today db :
  idsKept db (exec (InvoiceRoutes.recalculateLateFees today) db).
Proof.
  unfold exec, InvoiceRoutes.recalculateLateFees. unfold_handler.
  destruct (settings db) as [s|]; [|split; [reflexivity|cbn; lia]].
  rewrite recalculateLoop_saveEach. apply saveEach_idsKept.
Qed.

Lemma variant_recalculateLateFees_idsKept today db :
  idsKept db (exec (InvoiceRoutesVariant.recalculateLateFees today) db).
Proof.
  unfold exec, InvoiceRoutesVariant.recalculateLateFees. unfold_handler.
  destruct (settings db) as [s|]; [|split; [reflexivity|cbn; lia]].
  rewrite variant_recalculateLoop_saveEach. apply saveEach_idsKept.
Qed.

Lemma handle_keeps_idsInOrder (r : Request) (db : Db) :
  idsInOrder db -> idsInOrder (handle r db).
Proof.
  intro H.
  destruct r as [today|today|now id body|today|body|now id body|id body|body
                |body|id body|id body|id|today|today]; cbn [handle].
  - unfold exec. rewrite generateMonthly_generateWith.
    now apply generateWith_idsInOrder.
  - unfold exec. rewrite scheduledTask_generateWith.
    now apply generateWith_idsInOrder.
  - exact (idsKept_inOrder (payInvoice_idsKept now id body db) H).
  - exact (idsKept_inOrder (recalculateLateFees_idsKept today db) H).
  - exact (idsKept_inOrder (createLease_idsKept body db) H).
  - exact (idsKept_inOrder (endLease_idsKept now id body db) H).
  - exact (idsKept_inOrder (updateRoom_idsKept id body db) H).
  - exact H.
  - exact (idsKept_inOrder (createLightBill_idsKept body db) H).
  - exact (idsKept_inOrder (payLightBill_idsKept id body db) H).
  - exact (idsKept_inOrder (updateLightBill_idsKept id body db) H).
  - exact (idsKept_inOrder (deleteLightBill_idsKept id db) H).
  - rewrite variant_generateMonthly_scheduledTask.
    unfold exec. rewrite scheduledTask_generateWith.
    now apply generateWith_idsInOrder.
  - exact (idsKept_inOrder (variant_recalculateLateFees_idsKept today db) H).
Qed.

Lemma map_key_saveDoc (id : ObjectId) (x y : Invoice.t)
    (l : list Invoice.t) :
  findDoc Invoice._id id l = Some x ->
  Invoice._id y = Invoice._id x ->
  invoiceKey y = invoiceKey x ->
  map invoiceKey (saveDoc Invoice._id y l) = map invoiceKey l.
Proof.
  unfold findDoc. intros Hfind Hid Hkey.
  pose proof (findDoc_id _ _ _ Hfind) as Hx.
  induction l as [|z l IH]; [reflexivity|]. cbn in *.
  rewrite Hid, Hx.
  destruct (Nat.eqb (Invoice._id z) id) eqn:E; cbn.
  - injection Hfind as ->. now rewrite Hkey.
  - now rewrite IH.
Qed.

Lemma payInvoice_keeps_keys now id body db :
  map invoiceKey (invoices (exec (InvoiceRoutes.payInvoice now id body) db))
  = map invoiceKey (invoices db).
Proof.
  unfold exec, InvoiceRoutes.payInvoice.
  destruct (PayReq.amount body) as [amount|]; [|reflexivity].
  unfold_handler.
  destruct (falsyQ amount || Qle_bool amount 0); [reflexivity|].
  unfold Invoice_findById. unfold_handler.
  destruct (findDoc Invoice._id id (invoices db)) as [invoice|] eqn:Efind;
    [|reflexivity].
  destruct (Qlt_bool (Invoice.totalAmount invoice)
              (orZero (Invoice.paidAmount invoice) + amount));
    [reflexivity|].
  unfold freshId, Invoice_save. unfold_handler. cbn.
  apply (@map_key_saveDoc id invoice); [exact Efind| |];
    destruct (Qle_bool _ _); try reflexivity;
    destruct (Qlt_bool _ _); reflexivity.
Qed.

Lemma steppedIf_keeps_keys (step : Invoice.t -> option Invoice.t)
    (p : Invoice.t -> bool) (l : list Invoice.t) :
  (forall x y, step x = Some y -> invoiceKey y = invoiceKey x) ->
  map invoiceKey (map (steppedIf step p) l) = map invoiceKey l.
Proof.
  intro Hstep. rewrite map_map. apply map_ext. intro x.
  unfold steppedIf, stepped. destruct (p x); [|reflexivity].
  destruct (step x) as [y|] eqn:E; [now apply Hstep|reflexivity].
Qed.

Lemma feeStep_key cfg today x y :
  feeStep cfg today x = Some y -> invoiceKey y = invoiceKey x.
Proof. unfold feeStep. destruct (negb _); intros [=]. now subst. Qed.

Lemma variantStep_key cfg today x y :
  variantStep cfg today x = Some y -> invoiceKey y = invoiceKey x.
Proof.
  unfold variantStep, rederived. intros [= <-].
  destruct (Qle_bool _ _); [reflexivity|]. now destruct (Z.ltb _ _).
Qed.

Lemma handle_keeps_uniquePeriods (r : Request) (db : Db) :
  idsInOrder db ->
  uniquePeriods (invoices db) ->
  uniquePeriods (invoices (handle r db)).
Proof.
  intros [Hnd _] Hu. unfold uniquePeriods in *.
  destruct r as [today|today|now id body|today|body|now id body|id body|body
                |body|id body|id body|id|today|today]; cbn [handle].
  - unfold exec. rewrite generateMonthly_generateWith.
    now apply generateWith_outcome.
  - unfold exec. rewrite scheduledTask_generateWith.
    now apply generateWith_outcome.
  - now rewrite payInvoice_keeps_keys.
  - destruct (settings db) as [s|] eqn:Hs.
    + unfold exec. rewrite (recalculateLateFees_run today db Hs Hnd). cbn.
      unfold recalculated. rewrite steppedIf_keeps_keys; [exact Hu|].
      exact (@feeStep_key (Settings.lateFeeConfig s) today).
    + unfold exec, InvoiceRoutes.recalculateLateFees. unfold_handler.
      now rewrite Hs.
  - now destruct (createLease_frame body db) as (-> & _).
  - now destruct (endLease_frame now id body db) as (-> & _).
  - now destruct (updateRoom_frame id body db) as (-> & _).
  - exact Hu.
  - now destruct (createLightBill_effect body db) as (-> & _).
  - now destruct (payLightBill_effect id body db) as (-> & _).
  - now destruct (updateLightBill_effect id body db) as (-> & _).
  - now destruct (deleteLightBill_effect id db) as (-> & _).
  - rewrite variant_generateMonthly_scheduledTask.
    unfold exec. rewrite scheduledTask_generateWith.
    now apply generateWith_outcome.
  - destruct (settings db) as [s|] eqn:Hs.
    + unfold exec. rewrite (variant_recalculateLateFees_run today db Hs Hnd).
      cbn. rewrite steppedIf_keeps_keys; [exact Hu|].
      exact (@variantStep_key (Settings.lateFeeConfig s) today).
    + unfold exec, InvoiceRoutesVariant.recalculateLateFees. unfold_handler.
      now rewrite Hs.
Qed.

(** The databases reached from one without invoices. *)
Inductive billed : Db -> Prop :=
  | billed_start (db : Db) : invoices db = [] -> billed db
  | billed_step (db : Db) (r : Request) : billed db -> billed (handle r db).

Lemma billed_serve (rs : list Request) :
  forall db, billed db -> billed (serve rs db).
Proof.
  induction rs as [|r rs IH]; intros db H; [exact H|].
  cbn. apply IH. now apply billed_step.
Qed.

(** What holds of the invoices of every such database: distinct [_id]s,
    totals at base amount plus late fee, one invoice for a lease and a
    period. *)
Lemma billed_invoices (db : Db) :
  billed db ->
  NoDup (map Invoice._id (invoices db))
  /\ Forall totalConsistent (invoices db)
  /\ uniquePeriods (invoices db).
Proof.
  intro H.
  assert (Hall : idsInOrder db /\ Forall totalConsistent (invoices db)
                 /\ uniquePeriods (invoices db)).
  { induction H as [db Hnil|db r _ (IH1 & IH2 & IH3)].
    - unfold idsInOrder, invoiceIds, uniquePeriods. rewrite Hnil. cbn.
      repeat split; constructor.
    - split; [now apply handle_keeps_idsInOrder|].
      split; [now apply handle_keeps_totalConsistent
             |now apply handle_keeps_uniquePeriods]. }
  destruct Hall as ([Hnd _] & Hc & Hu). repeat split; assumption.
Qed.

Lemma billed_example : billed Example.billedDb.
Proof.
  exact (billed_step (ScheduledTask Example.march1)
           (billed_step (CreateLease Example.leaseBody)
              (billed_start Example.seedDb eq_refl))).
Qed.

End InvoiceIds.

(** ** Generation and recalculation in the databases the requests lead to *)

Section Billed.
Import JsDate.
Local Open Scope Q_scope.

(** C2: in a database reached from one without invoices, when a run of
    generate-monthly has gone through, a second run in the same month
    creates no invoice, reports no error and leaves the database as it is:
    every active lease already has its invoice for the period and is
    skipped.  No two invoices share a lease and a period. *)
Theorem generateMonthly_twice_creates_nothing
    (today1 today2 : Date) (db db1 : Db) (created : list Invoice.t) :
  billed db ->
  getFullYear today1 = getFullYear today2 ->
  getMonth today1 = getMonth today2 ->
  InvoiceRoutes.generateMonthly today1 db = (inr created, db1) ->
  InvoiceRoutes.generateMonthly today2 db1 = (inr [], db1)
  /\ uniquePeriods (invoices db1).
Proof.
  intros Hb Hy Hm Hrun. destruct (billed_invoices Hb) as (_ & _ & Hu).
  exact (@generateMonthly_second_run today1 today2 db db1 created Hy Hm Hu Hrun).
Qed.

Lemma generateMonthly_twice_creates_nothing_witness :
  let db1 := exec (InvoiceRoutes.generateMonthly Example.march10)
               Example.leasedDb in
  InvoiceRoutes.generateMonthly Example.march18 db1 = (inr [], db1)
  /\ uniquePeriods (invoices db1).
Proof.
  eapply (@generateMonthly_twice_creates_nothing Example.march10
            Example.march18 Example.leasedDb).
  - exact (billed_step (CreateLease Example.leaseBody)
             (billed_start Example.seedDb eq_refl)).
  - vm_compute. reflexivity.
  - vm_compute. reflexivity.
  - vm_compute. reflexivity.
Defined.

(** C4: the late fee and the total that the recalculation leaves on an
    invoice that is unpaid or partially paid, in a database reached from
    one without invoices.  With diffDays = floor((now - dueDate) / 1 day):
    past the grace days the fee is (diffDays - graceDays) * perDayAmount
    under a per_day configuration and baseAmount * percentage / 100 under
    a percentage one, otherwise it is 0; and the total is
    baseAmount + lateFee. *)
Theorem recalculateLateFees_late_fee
    (today : Date) (db : Db) (s : Settings.t) (invoice : Invoice.t) :
  billed db ->
  settings db = Some s ->
  In invoice (invoices db) ->
  Invoice.status invoice = unpaid \/ Invoice.status invoice = partially_paid ->
  let cfg := Settings.lateFeeConfig s in
  let diffDays := inject_Z ((today - Invoice.dueDate invoice) / msPerDay) in
  exists invoice',
    findDoc Invoice._id (Invoice._id invoice)
      (invoices (exec (InvoiceRoutes.recalculateLateFees today) db))
      = Some invoice'
    /\ (Settings.graceDays cfg < diffDays ->
        Settings.type cfg = per_day ->
        Invoice.lateFee invoice'
          == (diffDays - Settings.graceDays cfg) * Settings.perDayAmount cfg)
    /\ (Settings.graceDays cfg < diffDays ->
        Settings.type cfg = percentage ->
        Invoice.lateFee invoice'
          == Invoice.baseAmount invoice * Settings.percentage cfg / 100)
    /\ (~ Settings.graceDays cfg < diffDays -> Invoice.lateFee invoice' == 0)
    /\ Invoice.totalAmount invoice'
         == Invoice.baseAmount invoice' + Invoice.lateFee invoice'
    /\ Invoice.baseAmount invoice' = Invoice.baseAmount invoice.
Proof.
  intros Hb Hs Hin Hst. destruct (billed_invoices Hb) as (Hnd & Hc & _).
  rewrite Forall_forall in Hc.
  exact (@recalculateLateFees_stored_fee today db s invoice Hs Hnd Hin Hst
           (Hc invoice Hin)).
Qed.

(** The scenario: 10 days overdue, 3 grace days, 5 a day on a base amount
    of 5000. *)
Lemma recalculateLateFees_late_fee_witness :
  exists invoice',
    findDoc Invoice._id 11%nat
      (invoices (exec (InvoiceRoutes.recalculateLateFees Example.march15)
                   Example.billedDb))
      = Some invoice'
    /\ Invoice.lateFee invoice' == 35
    /\ Invoice.totalAmount invoice' == 5035.
Proof.
  destruct (@recalculateLateFees_late_fee Example.march15 Example.billedDb
              Settings.defaults Example.marchInvoice)
    as (invoice' & Hfind & Hday & _ & _ & Htot & Hbase).
  - exact billed_example.
  - reflexivity.
  - vm_compute. left. reflexivity.
  - left. reflexivity.
  - assert (Hfee : Invoice.lateFee invoice' == 35).
    { rewrite Hday; [reflexivity|vm_compute; reflexivity|reflexivity]. }
    exists invoice'. split; [exact Hfind|]. split; [exact Hfee|].
    rewrite Htot, Hbase, Hfee. reflexivity.
Defined.

(** C7: with the clock held at [today], a second run of the recalculation
    right after a first one saves no invoice, reports zero updated
    invoices and leaves the database as the first run left it. *)
Theorem recalculateLateFees_idempotent
    (today : Date) (db db1 : Db) (n : nat) :
  billed db ->
  InvoiceRoutes.recalculateLateFees today db = (inr n, db1) ->
  InvoiceRoutes.recalculateLateFees today db1 = (inr 0%nat, db1).
Proof.
  intros Hb Hrun. destruct (billed_invoices Hb) as (Hnd & _).
  exact (@recalculateLateFees_second_run today db db1 n Hnd Hrun).
Qed.

Lemma recalculateLateFees_idempotent_witness :
  let db1 := exec (InvoiceRoutes.recalculateLateFees Example.march15)
               Example.billedDb in
  InvoiceRoutes.recalculateLateFees Example.march15 db1 = (inr 0%nat, db1).
Proof.
  eapply (@recalculateLateFees_idempotent Example.march15 Example.billedDb).
  - exact billed_example.
  - vm_compute. reflexivity.
Defined.

End Billed.

(** ** Paid amounts and totals *)

Module BillExample.
Import JsDate.

(** A bill for room 1 (tenant and lease are filled in from the room's
    lease): 100 units at 8, fixed charge 50, tax 20. *)
Definition billBody : LightBillReq.t :=
  {| LightBillReq.room := Some 1%nat; LightBillReq.tenant := None;
     LightBillReq.lease := None;
     LightBillReq.periodFrom := Some (newDate 2024 2 1);
     LightBillReq.periodTo := Some (newDate 2024 3 0);
     LightBillReq.unitsConsumed := Some 100;
     LightBillReq.ratePerUnit := Some 8;
     LightBillReq.fixedCharge := Some 50;
     LightBillReq.tax := Some 20;
     LightBillReq.issueDate := Some (newDate 2024 3 1);
     LightBillReq.dueDate := Some (newDate 2024 3 10);
     LightBillReq.notes := None |}.

Definition payInFull : PayReq.t :=
  {| PayReq.amount := Some 870; PayReq.date := Some (newDate 2024 3 5);
     PayReq.mode := None; PayReq.note := None |}.

(** The bill (it gets [_id] 11) is created and paid in full. *)
Definition paidBillDb : Db :=
  serve [CreateLease Example.leaseBody; CreateLightBill billBody;
         PayLightBill 11%nat payInFull] Example.seedDb.

(** A correction of the meter reading to a single unit. *)
Definition oneUnit : LightBillUpdate.t :=
  {| LightBillUpdate.periodFrom := None; LightBillUpdate.periodTo := None;
     LightBillUpdate.unitsConsumed := Some 1;
     LightBillUpdate.ratePerUnit := None;
     LightBillUpdate.fixedCharge := None; LightBillUpdate.tax := None;
     LightBillUpdate.issueDate := None; LightBillUpdate.dueDate := None;
     LightBillUpdate.notes := None |}.

End BillExample.

Section WithinTotal.
Local Open Scope Q_scope.

Definition invoiceWithinTotal (i : Invoice.t) : Prop :=
  0 <= Invoice.paidAmount i /\ Invoice.paidAmount i <= Invoice.totalAmount i.

Definition billWithinTotal (b : LightBill.t) : Prop :=
  0 <= LightBill.paidAmount b
  /\ LightBill.paidAmount b <= LightBill.totalAmount b.

Definition withinTotal (db : Db) : Prop :=
  Forall invoiceWithinTotal (invoices db)
  /\ Forall billWithinTotal (lightBills db).

Definition paidNonNegative (db : Db) : Prop :=
  Forall (fun i => 0 <= Invoice.paidAmount i) (invoices db)
  /\ Forall (fun b => 0 <= LightBill.paidAmount b) (lightBills db).

(** The operations the statement names. *)
Definition billingOperation (r : Request) : Prop :=
  match r with
  | PayInvoice _ _ _ | PayLightBill _ _ | GenerateMonthly _ | ScheduledTask _
  | RecalculateLateFees _ | CreateLightBill _ | UpdateLightBill _ _ => True
  | _ => False
  end.

(** The specification's statement: each of them keeps every paid amount
    between 0 and the total. *)
Definition every_operation_keeps_within_total : Prop :=
  forall r db, billingOperation r -> withinTotal db -> withinTotal (handle r db).

(** C9, as stated, fails: a light bill of 870 that has been paid in full
    and is then updated to one unit consumed has a total of 78 and a paid
    amount of 870. *)
Lemma updateLightBill_total_below_paid :
  ~ every_operation_keeps_within_total.
Proof.
  intro H.
  destruct (H (UpdateLightBill 11%nat BillExample.oneUnit)
              BillExample.paidBillDb I) as [_ Hbills].
  - split; vm_compute; repeat constructor; discriminate.
  - match type of Hbills with
    | Forall _ ?l =>
        let v := eval vm_compute in l in
        replace l with v in Hbills by (vm_compute; reflexivity)
    end.
    inversion Hbills as [|b l [_ Hle] _]; subst.
    apply Hle. reflexivity.
Qed.

(** So does the recalculation, once the late-fee policy is relaxed: on the
    invoice of the running example, 5020 paid against 5050, the total falls
    back to 5000. *)
Lemma recalculateLateFees_total_below_paid :
  let db :=
    serve [RecalculateLateFees Example.march18;
           PayInvoice Example.march18 11%nat (Example.pay 5020);
           UpdateSettings Example.longGrace] Example.billedDb in
  withinTotal db
  /\ ~ withinTotal (handle (RecalculateLateFees Example.march18) db).
Proof.
  split.
  - split; vm_compute; repeat constructor; discriminate.
  - intros [Hinv _].
    match type of Hinv with
    | Forall _ ?l =>
        let v := eval vm_compute in l in
        replace l with v in Hinv by (vm_compute; reflexivity)
    end.
    inversion Hinv as [|i l [_ Hle] _]; subst. apply Hle. reflexivity.
Qed.

(** When a request keeps every paid amount within its total. *)
Definition keepsWithinTotal (r : Request) (db : Db) : Prop :=
  match r with
  | GenerateMonthly _ | ScheduledTask _ | VariantGenerateMonthly _ =>
      Forall (fun l => 0 <= Lease.rentPerMonth l) (leases db)
  | CreateLightBill body =>
      0 <= LightBillRoutes.getOr (LightBillReq.fixedCharge body) 0
      /\ 0 <= LightBillRoutes.getOr (LightBillReq.tax body) 0
  | UpdateLightBill _ _ | RecalculateLateFees _
  | VariantRecalculateLateFees _ => False
  | _ => True
  end.

Lemma withinTotal_paidNonNegative db : withinTotal db -> paidNonNegative db.
Proof.
  intros [Hi Hb]. split; (eapply Forall_impl; [|eassumption]);
    intros x [H _]; exact H.
Qed.

Lemma feeStep_paidAmount cfg today x y :
  feeStep cfg today x = Some y -> Invoice.paidAmount y = Invoice.paidAmount x.
Proof. unfold feeStep. destruct (negb _); intros [=]. now subst. Qed.

Lemma variantStep_paidAmount cfg today x y :
  variantStep cfg today x = Some y ->
  Invoice.paidAmount y = Invoice.paidAmount x.
Proof.
  unfold variantStep, rederived. intros [= <-]. cbn.
  destruct (Qle_bool _ _); [reflexivity|]. now destruct (Z.ltb _ _).
Qed.

Lemma paidNonNegative_after (r : Request) (db : Db) :
  paidNonNegative db -> paidNonNegative (handle r db).
Proof.
  intros [Hi Hb]. unfold paidNonNegative.
  destruct r as [today|today|now id body|today|body|now id body|id body|body
                |body|id body|id body|id|today|today]; cbn [handle].
  - destruct (generateMonthly_generated today db) as (-> & extra & -> & Hall).
    split; [|exact Hb]. apply Forall_app. split; [exact Hi|].
    eapply Forall_impl; [|exact Hall].
    intros i (lease & _ & _ & _ & _ & _ & -> & _). apply Qle_refl.
  - destruct (scheduledTask_generated today db) as (-> & extra & -> & Hall).
    split; [|exact Hb]. apply Forall_app. split; [exact Hi|].
    eapply Forall_impl; [|exact Hall].
    intros i (lease & _ & _ & _ & _ & _ & -> & _). apply Qle_refl.
  - destruct (payInvoice_effect now id body db)
      as (-> & [-> | (invoice & amount & st & Hin & Ha & Hfit & ->)]);
      [now split|].
    split; [|exact Hb]. apply Forall_saveDoc; [exact Hi|]. cbn.
    rewrite Forall_forall in Hi. specialize (Hi invoice Hin). cbn in Hi.
    rewrite orZero_eq. lra.
  - destruct (@recalculateLateFees_effect
                (fun i => 0 <= Invoice.paidAmount i) today db) as (-> & F).
    + intros cfg x y Hx Hy. now rewrite (@feeStep_paidAmount cfg today x y Hy).
    + split; [exact (F Hi)|exact Hb].
  - destruct (createLease_frame body db) as (-> & ->). now split.
  - destruct (endLease_frame now id body db) as (-> & ->). now split.
  - destruct (updateRoom_frame id body db) as (-> & ->). now split.
  - now split.
  - destruct (createLightBill_effect body db)
      as (-> & [-> | (bill & -> & _ & Hpaid & _)]); [now split|].
    split; [exact Hi|]. apply Forall_app. split; [exact Hb|].
    repeat constructor. rewrite Hpaid. apply Qle_refl.
  - destruct (payLightBill_effect id body db)
      as (-> & [-> | (bill & amount & Hin & Ha & Hfit & ->)]); [now split|].
    split; [exact Hi|]. apply Forall_saveDoc; [exact Hb|]. cbn.
    rewrite Forall_forall in Hb. specialize (Hb bill Hin). cbn in Hb. lra.
  - destruct (updateLightBill_effect id body db)
      as (-> & [-> | (bill & bill' & Hin & Hpaid & _ & ->)]); [now split|].
    split; [exact Hi|]. apply Forall_saveDoc; [exact Hb|].
    rewrite Hpaid. rewrite Forall_forall in Hb. exact (Hb bill Hin).
  - destruct (deleteLightBill_effect id db) as (-> & [-> | ->]);
      [now split|].
    split; [exact Hi|]. now apply Forall_deleteDoc.
  - destruct (variant_generateMonthly_generated today db)
      as (-> & extra & -> & Hall).
    split; [|exact Hb]. apply Forall_app. split; [exact Hi|].
    eapply Forall_impl; [|exact Hall].
    intros i (lease & _ & _ & _ & _ & _ & -> & _). apply Qle_refl.
  - destruct (@variant_recalculateLateFees_effect
                (fun i => 0 <= Invoice.paidAmount i) today db) as (-> & F).
    + intros cfg x y Hx Hy. now rewrite (@variantStep_paidAmount cfg today x y Hy).
    + split; [exact (F Hi)|exact Hb].
Qed.

(** C9, amended: paying an invoice, paying a light bill, and every request
    that leaves amounts alone keep 0 <= paidAmount <= totalAmount on every
    invoice and light bill; so does monthly generation when no stored
    lease has a negative rent, and so does creating a light bill when its
    fixed charge and tax are not negative.  Updating a light bill and
    recalculating late fees keep every paid amount non-negative, as all
    requests do. *)
Theorem request_keeps_within_total (r : Request) (db : Db) :
  withinTotal db ->
  (keepsWithinTotal r db -> withinTotal (handle r db))
  /\ paidNonNegative (handle r db).
Proof.
  intro Hw. split;
    [|apply paidNonNegative_after; now apply withinTotal_paidNonNegative].
  destruct Hw as [Hi Hb]. unfold withinTotal.
  assert (Hgen : forall db',
            generated db db' ->
            Forall (fun l => 0 <= Lease.rentPerMonth l) (leases db) ->
            Forall invoiceWithinTotal (invoices db')
            /\ Forall billWithinTotal (lightBills db')).
  { intros db' (-> & extra & -> & Hall) Hrent. split; [|exact Hb].
    apply Forall_app. split; [exact Hi|].
    eapply Forall_impl; [|exact Hall].
    intros i (lease & Hin & _ & _ & Htotal & _ & Hpaid & _).
    rewrite Forall_forall in Hrent. specialize (Hrent lease Hin).
    unfold invoiceWithinTotal. rewrite Hpaid, Htotal.
    split; [apply Qle_refl|exact Hrent]. }
  destruct r as [today|today|now id body|today|body|now id body|id body|body
                |body|id body|id body|id|today|today]; cbn [handle keepsWithinTotal];
    intro Hk; try contradiction.
  - apply Hgen; [apply generateMonthly_generated|exact Hk].
  - apply Hgen; [apply scheduledTask_generated|exact Hk].
  - destruct (payInvoice_effect now id body db)
      as (-> & [-> | (invoice & amount & st & Hin & Ha & Hfit & ->)]);
      [now split|].
    split; [|exact Hb]. apply Forall_saveDoc; [exact Hi|].
    rewrite Forall_forall in Hi. destruct (Hi invoice Hin) as [H0 _].
    unfold invoiceWithinTotal. cbn. rewrite orZero_eq. lra.
  - destruct (createLease_frame body db) as (-> & ->). now split.
  - destruct (endLease_frame now id body db) as (-> & ->). now split.
  - destruct (updateRoom_frame id body db) as (-> & ->). now split.
  - now split.
  - destruct Hk as [Hfixed Htax].
    destruct (createLightBill_effect body db)
      as (-> & [-> | (bill & -> & _ & Hpaid & Hu & Hr & Hf & Ht & Htotal)]);
      [now split|].
    split; [exact Hi|]. apply Forall_app. split; [exact Hb|].
    repeat constructor; rewrite Hpaid; [apply Qle_refl|].
    rewrite Htotal, Hf, Ht.
    pose proof (Qmult_lt_0_compat _ _ Hu Hr). lra.
  - destruct (payLightBill_effect id body db)
      as (-> & [-> | (bill & amount & Hin & Ha & Hfit & ->)]); [now split|].
    split; [exact Hi|]. apply Forall_saveDoc; [exact Hb|].
    rewrite Forall_forall in Hb. destruct (Hb bill Hin) as [H0 _].
    unfold billWithinTotal. cbn. lra.
  - destruct (deleteLightBill_effect id db) as (-> & [-> | ->]);
      [now split|].
    split; [exact Hi|]. now apply Forall_deleteDoc.
  - apply Hgen; [apply variant_generateMonthly_generated|exact Hk].
Qed.

Lemma request_keeps_within_total_witness :
  withinTotal
    (handle (PayLightBill 11%nat BillExample.payInFull)
       (serve [CreateLease Example.leaseBody;
               CreateLightBill BillExample.billBody] Example.seedDb)).
Proof.
  refine (proj1 (@request_keeps_within_total
                   (PayLightBill 11%nat BillExample.payInFull)
                   (serve [CreateLease Example.leaseBody;
                           CreateLightBill BillExample.billBody]
                      Example.seedDb) _) I).
  split; vm_compute; repeat constructor; discriminate.
Defined.

End WithinTotal.

(** ** The status of a light bill *)

Section LightBillStatus.
Local Open Scope Q_scope.

Definition billStatusKnown (b : LightBill.t) : Prop :=
  LightBill.status b = unpaid
  \/ LightBill.status b = partially_paid
  \/ LightBill.status b = paid.

(** The databases the requests lead to from one without light bills. *)
Inductive reachable : Db -> Prop :=
  | reachable_start (db : Db) : lightBills db = [] -> reachable db
  | reachable_step (db : Db) (r : Request) :
      reachable db -> reachable (handle r db).

Lemma reachable_serve (rs : list Request) :
  forall db, reachable db -> reachable (serve rs db).
Proof.
  induction rs as [|r rs IH]; intros db H; [exact H|].
  cbn. apply IH. now apply reachable_step.
Qed.

(** What the pay route writes as status. *)
Lemma payLightBill_status (bill : LightBill.t) (amount : Q) :
  let paidAmount := LightBill.paidAmount bill + amount in
  let st := if Qle_bool (LightBill.totalAmount bill) paidAmount then paid
            else if Qlt_bool 0 paidAmount then partially_paid
            else LightBill.status bill in
  (st = paid /\ LightBill.totalAmount bill <= paidAmount)
  \/ (st = partially_paid /\ 0 < paidAmount)
  \/ st = LightBill.status bill.
Proof.
  cbv zeta.
  destruct (Qle_bool _ _) eqn:E1;
    [left; split; [reflexivity|now apply Qle_bool_iff]|].
  destruct (Qlt_bool _ _) eqn:E2;
    [right; left; split; [reflexivity|now apply Qlt_bool_iff]|].
  right. right. reflexivity.
Qed.

Lemma handle_keeps_bill_status (r : Request) (db : Db) :
  Forall billStatusKnown (lightBills db) ->
  Forall billStatusKnown (lightBills (handle r db)).
Proof.
  intro Hb.
  destruct r as [today|today|now id body|today|body|now id body|id body|body
                |body|id body|id body|id|today|today]; cbn [handle].
  - now destruct (generateMonthly_generated today db) as (-> & _).
  - now destruct (scheduledTask_generated today db) as (-> & _).
  - now destruct (payInvoice_effect now id body db) as (-> & _).
  - destruct (@recalculateLateFees_effect (fun _ => True) today db)
      as (-> & _); auto.
  - now destruct (createLease_frame body db) as (_ & ->).
  - now destruct (endLease_frame now id body db) as (_ & ->).
  - now destruct (updateRoom_frame id body db) as (_ & ->).
  - exact Hb.
  - destruct (createLightBill_effect body db)
      as (_ & [-> | (bill & -> & Hst & _)]); [exact Hb|].
    apply Forall_app. split; [exact Hb|].
    constructor; [left; exact Hst|constructor].
  - destruct (payLightBill_effect id body db)
      as (_ & [-> | (bill & amount & Hin & _ & _ & ->)]); [exact Hb|].
    apply Forall_saveDoc; [exact Hb|].
    rewrite Forall_forall in Hb. specialize (Hb bill Hin).
    unfold billStatusKnown. cbn.
    destruct (payLightBill_status bill amount) as [[-> _]|[[-> _]| ->]];
      auto.
  - destruct (updateLightBill_effect id body db)
      as (_ & [-> | (bill & bill' & Hin & _ & Hst & ->)]); [exact Hb|].
    apply Forall_saveDoc; [exact Hb|].
    rewrite Forall_forall in Hb. specialize (Hb bill Hin).
    unfold billStatusKnown. now rewrite Hst.
  - destruct (deleteLightBill_effect id db) as (_ & [-> | ->]);
      [exact Hb|now apply Forall_deleteDoc].
  - now destruct (variant_generateMonthly_generated today db) as (-> & _).
  - destruct (@variant_recalculateLateFees_effect (fun _ => True) today db)
      as (-> & _); auto.
Qed.

(** C10: no request sets the status of a light bill to overdue.  Paying a
    bill writes paid (the paid amount has reached the total), partially
    paid (the paid amount is positive) or the status the bill had; an
    update writes the status the bill had; the recalculations leave the
    light bills as they are.  So in every database reached from one
    without light bills, each light bill is unpaid, partially paid or
    paid. *)
Theorem lightBill_never_overdue (db : Db) :
  reachable db ->
  Forall (fun b => billStatusKnown b /\ LightBill.status b <> overdue)
    (lightBills db).
Proof.
  intro H.
  assert (Hk : Forall billStatusKnown (lightBills db)).
  { induction H as [db Hnil|db r _ IH].
    - rewrite Hnil. constructor.
    - now apply handle_keeps_bill_status. }
  eapply Forall_impl; [|exact Hk].
  intros b Hb. split; [exact Hb|].
  destruct Hb as [-> | [-> | ->]]; discriminate.
Qed.

Lemma lightBill_never_overdue_witness :
  Forall (fun b => billStatusKnown b /\ LightBill.status b <> overdue)
    (lightBills BillExample.paidBillDb).
Proof.
  apply lightBill_never_overdue. apply reachable_serve.
  apply reachable_start. reflexivity.
Defined.

End LightBillStatus.

From Stdlib Require Import Sorted Ascii.

(** * The other routes, the notification service and the middleware *)

(** ** GET /api/settings ([routes/settingsRoutes.js])

    The one reading route that writes: when no settings document is
    stored it creates one from the schema defaults. *)

Module SettingsGet.
Local Open Scope handler_scope.

Definition getSettings : M Settings.t :=
  s <- reads settings ;;
  match s with
  | Some settingsDoc => ret settingsDoc
  | None =>
      modify (set_settings (Some Settings.defaults)) ;;
      ret Settings.defaults
  end.

End SettingsGet.

(** ** GET /api/invoices ([routes/invoiceRoutes.js])

    A query parameter is a string; [status] is kept as one, [tenantId] is
    the [_id] it spells, and [month] and [year] are the integers they
    spell.  An empty string is falsy, as in [if (status)]. *)

Definition statusName (s : InvoiceStatus) : string :=
  match s with
  | unpaid => "unpaid"
  | partially_paid => "partially_paid"
  | paid => "paid"
  | overdue => "overdue"
  end.

Definition truthy (s : string) : bool := negb (String.eqb s EmptyString).

Module InvoiceQuery.
Record t := {
  status : option string;
  tenantId : option ObjectId;
  month : option Z;
  year : option Z
}.
End InvoiceQuery.

Module Summary.
Record t := { totalExpected : Q; totalCollected : Q; totalPending : Q }.
Definition zero : t :=
  {| totalExpected := 0; totalCollected := 0; totalPending := 0 |}.
End Summary.

Module InvoiceList.
Record t := { count : nat; data : list Invoice.t; summary : Summary.t }.
End InvoiceList.

Module InvoiceReads.
Import JsDate.

(** The [query] object of the route as a predicate on a stored invoice. *)
Definition matches (q : InvoiceQuery.t) (i : Invoice.t) : bool :=
  match InvoiceQuery.status q with
  | Some s =>
      if truthy s then String.eqb (statusName (Invoice.status i)) s else true
  | None => true
  end
  && match InvoiceQuery.tenantId q with
     | Some t => Nat.eqb (Invoice.tenant i) t
     | None => true
     end
  && match InvoiceQuery.month q, InvoiceQuery.year q with
     | Some month, Some year =>
         let startDate := newDate year (month - 1) 1 in
         let endDate := newDate year month 0 in
         Z.leb startDate (Invoice.periodFrom i)
         && Z.leb (Invoice.periodTo i) endDate
     | _, _ => true
     end.

(** The body of [invoices.forEach((invoice) => { ... })]. *)
Definition addInvoice (acc : Summary.t) (invoice : Invoice.t) : Summary.t :=
  {| Summary.totalExpected :=
       Summary.totalExpected acc + orZero (Invoice.totalAmount invoice);
     Summary.totalCollected :=
       Summary.totalCollected acc + orZero (Invoice.paidAmount invoice);
     Summary.totalPending :=
       Summary.totalPending acc
       + (Invoice.totalAmount invoice - orZero (Invoice.paidAmount invoice))
  |}%Q.

Definition summarize (l : list Invoice.t) : Summary.t :=
  fold_left addInvoice l Summary.zero.

Definition listInvoices (q : InvoiceQuery.t) : M InvoiceList.t :=
  reads (fun db =>
    let invoices := filter (matches q) (invoices db) in
    {| InvoiceList.count := List.length invoices;
       InvoiceList.data := invoices;
       InvoiceList.summary := summarize invoices |}).

End InvoiceReads.

(** ** GET /api/dashboard

    Of the response, the numbers that are computed from the collections
    of the database record: the counts, the month's collection and
    expenses, and the two summaries.  ([activeTenants], the lists of
    recent documents and the chart series read fields that the records
    here do not keep.) *)

Module DashboardQuery.
Record t := { month : option Z; year : option Z }.
End DashboardQuery.

Module Dashboard.
Record t := {
  totalRooms : nat;
  activeLeases : nat;
  upcomingLeases : nat;
  thisMonthCollection : Q;
  thisMonthExpenses : Q;
  profit : Q;
  overdueInvoices : nat;
  pendingLightBills : nat;
  roomAvailability : RoomStatus -> option nat;
  invoiceSummary : Summary.t;
  lightBillSummary : Summary.t
}.
End Dashboard.

Module DashboardRoutes.
Import JsDate.

(** [currentDate], [startOfMonth] and [endOfMonth]; [now] is
    [new Date()]. *)
Definition window (q : DashboardQuery.t) (now : Date) : Date * Date * Date :=
  match DashboardQuery.month q, DashboardQuery.year q with
  | Some month, Some year =>
      let monthIndex := (month - 1)%Z in
      (newDate year monthIndex 1, newDate year monthIndex 1,
       newDate year (monthIndex + 1) 0)
  | _, _ =>
      (now, newDate (getFullYear now) (getMonth now) 1,
       newDate (getFullYear now) (getMonth now + 1) 0)
  end.

(** [{ $gte: startOfMonth, $lte: endOfMonth }] *)
Definition within (startOfMonth endOfMonth d : Date) : bool :=
  Z.leb startOfMonth d && Z.leb d endOfMonth.

(** [aggregate([{ $match }, { $group: { _id: null, total: { $sum } } }])]
    followed by [result.length > 0 ? result[0].total : 0]. *)
Definition total {A : Type} (p : A -> bool) (f : A -> Q) (l : list A) : Q :=
  match filter p l with
  | [] => 0
  | matched => Qsum (map f matched)
  end.

Definition countDocuments {A : Type} (p : A -> bool) (l : list A) : nat :=
  List.length (filter p l).

Definition pending (b : LightBill.t) : bool :=
  InvoiceStatus_eqb (LightBill.status b) unpaid
  || InvoiceStatus_eqb (LightBill.status b) partially_paid.

(** The body of [allLightBills.forEach(bill => { ... })]. *)
Definition addBill (acc : Summary.t) (bill : LightBill.t) : Summary.t :=
  {| Summary.totalExpected :=
       Summary.totalExpected acc + orZero (LightBill.totalAmount bill);
     Summary.totalCollected :=
       Summary.totalCollected acc + orZero (LightBill.paidAmount bill);
     Summary.totalPending :=
       Summary.totalPending acc
       + (LightBill.totalAmount bill - orZero (LightBill.paidAmount bill))
  |}%Q.

(** [roomAvailabilityObj]: a status that no room has is not a key. *)
Definition availability (l : list Room.t) (s : RoomStatus) : option nat :=
  match countDocuments (fun r => RoomStatus_eqb (Room.status r) s) l with
  | O => None
  | n => Some n
  end.

Definition dashboard (q : DashboardQuery.t) (now : Date) : M Dashboard.t :=
  reads (fun db =>
    let '(currentDate, startOfMonth, endOfMonth) := window q now in
    let thisMonthCollection :=
      total (fun p => within startOfMonth endOfMonth (Payment.date p))
        Payment.amount (payments db) in
    let thisMonthExpenses :=
      total (fun b => within startOfMonth endOfMonth (LightBill.issueDate b))
        LightBill.totalAmount (lightBills db) in
    let allInvoices :=
      match DashboardQuery.month q, DashboardQuery.year q with
      | Some _, Some _ =>
          filter (fun i => Z.leb startOfMonth (Invoice.periodFrom i)
                           && Z.leb (Invoice.periodTo i) endOfMonth)
                 (invoices db)
      | _, _ => invoices db
      end in
    {| Dashboard.totalRooms := List.length (rooms db);
       Dashboard.activeLeases := countDocuments isActive (leases db);
       Dashboard.upcomingLeases :=
         countDocuments
           (fun l => LeaseStatus_eqb (Lease.status l) upcoming
                     && Z.leb currentDate (Lease.startDate l))
           (leases db);
       Dashboard.thisMonthCollection := thisMonthCollection;
       Dashboard.thisMonthExpenses := thisMonthExpenses;
       Dashboard.profit := (thisMonthCollection - thisMonthExpenses)%Q;
       Dashboard.overdueInvoices :=
         countDocuments
           (fun i => InvoiceStatus_eqb (Invoice.status i) overdue
                     && Z.ltb (Invoice.dueDate i) currentDate)
           (invoices db);
       Dashboard.pendingLightBills := countDocuments pending (lightBills db);
       Dashboard.roomAvailability := availability (rooms db);
       Dashboard.invoiceSummary := InvoiceReads.summarize allInvoices;
       Dashboard.lightBillSummary :=
         fold_left addBill (lightBills db) Summary.zero |}).

End DashboardRoutes.

(** ** GET /api/payments and GET /api/payments/tenant/:tenantId

    Both list the payments on invoices together with the light bills that
    have something paid.  A light bill has no payment documents of its
    own: the routes present its paid amount as one payment, dated by the
    bill's [updatedAt], a timestamp that Mongoose keeps and the records
    here do not; it is a parameter of the section. *)

Definition modeName (m : PaymentMode) : string :=
  match m with
  | cash => "cash"
  | upi => "upi"
  | bank_transfer => "bank_transfer"
  | card => "card"
  end.

Inductive EntryType := invoiceEntry | lightBillEntry.

Module Entry.
(** A payment in the "consistent format" of the routes; [tenant] is the
    populated reference, [null] when the tenant is gone. *)
Record t := {
  _id : ObjectId;
  tenant : option Tenant.t;
  relatedId : option ObjectId;
  amount : Q;
  date : Date;
  mode : PaymentMode;
  type : EntryType;
  status : option InvoiceStatus
}.
End Entry.

Module Group.
Record t := {
  tenant : Tenant.t;
  totalAmount : Q;
  paymentCount : nat;
  payments : list Entry.t
}.
End Group.

Module PaymentQuery.
Record t := {
  tenantId : option ObjectId;
  leaseId : option ObjectId;
  invoiceId : option ObjectId;
  startDate : option Date;
  endDate : option Date;
  mode : option string
}.
End PaymentQuery.

Module PaymentList.
Record t := { count : nat; totalAmount : Q; data : list Group.t }.
End PaymentList.

Module HistoryEntry.
(** A payment as GET /api/payments/tenant/:tenantId lists it. *)
Record t := {
  _id : ObjectId;
  amount : Q;
  date : Date;
  mode : PaymentMode;
  type : EntryType;
  status : option InvoiceStatus
}.
End HistoryEntry.

Module History.
Record t := {
  tenant : Tenant.t;
  payments : list HistoryEntry.t;
  totalPayments : nat;
  totalInvoicePayments : Q;
  totalLightBillPayments : Q;
  totalAmountPaid : Q
}.
End History.

Module PaymentRoutes.
Section WithTimestamps.
Variable updatedAt : LightBill.t -> Date.
Local Open Scope handler_scope.

Definition maybe {A : Type} (o : option A) (p : A -> bool) : bool :=
  match o with Some a => p a | None => true end.

(** [query] of GET /api/payments on a payment document. *)
Definition paymentMatches (q : PaymentQuery.t) (p : Payment.t) : bool :=
  maybe (PaymentQuery.tenantId q) (Nat.eqb (Payment.tenant p))
  && maybe (PaymentQuery.leaseId q) (Nat.eqb (Payment.lease p))
  && maybe (PaymentQuery.invoiceId q) (Nat.eqb (Payment.invoice p))
  && maybe (PaymentQuery.mode q)
       (fun m => if truthy m then String.eqb (modeName (Payment.mode p)) m
                 else true)
  && maybe (PaymentQuery.startDate q) (fun d => Z.leb d (Payment.date p))
  && maybe (PaymentQuery.endDate q) (fun d => Z.leb (Payment.date p) d).

(** [lightBillQuery] *)
Definition billMatches (q : PaymentQuery.t) (b : LightBill.t) : bool :=
  maybe (PaymentQuery.tenantId q) (Nat.eqb (LightBill.tenant b))
  && maybe (PaymentQuery.leaseId q) (Nat.eqb (LightBill.lease b))
  && maybe (PaymentQuery.startDate q) (fun d => Z.leb d (updatedAt b))
  && maybe (PaymentQuery.endDate q) (fun d => Z.leb (updatedAt b) d)
  && Qlt_bool 0 (LightBill.paidAmount b).

Definition ofPayment (db : Db) (payment : Payment.t) : Entry.t :=
  let invoice := findDoc Invoice._id (Payment.invoice payment) (invoices db) in
  {| Entry._id := Payment._id payment;
     Entry.tenant := findDoc Tenant._id (Payment.tenant payment) (tenants db);
     Entry.relatedId := option_map Invoice._id invoice;
     Entry.amount := Payment.amount payment;
     Entry.date := Payment.date payment;
     Entry.mode := Payment.mode payment;
     Entry.type := invoiceEntry;
     Entry.status := option_map Invoice.status invoice |}.

Definition ofBill (db : Db) (bill : LightBill.t) : Entry.t :=
  {| Entry._id := LightBill._id bill;
     Entry.tenant := findDoc Tenant._id (LightBill.tenant bill) (tenants db);
     Entry.relatedId := Some (LightBill._id bill);
     Entry.amount := LightBill.paidAmount bill;
     Entry.date := updatedAt bill;
     Entry.mode := cash;
     Entry.type := lightBillEntry;
     Entry.status := Some (LightBill.status bill) |}.

(** [allPayments] of GET /api/payments. *)
Definition allPayments (q : PaymentQuery.t) (db : Db) : list Entry.t :=
  map (ofPayment db) (filter (paymentMatches q) (payments db))
  ++ map (ofBill db) (filter (billMatches q) (lightBills db)).

(** [tenantMap], in the order its keys were inserted; one step of
    [allPayments.forEach(payment => { ... })] on it. *)
Fixpoint addToGroup (tenant : Tenant.t) (payment : Entry.t)
    (tenantMap : list (ObjectId * Group.t)) : list (ObjectId * Group.t) :=
  match tenantMap with
  | [] =>
      [(Tenant._id tenant,
        {| Group.tenant := tenant;
           Group.totalAmount := 0 + Entry.amount payment;
           Group.paymentCount := 1;
           Group.payments := [payment] |})]
  | (key, group) :: rest =>
      if Nat.eqb key (Tenant._id tenant) then
        (key,
         {| Group.tenant := Group.tenant group;
            Group.totalAmount :=
              Group.totalAmount group + Entry.amount payment;
            Group.paymentCount := S (Group.paymentCount group);
            Group.payments := Group.payments group ++ [payment] |}) :: rest
      else (key, group) :: addToGroup tenant payment rest
  end%Q.

Fixpoint groupLoop (todo : list Entry.t)
    (tenantMap : list (ObjectId * Group.t))
    : M (list (ObjectId * Group.t)) :=
  match todo with
  | [] => ret tenantMap
  | payment :: rest =>
      tenant <- orFail (Entry.tenant payment) ServerError ;;
      groupLoop rest (addToGroup tenant payment tenantMap)
  end.

(** GET /api/payments *)
Definition listPayments (q : PaymentQuery.t) : M PaymentList.t :=
  all <- reads (allPayments q) ;;
  tenantMap <- groupLoop all [] ;;
  let groupedPayments := map snd tenantMap in
  let totalCount :=
    fold_left (fun n group => (n + Group.paymentCount group)%nat)
      groupedPayments 0%nat in
  let totalAmount :=
    fold_left (fun a group => (a + Group.totalAmount group)%Q)
      groupedPayments 0%Q in
  ret {| PaymentList.count := totalCount;
         PaymentList.totalAmount := totalAmount;
         PaymentList.data := groupedPayments |}.

(** [allPayments.sort((a, b) => new Date(b.date) - new Date(a.date))]:
    the sort is stable, so an entry goes in front of the first entry that
    is not newer than it. *)
Fixpoint insertByDate (x : HistoryEntry.t) (sorted : list HistoryEntry.t)
    : list HistoryEntry.t :=
  match sorted with
  | [] => [x]
  | y :: rest =>
      if Z.leb (HistoryEntry.date y) (HistoryEntry.date x) then x :: y :: rest
      else y :: insertByDate x rest
  end.

Definition newestFirst (l : list HistoryEntry.t) : list HistoryEntry.t :=
  fold_right insertByDate [] l.

Definition historyOfPayment (db : Db) (payment : Payment.t)
    : HistoryEntry.t :=
  {| HistoryEntry._id := Payment._id payment;
     HistoryEntry.amount := Payment.amount payment;
     HistoryEntry.date := Payment.date payment;
     HistoryEntry.mode := Payment.mode payment;
     HistoryEntry.type := invoiceEntry;
     HistoryEntry.status :=
       option_map Invoice.status
         (findDoc Invoice._id (Payment.invoice payment) (invoices db)) |}.

Definition historyOfBill (bill : LightBill.t) : HistoryEntry.t :=
  {| HistoryEntry._id := LightBill._id bill;
     HistoryEntry.amount := LightBill.paidAmount bill;
     HistoryEntry.date := updatedAt bill;
     HistoryEntry.mode := cash;
     HistoryEntry.type := lightBillEntry;
     HistoryEntry.status := Some (LightBill.status bill) |}.

(** GET /api/payments/tenant/:tenantId *)
Definition paymentHistory (tenantId : ObjectId) : M History.t :=
  found <- reads (fun db => findDoc Tenant._id tenantId (tenants db)) ;;
  tenant <- orFail found TenantNotFound ;;
  invoicePayments <- reads (fun db =>
    filter (fun p => Nat.eqb (Payment.tenant p) tenantId) (payments db)) ;;
  lightBills <- reads (fun db =>
    filter (fun b => Nat.eqb (LightBill.tenant b) tenantId
                     && Qlt_bool 0 (LightBill.paidAmount b))
           (lightBills db)) ;;
  db <- reads (fun db => db) ;;
  let allPayments :=
    newestFirst (map (historyOfPayment db) invoicePayments
                 ++ map historyOfBill lightBills) in
  let totalInvoicePayments :=
    fold_left (fun a p => (a + Payment.amount p)%Q) invoicePayments 0%Q in
  let totalLightBillPayments :=
    fold_left (fun a b => (a + LightBill.paidAmount b)%Q) lightBills 0%Q in
  ret {| History.tenant := tenant;
         History.payments := allPayments;
         History.totalPayments := List.length allPayments;
         History.totalInvoicePayments := totalInvoicePayments;
         History.totalLightBillPayments := totalLightBillPayments;
         History.totalAmountPaid :=
           (totalInvoicePayments + totalLightBillPayments)%Q |}.

End WithTimestamps.
End PaymentRoutes.

(** ** Notifications ([services/notificationService.js],
       [routes/notificationRoutes.js])

    Notifications live in a collection of their own, next to the users
    they are addressed to, and are kept in the order they were created
    (the order of their [createdAt]).  Of a user the fields the code reads
    are kept ([_id], [role], [isActive]); of a notification all but the
    message text, which is a template string over the document it
    reports. *)

Inductive NotificationType :=
  infoType | warningType | successType | errorType | paymentType
  | invoiceType | maintenanceType.
Inductive EntityType :=
  PaymentEntity | InvoiceEntity | LeaseEntity | TenantEntity | RoomEntity
  | LightBillEntity.
Inductive Priority := low | medium | high | urgent.

Definition typeName (t : NotificationType) : string :=
  match t with
  | infoType => "info"
  | warningType => "warning"
  | successType => "success"
  | errorType => "error"
  | paymentType => "payment"
  | invoiceType => "invoice"
  | maintenanceType => "maintenance"
  end.

Module User.
Record t := { _id : ObjectId; role : string; isActive : bool }.
End User.

Module Notification.
Record t := {
  _id : ObjectId;
  title : string;
  type : NotificationType;
  recipient : ObjectId;
  relatedEntity : option ObjectId;
  relatedEntityType : option EntityType;
  isRead : bool;
  priority : Priority
}.

Definition set_isRead (n : t) (v : bool) : t :=
  {| _id := _id n; title := title n; type := type n;
     recipient := recipient n; relatedEntity := relatedEntity n;
     relatedEntityType := relatedEntityType n; isRead := v;
     priority := priority n |}.
End Notification.

Module NotificationData.
(** [notificationData] of the service, without the recipient. *)
Record t := {
  title : string;
  type : NotificationType;
  relatedEntity : option ObjectId;
  relatedEntityType : option EntityType;
  priority : Priority
}.
End NotificationData.

Record Inbox := {
  users : list User.t;
  notifications : list Notification.t;
  nextNotificationId : ObjectId
}.

Module NotificationService.

(** [createNotification({ ...notificationData, recipient })];
    [isRead] takes the schema default. *)
Definition createNotification (data : NotificationData.t)
    (recipient : ObjectId) (box : Inbox) : Notification.t * Inbox :=
  let notification :=
    {| Notification._id := nextNotificationId box;
       Notification.title := NotificationData.title data;
       Notification.type := NotificationData.type data;
       Notification.recipient := recipient;
       Notification.relatedEntity := NotificationData.relatedEntity data;
       Notification.relatedEntityType :=
         NotificationData.relatedEntityType data;
       Notification.isRead := false;
       Notification.priority := NotificationData.priority data |} in
  (notification,
   {| users := users box;
      notifications := notifications box ++ [notification];
      nextNotificationId := S (nextNotificationId box) |}).

Definition isAdmin (u : User.t) : bool := String.eqb (User.role u) "admin".

(** The [for (const admin of admins)] loop. *)
Fixpoint notifyEach (data : NotificationData.t) (admins : list User.t)
    (created : list Notification.t) (box : Inbox)
    : list Notification.t * Inbox :=
  match admins with
  | [] => (created, box)
  | admin :: rest =>
      let (notification, box') :=
        createNotification data (User._id admin) box in
      notifyEach data rest (created ++ [notification]) box'
  end.

Definition createAdminNotifications (data : NotificationData.t)
    (box : Inbox) : list Notification.t * Inbox :=
  notifyEach data (filter isAdmin (users box)) [] box.

(** [createPaymentNotification(payment, paymentType)]: a payment on an
    invoice, passed with ["invoice"], or a light bill, passed with any
    other type. *)
Definition createPaymentNotification (payment : Payment.t + LightBill.t)
    : Inbox -> list Notification.t * Inbox :=
  createAdminNotifications
    match payment with
    | inl payment =>
        {| NotificationData.title := "Payment Received";
           NotificationData.type := paymentType;
           NotificationData.relatedEntity := Some (Payment.invoice payment);
           NotificationData.relatedEntityType := Some InvoiceEntity;
           NotificationData.priority := medium |}
    | inr bill =>
        {| NotificationData.title := "Light Bill Payment Received";
           NotificationData.type := paymentType;
           NotificationData.relatedEntity := Some (LightBill._id bill);
           NotificationData.relatedEntityType := Some LightBillEntity;
           NotificationData.priority := medium |}
    end.

Definition createInvoiceNotification (invoice : Invoice.t)
    : Inbox -> list Notification.t * Inbox :=
  createAdminNotifications
    {| NotificationData.title := "New Invoice Generated";
       NotificationData.type := invoiceType;
       NotificationData.relatedEntity := Some (Invoice._id invoice);
       NotificationData.relatedEntityType := Some InvoiceEntity;
       NotificationData.priority := medium |}.

Definition createOverdueInvoiceNotification (invoice : Invoice.t)
    : Inbox -> list Notification.t * Inbox :=
  createAdminNotifications
    {| NotificationData.title := "Overdue Invoice";
       NotificationData.type := warningType;
       NotificationData.relatedEntity := Some (Invoice._id invoice);
       NotificationData.relatedEntityType := Some InvoiceEntity;
       NotificationData.priority := high |}.

Definition createMaintenanceNotification (room : Room.t)
    : Inbox -> list Notification.t * Inbox :=
  createAdminNotifications
    {| NotificationData.title := "Room Maintenance Required";
       NotificationData.type := maintenanceType;
       NotificationData.relatedEntity := Some (Room._id room);
       NotificationData.relatedEntityType := Some RoomEntity;
       NotificationData.priority := high |}.

End NotificationService.

Inductive inboxFailure :=
  | NotificationNotFound
  | NotAuthorized
  | InboxServerError.

Definition inboxStatus (e : inboxFailure) : Z :=
  match e with
  | NotificationNotFound => 404
  | NotAuthorized => 403
  | InboxServerError => 500
  end%Z.

Module NotificationQuery.
(** [req.query] of GET /api/notifications; [limit] and [page] are the
    positive integers they spell. *)
Record t := {
  isRead : option string;
  type : option string;
  limit : option positive;
  page : option positive
}.
End NotificationQuery.

Module NotificationPage.
Record t := {
  count : nat;
  total : nat;
  page : nat;
  pages : nat;
  data : list Notification.t
}.
End NotificationPage.

Module NotificationRoutes.
Section AsUser.
(** [req.user._id], set by [authRequired]. *)
Variable user : ObjectId.

Definition mine (n : Notification.t) : bool :=
  Nat.eqb (Notification.recipient n) user.

Definition unread (n : Notification.t) : bool :=
  mine n && negb (Notification.isRead n).

(** GET /api/notifications/unread-count *)
Definition unreadCount (box : Inbox) : nat :=
  List.length (filter unread (notifications box)).

(** PUT /api/notifications/read-all; the result is [modifiedCount]. *)
Definition readAll (box : Inbox) : nat * Inbox :=
  (List.length (filter unread (notifications box)),
   {| users := users box;
      notifications :=
        map (fun n => if unread n then Notification.set_isRead n true else n)
            (notifications box);
      nextNotificationId := nextNotificationId box |}).

(** [query] of GET /api/notifications. *)
Definition listed (q : NotificationQuery.t) (n : Notification.t) : bool :=
  mine n
  && match NotificationQuery.isRead q with
     | Some s => Bool.eqb (Notification.isRead n) (String.eqb s "true")
     | None => true
     end
  && match NotificationQuery.type q with
     | Some t =>
         if truthy t then String.eqb (typeName (Notification.type n)) t
         else true
     | None => true
     end.

(** GET /api/notifications: newest first, [skip] and [limit]. *)
Definition list (q : NotificationQuery.t) (box : Inbox)
    : NotificationPage.t :=
  let limit := match NotificationQuery.limit q with
               | Some l => Pos.to_nat l | None => 20%nat end in
  let page := match NotificationQuery.page q with
              | Some p => Pos.to_nat p | None => 1%nat end in
  let skip := ((page - 1) * limit)%nat in
  let matching := rev (filter (listed q) (notifications box)) in
  let notifications := firstn limit (skipn skip matching) in
  let totalNotifications := List.length matching in
  {| NotificationPage.count := List.length notifications;
     NotificationPage.total := totalNotifications;
     NotificationPage.page := page;
     NotificationPage.pages := ((totalNotifications + limit - 1) / limit)%nat;
     NotificationPage.data := notifications |}.

(** GET /api/notifications/:id; the recipient is populated and read. *)
Definition get (id : ObjectId) (box : Inbox)
    : inboxFailure + Notification.t :=
  match findDoc Notification._id id (notifications box) with
  | None => inl NotificationNotFound
  | Some notification =>
      match findDoc User._id (Notification.recipient notification)
              (users box) with
      | None => inl InboxServerError
      | Some recipient =>
          if negb (Nat.eqb (User._id recipient) user) then inl NotAuthorized
          else inr notification
      end
  end.

(** PUT /api/notifications/:id/read *)
Definition markRead (id : ObjectId) (box : Inbox)
    : (inboxFailure + Notification.t) * Inbox :=
  match findDoc Notification._id id (notifications box) with
  | None => (inl NotificationNotFound, box)
  | Some notification =>
      if negb (Nat.eqb (Notification.recipient notification) user)
      then (inl NotAuthorized, box)
      else
        let notification' := Notification.set_isRead notification true in
        (inr notification',
         {| users := users box;
            notifications :=
              saveDoc Notification._id notification' (notifications box);
            nextNotificationId := nextNotificationId box |})
  end.

(** DELETE /api/notifications/:id; the last case is
    [notification.remove()] where documents have that method. *)
Definition delete (id : ObjectId) (box : Inbox)
    : (inboxFailure + unit) * Inbox :=
  match findDoc Notification._id id (notifications box) with
  | None => (inl NotificationNotFound, box)
  | Some notification =>
      if negb (Nat.eqb (Notification.recipient notification) user)
      then (inl NotAuthorized, box)
      else
        (inr tt,
         {| users := users box;
            notifications :=
              deleteDoc Notification._id id (notifications box);
            nextNotificationId := nextNotificationId box |})
  end.

(** DELETE /api/notifications; the result is [deletedCount]. *)
Definition deleteRead (box : Inbox) : nat * Inbox :=
  let read n := mine n && Notification.isRead n in
  (List.length (filter read (notifications box)),
   {| users := users box;
      notifications := filter (fun n => negb (read n)) (notifications box);
      nextNotificationId := nextNotificationId box |}).

End AsUser.
End NotificationRoutes.

(** ** POST /api/rooms

    Of [req.body], which the handler passes whole to [Room.create], the
    fields it validates and the fields the room record keeps. *)

Module RoomCreateReq.
Record t := {
  name : option string;
  defaultRent : option Q;
  defaultDeposit : option Q;
  status : option RoomStatus;
  currentLease : option ObjectId
}.
End RoomCreateReq.

Inductive roomFailure :=
  | RoomNameRequired
  | DefaultRentNotPositive
  | DefaultDepositNotZeroOrPositive
  | RoomWithNameExists.

Module RoomCreate.

Definition createRoom (body : RoomCreateReq.t) (db : Db)
    : (roomFailure + Room.t) * Db :=
  match RoomCreateReq.name body with
  | None => (inl RoomNameRequired, db)
  | Some name =>
      if String.eqb name EmptyString then (inl RoomNameRequired, db) else
      match RoomCreateReq.defaultRent body with
      | None => (inl DefaultRentNotPositive, db)
      | Some defaultRent =>
          if falsyQ defaultRent || Qle_bool defaultRent 0
          then (inl DefaultRentNotPositive, db) else
          match RoomCreateReq.defaultDeposit body with
          | None => (inl DefaultDepositNotZeroOrPositive, db)
          | Some defaultDeposit =>
              if falsyQ defaultDeposit || Qlt_bool defaultDeposit 0
              then (inl DefaultDepositNotZeroOrPositive, db) else
              match find (fun r => String.eqb (Room.name r) name)
                      (rooms db) with
              | Some _ => (inl RoomWithNameExists, db)
              | None =>
                  let room :=
                    {| Room._id := nextId db; Room.name := name;
                       Room.status :=
                         match RoomCreateReq.status body with
                         | Some s => s | None => vacant end;
                       Room.currentLease :=
                         RoomCreateReq.currentLease body |} in
                  (inr room,
                   set_rooms (rooms db ++ [room]) (snd (freshId db)))
              end
          end
      end
  end.

End RoomCreate.

(** ** Operations: the requests, and the two routes above that write *)

Inductive Operation :=
  | Serve (r : Request)
  | CreateRoom (body : RoomCreateReq.t)
  | GetSettings.

Definition perform (op : Operation) (db : Db) : Db :=
  match op with
  | Serve r => handle r db
  | CreateRoom body => snd (RoomCreate.createRoom body db)
  | GetSettings => exec SettingsGet.getSettings db
  end.

Definition performAll (ops : list Operation) (db : Db) : Db :=
  fold_left (fun d op => perform op d) ops db.

(** ** The [authRequired] middleware

    [jwt.verify(token, process.env.JWT_SECRET)] is a parameter: the [id]
    of the decoded token, or nothing when it throws. *)

Inductive authFailure :=
  | NoToken
  | TokenInvalidOrExpired
  | NotAuthorizedUser.

Module AuthMiddleware.
Section WithJwt.
Variable verify : string -> option ObjectId.

Definition space : Ascii.ascii := Ascii.ascii_of_nat 32.

(** [s.split(" ")]: the pieces between the spaces. *)
Fixpoint split (s : string) : list string :=
  match s with
  | EmptyString => [EmptyString]
  | String c rest =>
      if Ascii.eqb c space then EmptyString :: split rest
      else match split rest with
           | piece :: pieces => String c piece :: pieces
           | [] => [String c EmptyString]
           end
  end.

Definition authRequired (authorization : option string)
    (users : list User.t) : authFailure + User.t :=
  let authHeader :=
    match authorization with
    | Some h => h
    | None => EmptyString
    end in
  let token :=
    if String.prefix "Bearer " authHeader
    then nth_error (split authHeader) 1
    else None in
  match token with
  | None => inl NoToken
  | Some token =>
      if negb (truthy token) then inl NoToken else
      match verify token with
      | None => inl TokenInvalidOrExpired
      | Some id =>
          match findDoc User._id id users with
          | None => inl NotAuthorizedUser
          | Some user =>
              if negb (String.eqb (User.role user) "admin")
                 || negb (User.isActive user)
              then inl NotAuthorizedUser
              else inr user
          end
      end
  end.

End WithJwt.
End AuthMiddleware.

(** * Further properties of the handlers *)

(** ** Requests that are turned down *)

Section RejectedRequests.

Definition failureOf {A : Type} (x : failure + A) : option failure :=
  match x with inl e => Some e | inr _ => None end.

(** The failure a request is answered with, if it is. *)
Definition rejection (r : Request) (db : Db) : option failure :=
  match r with
  | GenerateMonthly today =>
      failureOf (result (InvoiceRoutes.generateMonthly today) db)
  | ScheduledTask today =>
      failureOf (result (InvoiceCronService.scheduledTask today) db)
  | PayInvoice now id body =>
      failureOf (result (InvoiceRoutes.payInvoice now id body) db)
  | RecalculateLateFees today =>
      failureOf (result (InvoiceRoutes.recalculateLateFees today) db)
  | CreateLease body => failureOf (result (LeaseRoutes.createLease body) db)
  | EndLease now id body =>
      failureOf (result (LeaseRoutes.endLease now id body) db)
  | UpdateRoom id body => failureOf (result (RoomRoutes.updateRoom id body) db)
  | UpdateSettings body =>
      failureOf (result (SettingsRoutes.updateSettings body) db)
  | CreateLightBill body =>
      failureOf (result (LightBillRoutes.createLightBill body) db)
  | PayLightBill id body =>
      failureOf (result (LightBillRoutes.payLightBill id body) db)
  | UpdateLightBill id body =>
      failureOf (result (LightBillRoutes.updateLightBill id body) db)
  | DeleteLightBill id =>
      failureOf (result (LightBillRoutes.deleteLightBill id) db)
  | VariantGenerateMonthly today =>
      failureOf (result (InvoiceRoutesVariant.generateMonthly today) db)
  | VariantRecalculateLateFees today =>
      failureOf (result (InvoiceRoutesVariant.recalculateLateFees today) db)
  end.

(** The requests that create invoices in a loop. *)
Definition generator (r : Request) : bool :=
  match r with
  | GenerateMonthly _ | ScheduledTask _ | VariantGenerateMonthly _ => true
  | _ => false
  end.

Lemma saveEach_returns (step : Invoice.t -> option Invoice.t)
    (found : list Invoice.t) :
  forall n db, exists m, fst (saveEach step found n db) = inr m.
Proof.
  induction found as [|x found IH]; intros n db; [now exists n|].
  cbn [saveEach]. destruct (step x); [|apply IH].
  unfold Invoice_save. unfold_handler. apply IH.
Qed.

Lemma Room_assign_absent id body (l : list Room.t) :
  findDoc Room._id id (RoomRoutes.Room_assign id body l) = None ->
  RoomRoutes.Room_assign id body l = l.
Proof.
  induction l as [|r rest IH]; [reflexivity|]. cbn.
  destruct (Nat.eqb (Room._id r) id) eqn:E; unfold findDoc; cbn; rewrite E;
    [discriminate|].
  intro H. f_equal. apply IH. exact H.
Qed.

Lemma set_rooms_same db : set_rooms (rooms db) db = db.
Proof. now destruct db. Qed.

Ltac turned_down :=
  unfold exec, result, failureOf; unfold_handler; cbn;
  repeat (match goal with
          | |- context [match ?x with _ => _ end] =>
              match type of x with
              | bool => destruct x
              | option _ => destruct x
              end
          end; cbn);
  try reflexivity; try discriminate.

Lemma handle_rejected (r : Request) (db : Db) (e : failure) :
  generator r = false -> rejection r db = Some e -> handle r db = db.
Proof.
  destruct r as [today|today|now id body|today|body|now id body|id body|body
                |body|id body|id body|id|today|today];
    cbn [generator rejection handle]; try discriminate; intros _.
  (* [try discriminate] also closes PUT /api/settings, which never fails *)
  - unfold InvoiceRoutes.payInvoice, Invoice_findById, freshId, Invoice_save.
    turned_down.
  - unfold exec, result, InvoiceRoutes.recalculateLateFees. unfold_handler.
    destruct (settings db) as [s|]; [|reflexivity].
    rewrite recalculateLoop_saveEach.
    match goal with
    | |- context [saveEach ?f ?l ?n ?d] =>
        destruct (saveEach_returns f l n d) as [m ->]
    end.
    cbn. discriminate.
  - unfold LeaseRoutes.createLease, freshId. turned_down.
  - unfold LeaseRoutes.endLease. turned_down.
  - unfold exec, result, RoomRoutes.updateRoom. unfold_handler.
    destruct (match RoomReq.name body with
              | Some n => String.eqb n EmptyString | None => false end);
      [reflexivity|].
    destruct (match RoomReq.name body with
              | Some n => find _ (rooms db) | None => None end);
      [reflexivity|]. cbn.
    destruct (find _ (RoomRoutes.Room_assign id body (rooms db))) eqn:E;
      [cbn; discriminate|].
    intros _. cbn. rewrite (@Room_assign_absent id body (rooms db) E).
    apply set_rooms_same.
  - unfold exec, result, LightBillRoutes.createLightBill.
    unfold LightBillRoutes.resolveFromRoom, freshId. turned_down.
  - unfold LightBillRoutes.payLightBill, LightBillRoutes.LightBill_save.
    turned_down.
  - unfold LightBillRoutes.updateLightBill, LightBillRoutes.LightBill_save.
    turned_down.
  - unfold LightBillRoutes.deleteLightBill. turned_down.
  - unfold exec, result, InvoiceRoutesVariant.recalculateLateFees.
    unfold_handler.
    destruct (settings db) as [s|]; [|reflexivity].
    rewrite variant_recalculateLoop_saveEach.
    match goal with
    | |- context [saveEach ?f ?l ?n ?d] =>
        destruct (saveEach_returns f l n d) as [m ->]
    end.
    cbn. discriminate.
Qed.



End RejectedRequests.

(** ** When a generator run goes through *)

Section GeneratorOutcome.
Import JsDate.

(** The tenant and the room a lease refers to are stored. *)
Definition resolvable (db : Db) (l : Lease.t) : Prop :=
  findDoc Tenant._id (Lease.tenant l) (tenants db) <> None
  /\ findDoc Room._id (Lease.room l) (rooms db) <> None.

Lemma generateWith_failure dueOf today periodFrom periodTo ls :
  forall created db e db',
    generateWith dueOf today periodFrom periodTo ls created db = (inl e, db') ->
    e = ServerError
    /\ exists x, In x ls /\ (snd (fst x) = None \/ snd x = None).
Proof.
  induction ls as [|[[lease tenant] room] rest IH]; intros created db e db';
    [discriminate|].
  cbn [generateWith]. unfold Invoice_findOne. unfold_handler.
  destruct (find _ (invoices db)).
  - intro H. destruct (IH _ _ _ _ H) as (He & x & Hx & Hnone).
    split; [exact He|]. exists x. split; [now right|exact Hnone].
  - destruct tenant as [tenantDoc|]; cbn.
    + destruct room as [roomDoc|]; cbn.
      * unfold Invoice_create, freshId. unfold_handler. cbn.
        intro H. destruct (IH _ _ _ _ H) as (He & x & Hx & Hnone).
        split; [exact He|]. exists x. split; [now right|exact Hnone].
      * intros [= <- _]. split; [reflexivity|].
        exists (lease, Some tenantDoc, None). split; [now left|now right].
    + intros [= <- _]. split; [reflexivity|].
      exists (lease, None, room). split; [now left|now left].
Qed.

Lemma generateWith_goes_through dueOf today periodFrom periodTo ls :
  forall created db,
    (forall x, In x ls -> snd (fst x) <> None /\ snd x <> None) ->
    exists created' db',
      generateWith dueOf today periodFrom periodTo ls created db
      = (inr created', db')
      /\ forall x, In x ls ->
           find (samePeriod (Lease._id (fst (fst x))) periodFrom periodTo)
                (invoices db') <> None.
Proof.
  intros created db Hls.
  destruct (generateWith dueOf today periodFrom periodTo ls created db)
    as [[e|created'] db'] eqn:Erun.
  - destruct (generateWith_failure _ _ _ _ _ _ _ Erun) as (_ & x & Hx & Hnone).
    destruct (Hls x Hx) as [Ht Hr]. destruct Hnone; contradiction.
  - exists created', db'. split; [reflexivity|].
    clear Hls. revert created db created' db' Erun.
    induction ls as [|[[lease tenant] room] rest IH];
      intros created db created' db' Erun x Hx; [destruct Hx|].
    pose proof (generateWith_effect dueOf today periodFrom periodTo rest)
      as Heff.
    cbn [generateWith] in Erun. unfold Invoice_findOne in Erun.
    unfold_handler.
    destruct (find (samePeriod (Lease._id lease) periodFrom periodTo)
                (invoices db)) eqn:Efind.
    + destruct Hx as [<- | Hx]; [|exact (IH _ _ _ _ Erun x Hx)].
      destruct (Heff created db) as (extra & [_ _ _ _ _ _ Hex] & _).
      rewrite Erun in Hex. cbn in Hex. cbn [fst]. rewrite Hex.
      apply find_app_some. congruence.
    + destruct tenant as [tenantDoc|]; cbn in Erun; [|discriminate].
      destruct room as [roomDoc|]; cbn in Erun; [|discriminate].
      unfold Invoice_create, freshId in Erun. unfold_handler. cbn in Erun.
      destruct Hx as [<- | Hx]; [|exact (IH _ _ _ _ Erun x Hx)].
      match type of Erun with
      | generateWith _ _ _ _ _ (_ ++ [?i]) ?d = _ =>
          destruct (Heff (created ++ [i]) d)
            as (extra & [_ _ _ _ _ _ Hex] & _);
          rewrite Erun in Hex; cbn in Hex; cbn [fst]; rewrite Hex;
          apply find_app_some; apply (@find_witness _ _ _ i)
      end.
      * apply in_or_app. right. now left.
      * apply samePeriod_key. reflexivity.
Qed.

End GeneratorOutcome.

(** ** What a request leaves alone *)

Ltac handler_cases :=
  unfold exec; unfold_handler; cbn;
  repeat (match goal with
          | |- context [match ?x with _ => _ end] =>
              match type of x with
              | bool => destruct x
              | option _ => destruct x
              end
          end; cbn);
  auto.

Section Frames.

(** The collections other than the invoices. *)
Record sameParties (db db' : Db) : Prop := {
  same_rooms : rooms db' = rooms db;
  same_tenants : tenants db' = tenants db;
  same_leases : leases db' = leases db;
  same_payments : payments db' = payments db;
  same_settings : settings db' = settings db
}.

Lemma sameParties_refl db : sameParties db db.
Proof. now constructor. Qed.

Lemma saveEach_sameParties (step : Invoice.t -> option Invoice.t)
    (found : list Invoice.t) :
  forall n db, sameParties db (snd (saveEach step found n db)).
Proof.
  induction found as [|x found IH]; intros n db; [apply sameParties_refl|].
  cbn [saveEach]. destruct (step x); [|apply IH].
  unfold Invoice_save. unfold_handler.
  match goal with
  | |- context [saveEach step found ?m ?d] => destruct (IH m d) as [A B C D E]
  end.
  constructor; assumption.
Qed.

Lemma recalculateLateFees_sameParties today db :
  sameParties db (exec (InvoiceRoutes.recalculateLateFees today) db).
Proof.
  unfold exec, InvoiceRoutes.recalculateLateFees. unfold_handler.
  destruct (settings db); [|apply sameParties_refl].
  rewrite recalculateLoop_saveEach. apply saveEach_sameParties.
Qed.

Lemma variant_recalculateLateFees_sameParties today db :
  sameParties db (exec (InvoiceRoutesVariant.recalculateLateFees today) db).
Proof.
  unfold exec, InvoiceRoutesVariant.recalculateLateFees. unfold_handler.
  destruct (settings db); [|apply sameParties_refl].
  rewrite variant_recalculateLoop_saveEach. apply saveEach_sameParties.
Qed.

Lemma generateWith_sameParties dueOf today periodFrom periodTo ls created db :
  sameParties db
    (snd (generateWith dueOf today periodFrom periodTo ls created db)).
Proof.
  destruct (generateWith_effect dueOf today periodFrom periodTo ls created db)
    as (extra & [H1 H2 H3 H4 _ H6 _] & _).
  constructor; assumption.
Qed.

(** What each request can change, of the collections other than the
    invoices and the light bills. *)
Lemma handle_frame (r : Request) (db : Db) :
  tenants (handle r db) = tenants db
  /\ match r with
     | PayInvoice _ _ _ => True
     | _ => payments (handle r db) = payments db
     end
  /\ match r with
     | UpdateSettings _ => True
     | _ => settings (handle r db) = settings db
     end
  /\ match r with
     | CreateLease _ | EndLease _ _ _ => True
     | _ => leases (handle r db) = leases db
     end
  /\ match r with
     | CreateLease _ | EndLease _ _ _ | UpdateRoom _ _ => True
     | _ => rooms (handle r db) = rooms db
     end.
Proof.
  destruct r as [today|today|now id body|today|body|now id body|id body|body
                |body|id body|id body|id|today|today]; cbn [handle].
  - unfold exec. rewrite generateMonthly_generateWith.
    now destruct (generateWith_sameParties
      (fun l => JsDate.newDate (JsDate.getFullYear today)
                  (JsDate.getMonth today + 1) (billingDayOr1 l))
      today (periodFromOf today) (periodToOf today) (activeLeases db) [] db).
  - unfold exec. rewrite scheduledTask_generateWith.
    now destruct (generateWith_sameParties
      (fun l => JsDate.newDate (JsDate.getFullYear today)
                  (JsDate.getMonth today) (billingDayOr1 l))
      today (periodFromOf today) (periodToOf today) (activeLeases db) [] db).
  - unfold InvoiceRoutes.payInvoice, Invoice_findById, freshId, Invoice_save.
    handler_cases.
  - now destruct (recalculateLateFees_sameParties today db).
  - unfold LeaseRoutes.createLease, freshId. handler_cases.
  - unfold LeaseRoutes.endLease. handler_cases.
  - unfold RoomRoutes.updateRoom. handler_cases.
  - cbn. auto.
  - unfold LightBillRoutes.createLightBill, LightBillRoutes.resolveFromRoom,
      freshId. handler_cases.
  - unfold LightBillRoutes.payLightBill, LightBillRoutes.LightBill_save.
    handler_cases.
  - unfold LightBillRoutes.updateLightBill, LightBillRoutes.LightBill_save.
    handler_cases.
  - unfold LightBillRoutes.deleteLightBill. handler_cases.
  - unfold exec. rewrite variant_generateMonthly_scheduledTask.
    rewrite scheduledTask_generateWith.
    now destruct (generateWith_sameParties
      (fun l => JsDate.newDate (JsDate.getFullYear today)
                  (JsDate.getMonth today) (billingDayOr1 l))
      today (periodFromOf today) (periodToOf today) (activeLeases db) [] db).
  - now destruct (variant_recalculateLateFees_sameParties today db).
Qed.

End Frames.

(** ** Leases and rooms *)

Section LeaseEffects.
Local Open Scope Q_scope.

(** What POST /api/leases does when it accepts the request. *)
Record leaseCreated (body : LeaseReq.t) (db db' : Db) (lease : Lease.t)
    : Prop := {
  created_tenant : LeaseReq.tenant body = Some (Lease.tenant lease);
  created_room : LeaseReq.room body = Some (Lease.room lease);
  created_startDate : LeaseReq.startDate body = Some (Lease.startDate lease);
  created_endDate : Lease.endDate lease = LeaseReq.endDate body;
  created_rent : LeaseReq.rentPerMonth body = Some (Lease.rentPerMonth lease);
  created_rent_positive : 0 < Lease.rentPerMonth lease;
  created_deposit_positive : 0 < Lease.depositAgreed lease;
  created_status : Lease.status lease = active;
  created_id : Lease._id lease = nextId db;
  created_tenant_stored :
    findDoc Tenant._id (Lease.tenant lease) (tenants db) <> None;
  created_room_free :
    exists roomDoc,
      findDoc Room._id (Lease.room lease) (rooms db) = Some roomDoc
      /\ Room.status roomDoc <> occupied;
  created_leases : leases db' = leases db ++ [lease];
  created_rooms :
    rooms db'
    = LeaseRoutes.Room_update (Lease.room lease) occupied
        (Some (Lease._id lease)) (rooms db);
  created_nextId : nextId db' = S (nextId db)
}.

Lemma RoomStatus_eqb_eq a b : RoomStatus_eqb a b = true <-> a = b.
Proof. destruct a, b; cbn; split; congruence. Qed.

Lemma LeaseStatus_eqb_eq a b : LeaseStatus_eqb a b = true <-> a = b.
Proof. destruct a, b; cbn; split; congruence. Qed.

Lemma createLease_accepted body db lease db' :
  LeaseRoutes.createLease body db = (inr lease, db') ->
  leaseCreated body db db' lease.
Proof.
  unfold LeaseRoutes.createLease.
  destruct (LeaseReq.tenant body) as [tenant|] eqn:Btenant; [|discriminate].
  destruct (LeaseReq.room body) as [room|] eqn:Broom; [|discriminate].
  unfold_handler.
  destruct (LeaseReq.startDate body) as [startDate|] eqn:Bstart;
    [|discriminate].
  destruct (LeaseReq.rentPerMonth body) as [rent|] eqn:Brent; [|discriminate].
  destruct (falsyQ rent || Qle_bool rent 0) eqn:Erent; [discriminate|].
  destruct (LeaseReq.depositAgreed body) as [deposit|] eqn:Bdep;
    [|discriminate].
  destruct (falsyQ deposit || Qlt_bool deposit 0) eqn:Edep; [discriminate|].
  destruct (findDoc Tenant._id tenant (tenants db)) eqn:Et; [|discriminate].
  destruct (findDoc Room._id room (rooms db)) as [roomDoc|] eqn:Er;
    [|discriminate].
  destruct (RoomStatus_eqb (Room.status roomDoc) occupied) eqn:Eocc;
    [discriminate|].
  destruct (find _ (leases db)); [discriminate|].
  unfold freshId. cbn. intros [= <- <-].
  constructor; cbn; try reflexivity; try assumption.
  - apply Qnot_le_lt. intro H. apply notPositive_iff in H. congruence.
  - apply orb_false_iff in Edep. destruct Edep as [Ez Eneg].
    apply Qlt_bool_false_iff in Eneg. unfold falsyQ in Ez.
    apply Qnot_le_lt. intro H.
    assert (Heq : deposit == 0) by (apply Qle_antisym; assumption).
    apply Qeq_bool_iff in Heq. congruence.
  - congruence.
  - exists roomDoc. split; [exact Er|]. intro H.
    apply RoomStatus_eqb_eq in H. congruence.
Qed.

Lemma createLease_rejected body db e db' :
  LeaseRoutes.createLease body db = (inl e, db') -> db' = db.
Proof.
  intro H.
  pose proof (@handle_rejected (CreateLease body) db e eq_refl) as Hsame.
  cbn in Hsame. unfold result, exec in Hsame. rewrite H in Hsame.
  exact (Hsame eq_refl).
Qed.

End LeaseEffects.

(** ** Document [_id]s *)

Section FreshIds.

Lemma generateWith_nextId dueOf today periodFrom periodTo ls :
  forall created db,
    (nextId db
     <= nextId (snd (generateWith dueOf today periodFrom periodTo ls
                       created db)))%nat.
Proof.
  induction ls as [|[[lease tenant] room] rest IH]; intros created db;
    [cbn; lia|].
  cbn [generateWith]. unfold Invoice_findOne. unfold_handler.
  destruct (find _ (invoices db)); [apply IH|].
  destruct tenant as [tenantDoc|]; cbn; [|lia].
  destruct room as [roomDoc|]; cbn; [|lia].
  unfold Invoice_create, freshId. unfold_handler. cbn.
  match goal with
  | |- context [generateWith _ _ _ _ _ ?c ?d] =>
      pose proof (IH c d) as H; cbn in H
  end.
  unfold ObjectId in *. lia.
Qed.

(** No request takes an [_id] back. *)
Lemma handle_nextId (r : Request) (db : Db) :
  (nextId db <= nextId (handle r db))%nat.
Proof.
  destruct r as [today|today|now id body|today|body|now id body|id body|body
                |body|id body|id body|id|today|today]; cbn [handle].
  - unfold exec. rewrite generateMonthly_generateWith.
    apply generateWith_nextId.
  - unfold exec. rewrite scheduledTask_generateWith.
    apply generateWith_nextId.
  - exact (proj2 (payInvoice_idsKept now id body db)).
  - exact (proj2 (recalculateLateFees_idsKept today db)).
  - exact (proj2 (createLease_idsKept body db)).
  - exact (proj2 (endLease_idsKept now id body db)).
  - exact (proj2 (updateRoom_idsKept id body db)).
  - cbn. lia.
  - exact (proj2 (createLightBill_idsKept body db)).
  - exact (proj2 (payLightBill_idsKept id body db)).
  - exact (proj2 (updateLightBill_idsKept id body db)).
  - exact (proj2 (deleteLightBill_idsKept id db)).
  - rewrite variant_generateMonthly_scheduledTask.
    unfold exec. rewrite scheduledTask_generateWith.
    apply generateWith_nextId.
  - exact (proj2 (variant_recalculateLateFees_idsKept today db)).
Qed.

(** The [_id]s of a collection are distinct and have been handed out. *)
Definition handedOut (n : ObjectId) (ids : list ObjectId) : Prop :=
  NoDup ids /\ Forall (fun id => (id < n)%nat) ids.

Lemma handedOut_later n m ids :
  (n <= m)%nat -> handedOut n ids -> handedOut m ids.
Proof.
  intros Hle [Hnd Hlt]. split; [exact Hnd|].
  eapply Forall_impl; [|exact Hlt].
  intros id H. cbv beta in *. unfold ObjectId in *. lia.
Qed.

Lemma handedOut_snoc n ids :
  handedOut n ids -> handedOut (S n) (ids ++ [n]).
Proof.
  intros [Hnd Hlt]. split.
  - apply NoDup_app; [exact Hnd|repeat constructor; intros []|].
    intros id Hid [<- | []]. rewrite Forall_forall in Hlt.
    specialize (Hlt _ Hid). cbv beta in *. unfold ObjectId in *. lia.
  - apply Forall_app. split; [|repeat constructor].
    eapply Forall_impl; [|exact Hlt].
    intros id H. cbv beta in *. unfold ObjectId in *. lia.
Qed.


End FreshIds.

Section DocumentIds.
Variable A : Type.
Variable idOf : A -> ObjectId.

Lemma findDoc_None_iff (id : ObjectId) (l : list A) :
  findDoc idOf id l = None <-> ~ In id (map idOf l).
Proof.
  unfold findDoc. induction l as [|x l IH]; cbn; [tauto|].
  destruct (Nat.eqb_spec (idOf x) id) as [E|E].
  - split; [discriminate|]. intro H. exfalso. apply H. now left.
  - rewrite IH. tauto.
Qed.

Lemma findDoc_same_ids (id : ObjectId) (l l' : list A) :
  map idOf l' = map idOf l ->
  findDoc idOf id l <> None -> findDoc idOf id l' <> None.
Proof.
  intros Hids H Hnone. apply H. apply findDoc_None_iff.
  rewrite <- Hids. now apply findDoc_None_iff.
Qed.

Lemma map_idOf_saveDoc (y : A) (l : list A) :
  map idOf (saveDoc idOf y l) = map idOf l.
Proof.
  induction l as [|x l IH]; [reflexivity|]. cbn.
  destruct (Nat.eqb_spec (idOf x) (idOf y)) as [E|E]; cbn.
  - now rewrite E.
  - now rewrite IH.
Qed.

Lemma findDoc_snoc_fresh (y : A) (l : list A) :
  ~ In (idOf y) (map idOf l) ->
  findDoc idOf (idOf y) (l ++ [y]) = Some y.
Proof.
  intro H. unfold findDoc. induction l as [|x l IH]; cbn.
  - now rewrite Nat.eqb_refl.
  - cbn in H. destruct (Nat.eqb_spec (idOf x) (idOf y)) as [E|E];
      [exfalso; apply H; now left|].
    apply IH. intro Hin. apply H. now right.
Qed.

Lemma findDoc_snoc_other (id : ObjectId) (y : A) (l : list A) :
  idOf y <> id ->
  findDoc idOf id (l ++ [y]) = findDoc idOf id l.
Proof.
  intro H. unfold findDoc. induction l as [|x l IH]; cbn.
  - destruct (Nat.eqb_spec (idOf y) id); [contradiction|reflexivity].
  - destruct (Nat.eqb (idOf x) id); [reflexivity|exact IH].
Qed.

Lemma findDoc_saveDoc_same (y : A) (l : list A) :
  findDoc idOf (idOf y) l <> None ->
  findDoc idOf (idOf y) (saveDoc idOf y l) = Some y.
Proof.
  unfold findDoc. induction l as [|x l IH]; cbn; [congruence|].
  destruct (Nat.eqb_spec (idOf x) (idOf y)) as [E|E]; cbn.
  - now rewrite Nat.eqb_refl.
  - destruct (Nat.eqb_spec (idOf x) (idOf y)); [contradiction|exact IH].
Qed.

Lemma findDoc_saveDoc_other (id : ObjectId) (y : A) (l : list A) :
  idOf y <> id ->
  findDoc idOf id (saveDoc idOf y l) = findDoc idOf id l.
Proof.
  intro H. unfold findDoc. induction l as [|x l IH]; cbn; [reflexivity|].
  destruct (Nat.eqb_spec (idOf x) (idOf y)) as [E|E]; cbn.
  - destruct (Nat.eqb_spec (idOf y) id); [contradiction|].
    destruct (Nat.eqb_spec (idOf x) id); [congruence|reflexivity].
  - destruct (Nat.eqb (idOf x) id); [reflexivity|exact IH].
Qed.



Lemma findDoc_deleteDoc_same (id : ObjectId) (l : list A) :
  NoDup (map idOf l) ->
  findDoc idOf id (deleteDoc idOf id l) = None.
Proof.
  intro Hnd. induction l as [|x l IH]; [reflexivity|]. cbn.
  inversion Hnd as [|? ? Hx Hnd']; subst.
  destruct (Nat.eqb_spec (idOf x) id) as [E|E].
  - apply findDoc_None_iff. now rewrite <- E.
  - unfold findDoc. cbn. destruct (Nat.eqb_spec (idOf x) id);
      [contradiction|]. now apply IH.
Qed.

Lemma findDoc_deleteDoc_other (id id' : ObjectId) (l : list A) :
  id' <> id ->
  findDoc idOf id' (deleteDoc idOf id l) = findDoc idOf id' l.
Proof.
  intro H. unfold findDoc. induction l as [|x l IH]; [reflexivity|]. cbn.
  destruct (Nat.eqb_spec (idOf x) id) as [E|E]; cbn.
  - destruct (Nat.eqb_spec (idOf x) id'); [congruence|reflexivity].
  - destruct (Nat.eqb (idOf x) id'); [reflexivity|exact IH].
Qed.



End DocumentIds.

Section RoomsAndLeases.
Local Open Scope Q_scope.

Lemma Room_update_ids id st cur (l : list Room.t) :
  map Room._id (LeaseRoutes.Room_update id st cur l) = map Room._id l.
Proof.
  induction l as [|r l IH]; [reflexivity|]. cbn.
  destruct (Nat.eqb (Room._id r) id); cbn; [reflexivity|now rewrite IH].
Qed.

Lemma Room_assign_ids id body (l : list Room.t) :
  map Room._id (RoomRoutes.Room_assign id body l) = map Room._id l.
Proof.
  induction l as [|r l IH]; [reflexivity|]. cbn.
  destruct (Nat.eqb (Room._id r) id); cbn; [reflexivity|now rewrite IH].
Qed.

Lemma findDoc_Room_update id st cur (l : list Room.t) (r : Room.t) :
  findDoc Room._id id l = Some r ->
  findDoc Room._id id (LeaseRoutes.Room_update id st cur l)
  = Some {| Room._id := Room._id r; Room.name := Room.name r;
            Room.status := st; Room.currentLease := cur |}.
Proof.
  unfold findDoc. induction l as [|x l IH]; cbn; [discriminate|].
  destruct (Nat.eqb (Room._id x) id) eqn:E; cbn; rewrite E.
  - now intros [= ->].
  - exact IH.
Qed.

Lemma findDoc_Room_update_other id id' st cur (l : list Room.t) :
  id' <> id ->
  findDoc Room._id id' (LeaseRoutes.Room_update id st cur l)
  = findDoc Room._id id' l.
Proof.
  intro H. unfold findDoc. induction l as [|x l IH]; cbn; [reflexivity|].
  destruct (Nat.eqb_spec (Room._id x) id) as [E|E]; cbn.
  - destruct (Nat.eqb_spec (Room._id x) id'); [congruence|reflexivity].
  - destruct (Nat.eqb (Room._id x) id'); [reflexivity|exact IH].
Qed.

(** What PATCH /api/leases/:id/end does when it finds the lease. *)
Record leaseEnded (now : Date) (id : ObjectId) (body : EndLeaseReq.t)
    (db db' : Db) (lease lease' : Lease.t) : Prop := {
  ended_found : findDoc Lease._id id (leases db) = Some lease;
  ended_id : Lease._id lease' = Lease._id lease;
  ended_tenant : Lease.tenant lease' = Lease.tenant lease;
  ended_room : Lease.room lease' = Lease.room lease;
  ended_startDate : Lease.startDate lease' = Lease.startDate lease;
  ended_rent : Lease.rentPerMonth lease' = Lease.rentPerMonth lease;
  ended_endDate :
    Lease.endDate lease'
    = Some (match EndLeaseReq.endDate body with Some d => d | None => now end);
  ended_status : Lease.status lease' = ended;
  ended_notes : Lease.notes lease' = EndLeaseReq.notes body;
  ended_leases : leases db' = saveDoc Lease._id lease' (leases db);
  ended_rooms :
    rooms db'
    = LeaseRoutes.Room_update (Lease.room lease) vacant None (rooms db);
  ended_nextId : nextId db' = nextId db
}.

Lemma endLease_cases now id body db :
  match findDoc Lease._id id (leases db) with
  | Some lease =>
      exists lease' db',
        LeaseRoutes.endLease now id body db = (inr lease', db')
        /\ leaseEnded now id body db db' lease lease'
  | None => LeaseRoutes.endLease now id body db = (inl LeaseNotFound, db)
  end.
Proof.
  unfold LeaseRoutes.endLease. unfold_handler.
  destruct (findDoc Lease._id id (leases db)) as [lease|] eqn:E;
    [|reflexivity].
  cbn. eexists. eexists. split; [reflexivity|].
  constructor; cbn; try reflexivity. exact E.
Qed.

(** The [_id]s of the leases are distinct and have been handed out. *)
Definition leaseIds (db : Db) : Prop :=
  handedOut (nextId db) (map Lease._id (leases db)).

Lemma createLease_run body db :
  (exists e, LeaseRoutes.createLease body db = (inl e, db))
  \/ exists lease db',
       LeaseRoutes.createLease body db = (inr lease, db')
       /\ leaseCreated body db db' lease.
Proof.
  destruct (LeaseRoutes.createLease body db) as [[e|lease] db'] eqn:E.
  - left. exists e. now rewrite (createLease_rejected _ _ E).
  - right. exists lease, db'. split; [reflexivity|].
    now apply createLease_accepted.
Qed.

Lemma handle_keeps_leaseIds (r : Request) (db : Db) :
  leaseIds db -> leaseIds (handle r db).
Proof.
  intro H. unfold leaseIds in *.
  pose proof (handle_nextId r db) as Hnext.
  pose proof (handle_frame r db) as (_ & _ & _ & Hleases & _).
  destruct r as [today|today|now id body|today|body|now id body|id body|body
                |body|id body|id body|id|today|today];
    cbn beta iota in Hleases;
    try (rewrite Hleases; exact (handedOut_later Hnext H)); cbn [handle].
  - unfold exec.
    destruct (createLease_run body db) as [(e & ->) | (lease & db' & -> & C)];
      [exact H|]. cbn.
    destruct C. rewrite created_leases0, created_nextId0, map_app. cbn.
    rewrite created_id0. now apply handedOut_snoc.
  - unfold exec. pose proof (endLease_cases now id body db) as C.
    destruct (findDoc Lease._id id (leases db)) as [lease|];
      [destruct C as (lease' & db' & -> & C)|rewrite C; exact H].
    cbn. destruct C. rewrite ended_leases0, ended_nextId0.
    now rewrite map_idOf_saveDoc.
Qed.

(** Every lease refers to a stored tenant and a stored room. *)
Definition referencesResolve (db : Db) : Prop :=
  Forall (resolvable db) (leases db).

Lemma resolvable_same db db' l :
  tenants db' = tenants db ->
  map Room._id (rooms db') = map Room._id (rooms db) ->
  resolvable db l -> resolvable db' l.
Proof.
  intros Ht Hr [H1 H2]. split; [now rewrite Ht|].
  exact (findDoc_same_ids Room._id _ _ _ Hr H2).
Qed.

Lemma handle_keeps_referencesResolve (r : Request) (db : Db) :
  referencesResolve db -> referencesResolve (handle r db).
Proof.
  intro H. unfold referencesResolve in *.
  pose proof (handle_frame r db) as (Htenants & _ & _ & Hleases & Hrooms).
  destruct r as [today|today|now id body|today|body|now id body|id body|body
                |body|id body|id body|id|today|today];
    cbn beta iota in Hleases, Hrooms;
    try (rewrite Hleases; eapply Forall_impl; [|exact H];
         intros l Hl; apply (@resolvable_same _ _ _ Htenants); [|exact Hl];
         now rewrite Hrooms);
    cbn [handle] in *.
  - unfold exec in *.
    destruct (createLease_run body db) as [(e & E) | (lease & db' & E & C)];
      rewrite E in *; [exact H|]. cbn in *.
    destruct C.
    assert (Hr : map Room._id (rooms db') = map Room._id (rooms db))
      by (rewrite created_rooms0; apply Room_update_ids).
    rewrite created_leases0. apply Forall_app. split.
    + eapply Forall_impl; [|exact H].
      intros l Hl. exact (@resolvable_same _ _ _ Htenants Hr Hl).
    + constructor; [|constructor].
      apply (@resolvable_same _ _ _ Htenants Hr). split; [assumption|].
      destruct created_room_free0 as (roomDoc & -> & _). discriminate.
  - unfold exec in *. pose proof (endLease_cases now id body db) as C.
    destruct (findDoc Lease._id id (leases db)) as [lease|] eqn:Efind;
      [destruct C as (lease' & db' & E & C)|rewrite C; exact H].
    rewrite E in *. cbn in *. destruct C.
    assert (Hr : map Room._id (rooms db') = map Room._id (rooms db))
      by (rewrite ended_rooms0; apply Room_update_ids).
    rewrite ended_leases0. apply Forall_saveDoc.
    + eapply Forall_impl; [|exact H].
      intros l Hl. exact (@resolvable_same _ _ _ Htenants Hr Hl).
    + apply (@resolvable_same _ _ _ Htenants Hr).
      rewrite Forall_forall in H. specialize (H lease (findDoc_In _ _ _ Efind)).
      destruct H as [H1 H2]. split; [now rewrite ended_tenant0|].
      now rewrite ended_room0.
  - unfold exec in *. rewrite Hleases. eapply Forall_impl; [|exact H].
    intros l Hl. apply (@resolvable_same _ _ _ Htenants); [|exact Hl].
    unfold RoomRoutes.updateRoom. handler_cases; apply Room_assign_ids.
Qed.

End RoomsAndLeases.

Lemma findDoc_unique (A : Type) (idOf : A -> ObjectId) (x : A) (l : list A) :
  NoDup (map idOf l) -> In x l -> findDoc idOf (idOf x) l = Some x.
Proof.
  intros Hnd Hin.
  pose proof (@findDoc_map A idOf (fun y => y) x l (fun y => eq_refl) Hnd Hin)
    as H.
  now rewrite map_id in H.
Qed.

Lemma serve_keeps (P : Db -> Prop) :
  (forall r db, P db -> P (handle r db)) ->
  forall rs db, P db -> P (serve rs db).
Proof.
  intros Hstep rs. induction rs as [|r rs IH]; intros db H; [exact H|].
  cbn. apply IH. now apply Hstep.
Qed.

Section GeneratorsGoThrough.
Import JsDate.

(** [TimeClip]: a time value is a date within 8.64e15 ms of the epoch;
    beyond, [new Date] gives an Invalid Date, which cannot be stored. *)
Definition validTime (t : Date) : Prop :=
  (-8640000000000000 <= t <= 8640000000000000)%Z.

(** In a database whose leases refer to stored tenants and rooms, and in
    every database the requests lead to from there, POST
    /api/invoices/generate-monthly goes through, and afterwards every
    active lease has an invoice for the month of the run; this for a
    clock, a period and billing days (which are stored as they come) that
    give the dates of the invoices as valid dates. *)
Theorem generateMonthly_goes_through
    (rs : list Request) (db0 : Db) (today : Date) :
  referencesResolve db0 ->
  let db := serve rs db0 in
  validTime today ->
  validTime (periodFromOf today) ->
  validTime (periodToOf today) ->
  (forall l, In l (leases db) -> isActive l = true ->
     validTime (newDate (getFullYear today) (getMonth today + 1)
                  (billingDayOr1 l))) ->
  exists created db',
    InvoiceRoutes.generateMonthly today db = (inr created, db')
    /\ forall l, In l (leases db) -> isActive l = true ->
         exists i,
           In i (invoices db')
           /\ Invoice.lease i = Lease._id l
           /\ Invoice.periodFrom i = periodFromOf today
           /\ Invoice.periodTo i = periodToOf today.
Proof.
  intros H0 db _ _ _ _.
  assert (H : referencesResolve db)
    by (apply serve_keeps; [apply handle_keeps_referencesResolve|exact H0]).
  clearbody db. rewrite generateMonthly_generateWith.
  match goal with
  | |- context [generateWith ?f ?t ?pf ?pt ?ls ?c ?d] =>
      destruct (@generateWith_goes_through f t pf pt ls c d)
        as (created & db' & Hrun & Hall)
  end.
  - intros x Hx. unfold activeLeases in Hx. apply in_map_iff in Hx.
    destruct Hx as (l & <- & Hl). apply filter_In in Hl.
    unfold referencesResolve in H. rewrite Forall_forall in H.
    exact (H l (proj1 Hl)).
  - exists created, db'. split; [exact Hrun|].
    intros l Hl Hact.
    specialize (Hall (l, findDoc Tenant._id (Lease.tenant l) (tenants db),
                         findDoc Room._id (Lease.room l) (rooms db))).
    cbn [fst snd] in Hall.
    destruct (find (samePeriod (Lease._id l) (periodFromOf today)
                      (periodToOf today)) (invoices db')) as [i|] eqn:Efind.
    + destruct (find_some _ _ Efind) as [Hin Hkey].
      apply samePeriod_key in Hkey. injection Hkey as H1 H2 H3.
      exists i. split; [exact Hin|]. split; [exact H1|].
      split; [exact H2|exact H3].
    + exfalso. apply Hall; [|reflexivity].
      unfold activeLeases. apply in_map_iff. exists l.
      split; [reflexivity|]. apply filter_In. now split.
Qed.

Lemma generateMonthly_goes_through_witness :
  exists created db',
    InvoiceRoutes.generateMonthly Example.march10 Example.leasedDb
    = (inr created, db').
Proof.
  destruct (@generateMonthly_goes_through [CreateLease Example.leaseBody]
              Example.seedDb Example.march10)
    as (created & db' & Hrun & _).
  - constructor.
  - split; apply Z.leb_le; vm_compute; reflexivity.
  - split; apply Z.leb_le; vm_compute; reflexivity.
  - split; apply Z.leb_le; vm_compute; reflexivity.
  - intros l [<- | []] _. split; apply Z.leb_le; vm_compute; reflexivity.
  - exists created, db'. exact Hrun.
Defined.

(** A generator creates no invoice for a lease that is not active, such as
    one that has been ended. *)
Theorem generateMonthly_skips_ended_lease
    (today : Date) (db db' : Db) (created : list Invoice.t)
    (lease : Lease.t) :
  NoDup (map Lease._id (leases db)) ->
  In lease (leases db) ->
  Lease.status lease <> active ->
  InvoiceRoutes.generateMonthly today db = (inr created, db') ->
  Forall (fun i => Invoice.lease i <> Lease._id lease) created
  /\ forall i, In i (invoices db') -> Invoice.lease i = Lease._id lease ->
       In i (invoices db).
Proof.
  intros Hnd Hin Hst Hrun. rewrite generateMonthly_generateWith in Hrun.
  match type of Hrun with
  | generateWith ?f ?t ?pf ?pt ?ls ?c ?d = _ =>
      destruct (generateWith_effect f t pf pt ls c d)
        as (extra & [_ _ _ _ _ _ Hex] & Hall & Hret)
  end.
  rewrite Hrun in Hex, Hret. cbn in Hex, Hret.
  rewrite (Hret created eq_refl). cbn [app].
  assert (Hextra : Forall (fun i => Invoice.lease i <> Lease._id lease) extra).
  { eapply Forall_impl; [|exact Hall].
    intros i (e & He & Hfresh & _) Heq.
    destruct (activeLeases_In _ _ He) as [Hl Hact].
    destruct Hfresh as (Hlease & _). rewrite Hlease in Heq.
    pose proof (@findDoc_unique _ Lease._id _ _ Hnd Hl) as F1.
    pose proof (@findDoc_unique _ Lease._id _ _ Hnd Hin) as F2.
    rewrite Heq in F1. rewrite F1 in F2. injection F2 as F2.
    apply Hst. rewrite <- F2. unfold isActive in Hact.
    now apply LeaseStatus_eqb_eq in Hact. }
  split; [exact Hextra|].
  intros i Hi Heq. rewrite Hex in Hi. apply in_app_or in Hi.
  destruct Hi as [Hi|Hi]; [exact Hi|].
  rewrite Forall_forall in Hextra. now destruct (Hextra i Hi).
Qed.

End GeneratorsGoThrough.

Section LeaseLifecycle.
Local Open Scope Q_scope.

(** The requests that do not free a room: all but the end of a lease and
    the update of a room. *)
Definition keepsRooms (r : Request) : bool :=
  match r with
  | EndLease _ _ _ | UpdateRoom _ _ => false
  | _ => true
  end.

(** A request for a room that is stored as occupied, valid otherwise, is
    turned down. *)
Lemma createLease_room_occupied
    (body2 : LeaseReq.t) (db : Db) (room : ObjectId) (r : Room.t)
    (tenant2 : ObjectId) (start2 : Date) (rent2 deposit2 : Q) :
  findDoc Room._id room (rooms db) = Some r ->
  Room.status r = occupied ->
  LeaseReq.room body2 = Some room ->
  LeaseReq.tenant body2 = Some tenant2 ->
  findDoc Tenant._id tenant2 (tenants db) <> None ->
  LeaseReq.startDate body2 = Some start2 ->
  LeaseReq.rentPerMonth body2 = Some rent2 -> 0 < rent2 ->
  LeaseReq.depositAgreed body2 = Some deposit2 -> 0 < deposit2 ->
  LeaseRoutes.createLease body2 db = (inl RoomAlreadyOccupied, db).
Proof.
  intros Hfound Hocc Hroom Htenant Hstored Hstart Hrent Hrentpos Hdep Hdeppos.
  unfold LeaseRoutes.createLease. rewrite Htenant, Hroom. unfold_handler.
  rewrite Hstart, Hrent, (positive_passes Hrentpos), Hdep.
  assert (Hd : falsyQ deposit2 || Qlt_bool deposit2 0 = false).
  { apply orb_false_iff. split.
    - unfold falsyQ. destruct (Qeq_bool deposit2 0) eqn:E; [|reflexivity].
      apply Qeq_bool_iff in E. rewrite E in Hdeppos.
      now apply Qlt_irrefl in Hdeppos.
    - apply Qlt_bool_false_iff. now apply Qlt_le_weak. }
  rewrite Hd.
  destruct (findDoc Tenant._id tenant2 (tenants db)); [|congruence].
  rewrite Hfound, Hocc. reflexivity.
Qed.

(** An occupied room stays as it is under every request that is not
    the end of a lease or the update of a room. *)
Lemma handle_keeps_occupied (r : Request) (db : Db) (id : ObjectId)
    (room : Room.t) :
  keepsRooms r = true ->
  findDoc Room._id id (rooms db) = Some room ->
  Room.status room = occupied ->
  findDoc Room._id id (rooms (handle r db)) = Some room.
Proof.
  intros Hr Hfound Hocc.
  pose proof (handle_frame r db) as (_ & _ & _ & _ & Hrooms).
  destruct r as [today|today|now rid body|today|body|now rid body|rid body
                |body|body|rid body|rid body|rid|today|today];
    try discriminate Hr; cbn beta iota in Hrooms;
    try (rewrite Hrooms; exact Hfound).
  cbn [handle]. unfold exec.
  destruct (createLease_run body db) as [(e & ->) | (lease & db' & -> & C)];
    [exact Hfound|].
  cbn [snd]. rewrite (created_rooms C).
  destruct (created_room_free C) as (roomDoc & Hdoc & Hfree).
  destruct (Nat.eq_dec id (Lease.room lease)) as [-> | Hne].
  - rewrite Hfound in Hdoc. injection Hdoc as <-. contradiction.
  - now rewrite findDoc_Room_update_other.
Qed.

Lemma serve_keeps_occupied (rs : list Request) :
  forall (db : Db) (id : ObjectId) (room : Room.t),
    forallb keepsRooms rs = true ->
    findDoc Room._id id (rooms db) = Some room ->
    Room.status room = occupied ->
    findDoc Room._id id (rooms (serve rs db)) = Some room
    /\ tenants (serve rs db) = tenants db.
Proof.
  induction rs as [|r rs IH]; intros db id room Hrs Hfound Hocc;
    [now split|].
  cbn [forallb] in Hrs. apply andb_prop in Hrs as [Hr Hrs].
  change (serve (r :: rs) db) with (serve rs (handle r db)).
  destruct (IH (handle r db) id room Hrs
              (@handle_keeps_occupied r db id room Hr Hfound Hocc) Hocc)
    as [H1 H2].
  split; [exact H1|]. rewrite H2. exact (proj1 (handle_frame r db)).
Qed.

(** A lease that has been accepted leaves its room occupied and pointing
    at it; the room stays so, and every other request for the room that
    passes validation is turned down with "Room is already occupied",
    whatever its dates, until a lease is ended or a room updated: after
    any requests other than those two. *)
Theorem createLease_occupies_room
    (body body2 : LeaseReq.t) (db db' : Db) (lease : Lease.t)
    (rs : list Request)
    (tenant2 : ObjectId) (start2 : Date) (rent2 deposit2 : Q) :
  LeaseRoutes.createLease body db = (inr lease, db') ->
  forallb keepsRooms rs = true ->
  LeaseReq.room body2 = Some (Lease.room lease) ->
  LeaseReq.tenant body2 = Some tenant2 ->
  findDoc Tenant._id tenant2 (tenants db') <> None ->
  LeaseReq.startDate body2 = Some start2 ->
  LeaseReq.rentPerMonth body2 = Some rent2 -> 0 < rent2 ->
  LeaseReq.depositAgreed body2 = Some deposit2 -> 0 < deposit2 ->
  let db2 := serve rs db' in
  (exists r,
     findDoc Room._id (Lease.room lease) (rooms db2) = Some r
     /\ Room.status r = occupied
     /\ Room.currentLease r = Some (Lease._id lease))
  /\ LeaseRoutes.createLease body2 db2 = (inl RoomAlreadyOccupied, db2).
Proof.
  intros Hrun Hrs Hroom Htenant Hstored Hstart Hrent Hrentpos Hdep Hdeppos
    db2.
  pose proof (@createLease_accepted _ _ _ _ Hrun) as C.
  destruct (created_room_free C) as (roomDoc & Hfound & _).
  pose proof (@findDoc_Room_update _ occupied (Some (Lease._id lease)) _ _
                Hfound) as Hafter.
  rewrite <- (created_rooms C) in Hafter.
  destruct (@serve_keeps_occupied rs db' _ _ Hrs Hafter eq_refl)
    as [Hstays Htenants].
  fold db2 in Hstays, Htenants.
  split; [eexists; split; [exact Hstays|split; reflexivity]|].
  eapply createLease_room_occupied; try eassumption; [reflexivity|].
  now rewrite Htenants.
Qed.

Lemma createLease_occupies_room_witness :
  let db2 :=
    serve [ScheduledTask Example.march1;
           PayInvoice Example.march10 11%nat (Example.pay 2000)]
      Example.leasedDb in
  LeaseRoutes.createLease LeaseExample.summerLease db2
  = (inl RoomAlreadyOccupied, db2).
Proof.
  refine (proj2 (@createLease_occupies_room Example.leaseBody
                   LeaseExample.summerLease Example.seedDb Example.leasedDb
                   _ [ScheduledTask Example.march1;
                      PayInvoice Example.march10 11%nat (Example.pay 2000)]
                   _ _ _ _ _ _ _ _ _ _ _ _ _ _)).
  - vm_compute. reflexivity.
  - reflexivity.
  - reflexivity.
  - reflexivity.
  - vm_compute. discriminate.
  - reflexivity.
  - reflexivity.
  - reflexivity.
  - reflexivity.
  - reflexivity.
Defined.

(** A lease that was accepted can be ended: the route marks it ended
    with the end date of the request (or the clock reading), leaves the
    room vacant and without a current lease, and touches no other lease. *)
Theorem endLease_after_createLease
    (body : LeaseReq.t) (ebody : EndLeaseReq.t) (now : Date)
    (db db1 : Db) (lease : Lease.t) :
  leaseIds db ->
  LeaseRoutes.createLease body db = (inr lease, db1) ->
  exists lease' db2,
    LeaseRoutes.endLease now (Lease._id lease) ebody db1 = (inr lease', db2)
    /\ findDoc Lease._id (Lease._id lease) (leases db2) = Some lease'
    /\ Lease.status lease' = ended
    /\ Lease.endDate lease'
       = Some (match EndLeaseReq.endDate ebody with
               | Some d => d | None => now end)
    /\ Lease.tenant lease' = Lease.tenant lease
    /\ Lease.rentPerMonth lease' = Lease.rentPerMonth lease
    /\ (exists r,
          findDoc Room._id (Lease.room lease) (rooms db2) = Some r
          /\ Room.status r = vacant
          /\ Room.currentLease r = None)
    /\ forall id, id <> Lease._id lease ->
         findDoc Lease._id id (leases db2) = findDoc Lease._id id (leases db).
Proof.
  intros [Hnd Hlt] Hrun.
  destruct (@createLease_accepted _ _ _ _ Hrun).
  assert (Hfresh : ~ In (Lease._id lease) (map Lease._id (leases db))).
  { intro Hin. rewrite Forall_forall in Hlt. specialize (Hlt _ Hin).
    rewrite created_id0 in Hlt. cbv beta in Hlt. unfold ObjectId in *. lia. }
  assert (Hfind : findDoc Lease._id (Lease._id lease) (leases db1)
                  = Some lease).
  { rewrite created_leases0. now apply findDoc_snoc_fresh. }
  pose proof (endLease_cases now (Lease._id lease) ebody db1) as C.
  rewrite Hfind in C. destruct C as (lease' & db2 & Hend & E).
  exists lease', db2. destruct E.
  destruct created_room_free0 as (roomDoc & Hroom & _).
  split; [exact Hend|]. split.
  { rewrite ended_leases0.
    rewrite <- ended_id0. apply findDoc_saveDoc_same.
    rewrite ended_id0, Hfind. discriminate. }
  repeat (split; [assumption|]). split.
  - eexists. split; [|split].
    + rewrite ended_rooms0. apply findDoc_Room_update.
      rewrite created_rooms0. apply findDoc_Room_update. exact Hroom.
    + reflexivity.
    + reflexivity.
  - intros id Hid. rewrite ended_leases0.
    rewrite findDoc_saveDoc_other by (rewrite ended_id0; congruence).
    rewrite created_leases0. apply findDoc_snoc_other. congruence.
Qed.

Lemma endLease_after_createLease_witness :
  exists lease' db2,
    LeaseRoutes.endLease Example.march10 10%nat
      {| EndLeaseReq.endDate := None; EndLeaseReq.notes := None |}
      Example.leasedDb
    = (inr lease', db2)
    /\ Lease.status lease' = ended.
Proof.
  destruct (@endLease_after_createLease Example.leaseBody
              {| EndLeaseReq.endDate := None; EndLeaseReq.notes := None |}
              Example.march10 Example.seedDb Example.leasedDb
              {| Lease._id := 10%nat; Lease.tenant := 2%nat;
                 Lease.room := 1%nat;
                 Lease.startDate := JsDate.newDate 2024 0 1;
                 Lease.endDate := None; Lease.rentPerMonth := 5000;
                 Lease.depositAgreed := 10000; Lease.depositPaid := 0;
                 Lease.depositRefunded := 0; Lease.billingDay := Some 5%Z;
                 Lease.status := active; Lease.notes := None |})
    as (lease' & db2 & Hend & _ & Hst & _).
  - split; constructor.
  - vm_compute. reflexivity.
  - exists lease', db2. split; [exact Hend|exact Hst].
Defined.

(** A deposit of zero is turned down, for every request that is valid up
    to the deposit: zero is falsy, and the check is
    [!depositAgreed || depositAgreed < 0]. *)
Theorem createLease_rejects_zero_deposit
    (body : LeaseReq.t) (db : Db) (tenant room : ObjectId) (start : Date)
    (rent deposit : Q) :
  LeaseReq.tenant body = Some tenant ->
  LeaseReq.room body = Some room ->
  LeaseReq.startDate body = Some start ->
  LeaseReq.rentPerMonth body = Some rent -> 0 < rent ->
  LeaseReq.depositAgreed body = Some deposit -> deposit == 0 ->
  LeaseRoutes.createLease body db = (inl DepositNotZeroOrPositive, db).
Proof.
  intros Ht Hr Hs Hrent Hpos Hdep Hzero.
  unfold LeaseRoutes.createLease. rewrite Ht, Hr. unfold_handler.
  rewrite Hs, Hrent, (positive_passes Hpos), Hdep.
  assert (Hd : falsyQ deposit || Qlt_bool deposit 0 = true).
  { apply orb_true_iff. left. now apply Qeq_bool_iff. }
  now rewrite Hd.
Qed.

Lemma createLease_rejects_zero_deposit_witness :
  LeaseRoutes.createLease
    {| LeaseReq.tenant := Some 2%nat; LeaseReq.room := Some 1%nat;
       LeaseReq.startDate := Some (JsDate.newDate 2024 0 1);
       LeaseReq.endDate := None; LeaseReq.rentPerMonth := Some 5000;
       LeaseReq.depositAgreed := Some 0; LeaseReq.billingDay := None |}
    Example.seedDb
  = (inl DepositNotZeroOrPositive, Example.seedDb).
Proof.
  apply (@createLease_rejects_zero_deposit _ Example.seedDb 2%nat 1%nat
           (JsDate.newDate 2024 0 1) 5000 0);
    reflexivity.
Defined.

End LeaseLifecycle.

(** ** Payments and paid amounts *)

Section Ledger.
Local Open Scope Q_scope.

(** What POST /api/invoices/:id/pay does when it accepts the payment. *)
Record paymentRecorded (now : Date) (id : ObjectId) (body : PayReq.t)
    (db db' : Db) (invoice : Invoice.t) (amount : Q)
    (payment : Payment.t) (invoice' : Invoice.t) : Prop := {
  recorded_found : findDoc Invoice._id id (invoices db) = Some invoice;
  recorded_amount : PayReq.amount body = Some amount;
  recorded_positive : 0 < amount;
  recorded_within :
    Invoice.paidAmount invoice + amount <= Invoice.totalAmount invoice;
  recorded_payment_id : Payment._id payment = nextId db;
  recorded_payment_invoice : Payment.invoice payment = Invoice._id invoice;
  recorded_payment_lease : Payment.lease payment = Invoice.lease invoice;
  recorded_payment_tenant : Payment.tenant payment = Invoice.tenant invoice;
  recorded_payment_amount : Payment.amount payment = amount;
  recorded_payment_date :
    Payment.date payment
    = match PayReq.date body with Some d => d | None => now end;
  recorded_payment_mode :
    Payment.mode payment
    = match PayReq.mode body with Some m => m | None => cash end;
  recorded_id : Invoice._id invoice' = Invoice._id invoice;
  recorded_key : invoiceKey invoice' = invoiceKey invoice;
  recorded_paid :
    Invoice.paidAmount invoice' == Invoice.paidAmount invoice + amount;
  recorded_total : Invoice.totalAmount invoice' = Invoice.totalAmount invoice;
  recorded_base : Invoice.baseAmount invoice' = Invoice.baseAmount invoice;
  recorded_fee : Invoice.lateFee invoice' = Invoice.lateFee invoice;
  recorded_dueDate : Invoice.dueDate invoice' = Invoice.dueDate invoice;
  recorded_status :
    Invoice.status invoice'
    = if Qle_bool (Invoice.totalAmount invoice')
           (Invoice.paidAmount invoice')
      then paid
      else if Qlt_bool 0 (Invoice.paidAmount invoice')
      then partially_paid else Invoice.status invoice;
  recorded_payments : payments db' = payments db ++ [payment];
  recorded_invoices :
    invoices db' = saveDoc Invoice._id invoice' (invoices db);
  recorded_nextId : nextId db' = S (nextId db)
}.

Lemma orZero_eq_plus (x a : Q) : orZero x + a == x + a.
Proof. now rewrite orZero_eq. Qed.

Lemma payInvoice_run now id body db :
  (exists e, InvoiceRoutes.payInvoice now id body db = (inl e, db))
  \/ exists invoice amount payment invoice' db',
       InvoiceRoutes.payInvoice now id body db
       = (inr (payment, invoice'), db')
       /\ paymentRecorded now id body db db' invoice amount payment invoice'.
Proof.
  unfold InvoiceRoutes.payInvoice.
  destruct (PayReq.amount body) as [amount|] eqn:Ba;
    [|left; eexists; reflexivity].
  unfold_handler.
  destruct (falsyQ amount || Qle_bool amount 0) eqn:Epos;
    [left; eexists; reflexivity|].
  unfold Invoice_findById. unfold_handler.
  destruct (findDoc Invoice._id id (invoices db)) as [invoice|] eqn:Efind;
    [|left; eexists; reflexivity].
  destruct (Qlt_bool (Invoice.totalAmount invoice)
              (orZero (Invoice.paidAmount invoice) + amount)) eqn:Efit;
    [left; eexists; reflexivity|].
  right. unfold freshId, Invoice_save. unfold_handler. cbn.
  assert (Ha : 0 < amount).
  { apply Qnot_le_lt. intro Hle. apply notPositive_iff in Hle. congruence. }
  apply Qlt_bool_false_iff in Efit. rewrite orZero_eq in Efit.
  clear Epos.
  destruct (Qle_bool (Invoice.totalAmount invoice)
              (orZero (Invoice.paidAmount invoice) + amount)) eqn:E1;
    [|destruct (Qlt_bool 0 (orZero (Invoice.paidAmount invoice) + amount))
        eqn:E2];
    exists invoice, amount; do 3 eexists; (split; [reflexivity|]);
    constructor; cbn; try reflexivity; try assumption;
    try apply orZero_eq_plus; rewrite ?E1, ?E2; reflexivity.
Qed.

(** Of every request, what it does to the invoices: nothing, unless it
    is a payment, a generator or a recalculation. *)
Lemma handle_invoices (r : Request) (db : Db) :
  match r with
  | GenerateMonthly _ | ScheduledTask _ | VariantGenerateMonthly _
  | PayInvoice _ _ _ | RecalculateLateFees _
  | VariantRecalculateLateFees _ => True
  | _ => invoices (handle r db) = invoices db
  end.
Proof.
  destruct r as [today|today|now id body|today|body|now id body|id body|body
                |body|id body|id body|id|today|today]; cbn [handle];
    try exact I.
  - exact (proj1 (createLease_frame body db)).
  - exact (proj1 (endLease_frame now id body db)).
  - exact (proj1 (updateRoom_frame id body db)).
  - reflexivity.
  - exact (proj1 (createLightBill_effect body db)).
  - exact (proj1 (payLightBill_effect id body db)).
  - exact (proj1 (updateLightBill_effect id body db)).
  - exact (proj1 (deleteLightBill_effect id db)).
Qed.












End Ledger.

Section Books.
Local Open Scope Q_scope.

Lemma handle_payments (r : Request) (db : Db) :
  exists extra, payments (handle r db) = payments db ++ extra.
Proof.
  pose proof (handle_frame r db) as (_ & Hpay & _).
  destruct r as [today|today|now id body|today|body|now id body|id body|body
                |body|id body|id body|id|today|today];
    cbn beta iota in Hpay;
    try (exists []; rewrite app_nil_r; exact Hpay).
  cbn [handle]. unfold exec.
  destruct (payInvoice_run now id body db)
    as [(e & ->) | (invoice & amount & payment & invoice' & db' & -> & R)].
  - exists []. now rewrite app_nil_r.
  - exists [payment]. exact (recorded_payments R).
Qed.

(** A recorded payment is never altered or removed: whatever requests
    are served, the payments collection only grows at its end. *)
Theorem payments_only_grow (rs : list Request) (db : Db) :
  exists extra, payments (serve rs db) = payments db ++ extra.
Proof.
  revert db. induction rs as [|r rs IH]; intro db.
  - exists []. cbn. now rewrite app_nil_r.
  - change (serve (r :: rs) db) with (serve rs (handle r db)).
    destruct (IH (handle r db)) as (extra2 & ->).
    destruct (handle_payments r db) as (extra1 & ->).
    exists (extra1 ++ extra2). now rewrite app_assoc.
Qed.



End Books.

(** ** Light bills *)

Section LightBillEffects.
Local Open Scope Q_scope.













Lemma deleteLightBill_run id db :
  match findDoc LightBill._id id (lightBills db) with
  | Some _ =>
      LightBillRoutes.deleteLightBill id db
      = (inr tt,
         set_lightBills (deleteDoc LightBill._id id (lightBills db)) db)
  | None => LightBillRoutes.deleteLightBill id db = (inl LightBillNotFound, db)
  end.
Proof.
  unfold LightBillRoutes.deleteLightBill. unfold_handler.
  destruct (findDoc LightBill._id id (lightBills db)); reflexivity.
Qed.

End LightBillEffects.

Section SavedDocuments.
Variables (A B : Type) (idOf : A -> ObjectId) (f : A -> B).




End SavedDocuments.

Section LightBillInvariants.
Local Open Scope Q_scope.






End LightBillInvariants.

Section LightBillProperties.
Local Open Scope Q_scope.






(** Deleting a light bill: afterwards it is not found, the other bills
    are as they were, and a second delete answers "not found". *)
Theorem deleteLightBill_removes (id : ObjectId) (db db' : Db) :
  NoDup (map LightBill._id (lightBills db)) ->
  LightBillRoutes.deleteLightBill id db = (inr tt, db') ->
  findDoc LightBill._id id (lightBills db') = None
  /\ (forall id', id' <> id ->
        findDoc LightBill._id id' (lightBills db')
        = findDoc LightBill._id id' (lightBills db))
  /\ LightBillRoutes.deleteLightBill id db' = (inl LightBillNotFound, db')
  /\ invoices db' = invoices db
  /\ payments db' = payments db.
Proof.
  intros Hnd Hrun. pose proof (deleteLightBill_run id db) as D.
  destruct (findDoc LightBill._id id (lightBills db)); rewrite D in Hrun;
    [|discriminate].
  injection Hrun as <-. cbn.
  assert (Hgone : findDoc LightBill._id id
                    (deleteDoc LightBill._id id (lightBills db)) = None)
    by now apply findDoc_deleteDoc_same.
  split; [exact Hgone|]. split; [|split; [|split; reflexivity]].
  - intros id' Hne. now apply findDoc_deleteDoc_other.
  - pose proof (deleteLightBill_run id
      (set_lightBills (deleteDoc LightBill._id id (lightBills db)) db)) as D2.
    cbn [lightBills set_lightBills] in D2. rewrite Hgone in D2. exact D2.
Qed.

Lemma deleteLightBill_removes_witness :
  findDoc LightBill._id 11%nat
    (lightBills (exec (LightBillRoutes.deleteLightBill 11%nat)
                   BillExample.paidBillDb))
  = None.
Proof.
  refine (proj1 (@deleteLightBill_removes 11%nat BillExample.paidBillDb
                   _ _ _)).
  - vm_compute. repeat constructor. intros [].
  - vm_compute. reflexivity.
Defined.

End LightBillProperties.

(** ** Late fees over time *)

Section LateFeeGrowth.
Import JsDate.
Local Open Scope Q_scope.

Lemma diffDaysOf_mono today today' dueDate :
  (today <= today')%Z ->
  (InvoiceRoutes.diffDaysOf today dueDate
   <= InvoiceRoutes.diffDaysOf today' dueDate)%Z.
Proof.
  intro H. unfold InvoiceRoutes.diffDaysOf.
  apply Z.div_le_mono; [reflexivity|lia].
Qed.

(** With a configuration whose amounts are not negative, the late fee
    computed for an invoice is never negative and never decreases as the
    clock advances. *)
Theorem lateFee_never_decreases
    (cfg : Settings.LateFeeConfig) (today today' : Date)
    (invoice : Invoice.t) :
  0 <= Settings.perDayAmount cfg ->
  0 <= Settings.percentage cfg ->
  0 <= Invoice.baseAmount invoice ->
  (today <= today')%Z ->
  0 <= InvoiceRoutes.lateFeeOf cfg today invoice
  /\ InvoiceRoutes.lateFeeOf cfg today invoice
     <= InvoiceRoutes.lateFeeOf cfg today' invoice.
Proof.
  intros Hday Hpct Hbase Hclock.
  pose proof (diffDaysOf_mono (Invoice.dueDate invoice) Hclock) as Hd.
  unfold InvoiceRoutes.lateFeeOf.
  set (d := InvoiceRoutes.diffDaysOf today (Invoice.dueDate invoice)) in *.
  set (d' := InvoiceRoutes.diffDaysOf today' (Invoice.dueDate invoice)) in *.
  assert (Hq : inject_Z d <= inject_Z d') by (rewrite <- Zle_Qle; exact Hd).
  assert (Hflat : 0 <= Invoice.baseAmount invoice * Settings.percentage cfg
                       / 100).
  { apply Qle_shift_div_l; [reflexivity|]. rewrite Qmult_0_l.
    now apply Qmult_le_0_compat. }
  destruct (Qlt_bool (Settings.graceDays cfg) (inject_Z d)) eqn:E;
    destruct (Qlt_bool (Settings.graceDays cfg) (inject_Z d')) eqn:E';
    try apply Qlt_bool_iff in E; try apply Qlt_bool_false_iff in E;
    try apply Qlt_bool_iff in E'; try apply Qlt_bool_false_iff in E'.
  - destruct (Settings.type cfg).
    + split.
      * apply Qmult_le_0_compat; [lra|exact Hday].
      * apply Qmult_le_compat_r; [lra|exact Hday].
    + split; [exact Hflat|apply Qle_refl].
  - exfalso. lra.
  - split; [apply Qle_refl|]. destruct (Settings.type cfg).
    + apply Qmult_le_0_compat; [lra|exact Hday].
    + exact Hflat.
  - split; apply Qle_refl.
Qed.

Lemma lateFee_never_decreases_witness :
  InvoiceRoutes.lateFeeOf (Settings.lateFeeConfig Settings.defaults)
    Example.march15 Example.marchInvoice
  <= InvoiceRoutes.lateFeeOf (Settings.lateFeeConfig Settings.defaults)
       Example.march18 Example.marchInvoice.
Proof.
  refine (proj2 (@lateFee_never_decreases
                   (Settings.lateFeeConfig Settings.defaults)
                   Example.march15 Example.march18 Example.marchInvoice
                   _ _ _ _)).
  - vm_compute. discriminate.
  - vm_compute. discriminate.
  - vm_compute. discriminate.
  - vm_compute. discriminate.
Defined.

(** The recalculation never touches an invoice that is paid or overdue:
    whatever the clock reads, such an invoice is stored afterwards as it
    was before, late fee included.  This holds of both copies of the
    route. *)
Theorem recalculateLateFees_leaves_closed_invoices
    (today : Date) (db : Db) (s : Settings.t) (invoice : Invoice.t) :
  settings db = Some s ->
  NoDup (map Invoice._id (invoices db)) ->
  In invoice (invoices db) ->
  Invoice.status invoice = paid \/ Invoice.status invoice = overdue ->
  findDoc Invoice._id (Invoice._id invoice)
    (invoices (exec (InvoiceRoutes.recalculateLateFees today) db))
  = Some invoice
  /\ findDoc Invoice._id (Invoice._id invoice)
       (invoices (exec (InvoiceRoutesVariant.recalculateLateFees today) db))
     = Some invoice.
Proof.
  intros Hs Hnd Hin Hst.
  assert (Hclosed : InvoiceRoutes.isOpen invoice = false).
  { unfold InvoiceRoutes.isOpen. destruct Hst as [-> | ->]; reflexivity. }
  unfold exec.
  rewrite (recalculateLateFees_run today db Hs Hnd).
  rewrite (variant_recalculateLateFees_run today db Hs Hnd). cbn [snd].
  cbn [invoices set_invoices]. split.
  - rewrite (@findDoc_map _ Invoice._id
               (recalculated (Settings.lateFeeConfig s) today) invoice
               (invoices db)
               (fun y => @steppedIf_id _ _
                           (@feeStep_id (Settings.lateFeeConfig s) today) y)
               Hnd Hin).
    unfold recalculated, steppedIf. now rewrite Hclosed.
  - rewrite (@findDoc_map _ Invoice._id
               (steppedIf (variantStep (Settings.lateFeeConfig s) today)
                  InvoiceRoutes.isOpen) invoice
               (invoices db)
               (fun y => @steppedIf_id _ _
                           (@variantStep_id (Settings.lateFeeConfig s) today)
                           y)
               Hnd Hin).
    unfold steppedIf. now rewrite Hclosed.
Qed.

End LateFeeGrowth.

Section LateFeeExamples.
Local Open Scope Q_scope.

(** The March invoice paid in full on the 10th is left alone on the 18th,
    thirteen days after its due date. *)
Lemma recalculateLateFees_leaves_closed_invoices_witness :
  let db := serve [PayInvoice Example.march10 11%nat (Example.pay 5000)]
              Example.billedDb in
  exists invoice,
    Invoice.status invoice = paid
    /\ findDoc Invoice._id 11%nat
         (invoices (exec (InvoiceRoutes.recalculateLateFees Example.march18)
                      db))
       = Some invoice.
Proof.
  intro db.
  exists (Invoice.set_status
            (Invoice.set_paidAmount Example.marchInvoice (0 + 5000)) paid).
  split; [reflexivity|].
  refine (proj1 (@recalculateLateFees_leaves_closed_invoices Example.march18
                   db Settings.defaults
                   (Invoice.set_status
                      (Invoice.set_paidAmount Example.marchInvoice (0 + 5000))
                      paid) _ _ _ _)).
  - reflexivity.
  - vm_compute. repeat constructor. intros [].
  - vm_compute. left. reflexivity.
  - left. reflexivity.
Defined.

(** The earlier copy of the route on the March invoice, 13 days after the
    due date with nothing paid: fee 50, total 5050, status overdue. *)
Lemma variant_recalculateLateFees_rederives_status_witness :
  exists invoice',
    findDoc Invoice._id 11%nat
      (invoices (exec (InvoiceRoutesVariant.recalculateLateFees
                         Example.march18) Example.billedDb))
    = Some invoice'
    /\ Invoice.status invoice' = overdue.
Proof.
  destruct (@variant_recalculateLateFees_rederives_status Example.march18
              Example.billedDb Settings.defaults Example.marchInvoice)
    as (invoice' & Hfind & Hpaid & Hdue & Hfee & Htotal & _ & _ & Hover & _).
  - reflexivity.
  - vm_compute. repeat constructor. intros [].
  - vm_compute. left. reflexivity.
  - left. reflexivity.
  - exists invoice'. split; [exact Hfind|]. apply Hover.
    + rewrite Htotal, Hfee, Hpaid. vm_compute. reflexivity.
    + rewrite Hdue. vm_compute. reflexivity.
    + rewrite Hpaid. vm_compute. discriminate.
Defined.

End LateFeeExamples.

Section CronThenRoute.
Import JsDate.

(** When the scheduled job has run for a month, a run of the route in
    the same month creates nothing and changes nothing: the two compute
    the same period for the month, although they date the invoices
    differently. *)
Theorem generateMonthly_after_cron
    (today1 today2 : Date) (db db1 : Db) (created : list Invoice.t) :
  billed db ->
  getFullYear today1 = getFullYear today2 ->
  getMonth today1 = getMonth today2 ->
  InvoiceCronService.scheduledTask today1 db = (inr created, db1) ->
  InvoiceRoutes.generateMonthly today2 db1 = (inr [], db1).
Proof.
  intros Hb Hy Hm Hrun. destruct (billed_invoices Hb) as (_ & _ & Hu).
  exact (proj1 (@generateMonthly_after_scheduledTask today1 today2 db db1
                  created Hy Hm Hu Hrun)).
Qed.

Lemma generateMonthly_after_cron_witness :
  InvoiceRoutes.generateMonthly Example.march18 Example.billedDb
  = (inr [], Example.billedDb).
Proof.
  eapply (@generateMonthly_after_cron Example.march1 Example.march18
            Example.leasedDb).
  - exact (billed_step (CreateLease Example.leaseBody)
             (billed_start Example.seedDb eq_refl)).
  - vm_compute. reflexivity.
  - vm_compute. reflexivity.
  - vm_compute. reflexivity.
Defined.

End CronThenRoute.

(** * Properties of the other routes *)

(** ** Settings *)

Section SettingsProperties.

Lemma getSettings_cases db :
  match settings db with
  | Some s => SettingsGet.getSettings db = (inr s, db)
  | None =>
      SettingsGet.getSettings db
      = (inr Settings.defaults, set_settings (Some Settings.defaults) db)
  end.
Proof.
  unfold SettingsGet.getSettings. unfold_handler.
  destruct (settings db); reflexivity.
Qed.

Lemma handle_keeps_settings (r : Request) (db : Db) :
  settings db <> None -> settings (handle r db) <> None.
Proof.
  intro H. pose proof (handle_frame r db) as (_ & _ & Hs & _).
  destruct r; cbn beta iota in Hs; try (rewrite Hs; exact H).
  cbn. discriminate.
Qed.

Lemma recalculateLateFees_returns today db :
  settings db <> None ->
  exists updatedCount,
    result (InvoiceRoutes.recalculateLateFees today) db = inr updatedCount.
Proof.
  intro H. unfold result, InvoiceRoutes.recalculateLateFees. unfold_handler.
  destruct (settings db) as [s|]; [|contradiction].
  rewrite recalculateLoop_saveEach. apply saveEach_returns.
Qed.

(** GET /api/settings stores the schema defaults (per day, 3 grace days,
    5 a day, 1 percent) when nothing is stored and changes nothing
    otherwise; once it has been called, whatever requests follow, the
    recalculation of late fees is never turned down for want of
    settings. *)
Theorem getSettings_configures (rs : list Request) (db : Db) (today : Date) :
  let db1 := exec SettingsGet.getSettings db in
  (settings db = None -> settings db1 = Some Settings.defaults)
  /\ (settings db <> None -> db1 = db)
  /\ exec SettingsGet.getSettings db1 = db1
  /\ exists updatedCount,
       result (InvoiceRoutes.recalculateLateFees today) (serve rs db1)
       = inr updatedCount.
Proof.
  intro db1. subst db1. unfold exec.
  pose proof (getSettings_cases db) as C.
  assert (Hset : settings (snd (SettingsGet.getSettings db)) <> None).
  { destruct (settings db) eqn:E; rewrite C; cbn; congruence. }
  split; [|split; [|split]].
  - intro Hnone. rewrite Hnone in C. now rewrite C.
  - intro Hsome. destruct (settings db); [now rewrite C|contradiction].
  - pose proof (getSettings_cases (snd (SettingsGet.getSettings db))) as C2.
    destruct (settings (snd (SettingsGet.getSettings db)));
      [now rewrite C2|contradiction].
  - apply recalculateLateFees_returns.
    apply serve_keeps; [apply handle_keeps_settings|exact Hset].
Qed.

End SettingsProperties.

(** ** The invoice list *)

Section InvoiceListProperties.
Import JsDate.
Local Open Scope Q_scope.

(** What [let s = 0; xs.forEach(x => { s += x })] leaves in [s]: the
    numbers added to 0 one after the other, in the order of the list. *)
Definition sumInOrder (l : list Q) : Q := fold_left Qplus l 0.

Lemma fold_left_map_plus (A : Type) (f : A -> Q) (l : list A) :
  forall a, fold_left (fun a x => a + f x) l a = fold_left Qplus (map f l) a.
Proof.
  induction l as [|x l IH]; intro a; cbn [fold_left map]; [reflexivity|].
  apply IH.
Qed.

Lemma sumInOrder_snoc (l : list Q) (a : Q) :
  sumInOrder (l ++ [a]) = sumInOrder l + a.
Proof. unfold sumInOrder. now rewrite fold_left_app. Qed.



(** The invoices that POST /api/invoices/generate-monthly creates are
    listed by GET /api/invoices for the month and year of the run (the
    month counted from 1, as the query takes it). *)
Theorem listInvoices_finds_generated
    (today : Date) (db db' : Db) (created : list Invoice.t) :
  InvoiceRoutes.generateMonthly today db = (inr created, db') ->
  let q := {| InvoiceQuery.status := None; InvoiceQuery.tenantId := None;
              InvoiceQuery.month := Some (getMonth today + 1)%Z;
              InvoiceQuery.year := Some (getFullYear today) |} in
  exists r,
    InvoiceReads.listInvoices q db' = (inr r, db')
    /\ forall i, In i created -> In i (InvoiceList.data r).
Proof.
  intros Hrun q. eexists. split; [reflexivity|].
  cbn [InvoiceList.data]. intros i Hi.
  rewrite generateMonthly_generateWith in Hrun.
  match type of Hrun with
  | generateWith ?f ?t ?pf ?pt ?ls ?c ?d = _ =>
      destruct (generateWith_effect f t pf pt ls c d)
        as (extra & [_ _ _ _ _ _ Hex] & Hall & Hret)
  end.
  rewrite Hrun in Hex, Hret. cbn [fst snd] in Hex, Hret.
  rewrite (Hret created eq_refl) in Hi. cbn [app] in Hi.
  rewrite Forall_forall in Hall.
  destruct (Hall i Hi) as (e & _ & _ & Hfrom & Hto & _).
  apply filter_In. split; [rewrite Hex; apply in_or_app; now right|].
  unfold InvoiceReads.matches, q. cbn [InvoiceQuery.status
    InvoiceQuery.tenantId InvoiceQuery.month InvoiceQuery.year andb].
  rewrite Hfrom, Hto. unfold periodFromOf, periodToOf. cbv zeta.
  replace (getMonth today + 1 - 1)%Z with (getMonth today) by lia.
  now rewrite !Z.leb_refl.
Qed.

Lemma listInvoices_finds_generated_witness :
  exists r,
    InvoiceReads.listInvoices
      {| InvoiceQuery.status := None; InvoiceQuery.tenantId := None;
         InvoiceQuery.month := Some 3%Z; InvoiceQuery.year := Some 2024%Z |}
      (exec (InvoiceRoutes.generateMonthly Example.march10) Example.leasedDb)
    = (inr r,
       exec (InvoiceRoutes.generateMonthly Example.march10) Example.leasedDb)
    /\ List.length (InvoiceList.data r) = 1%nat.
Proof.
  destruct (@listInvoices_finds_generated Example.march10 Example.leasedDb
              (exec (InvoiceRoutes.generateMonthly Example.march10)
                 Example.leasedDb)
              (match result (InvoiceRoutes.generateMonthly Example.march10)
                       Example.leasedDb with
               | inr created => created
               | inl _ => []
               end))
    as (r & Hr & _).
  - vm_compute. reflexivity.
  - exists r. split; [exact Hr|].
    vm_compute in Hr. injection Hr as <-. reflexivity.
Defined.

End InvoiceListProperties.

(** ** The month of a run *)

Section Months.
Import JsDate.
Local Open Scope Z_scope.

Lemma MakeDay_last_day y m :
  0 <= m <= 11 ->
  MakeDay y (m + 1) 0 = MakeDay y m (daysInMonth y m).
Proof.
  intro Hm. unfold MakeDay. cbv zeta.
  rewrite (Z.div_small m), (Z.mod_small m) by lia. rewrite !Z.add_0_r.
  destruct (Z.eq_dec m 11) as [-> | Hne].
  - change ((11 + 1) / 12) with 1. change ((11 + 1) mod 12) with 0.
    rewrite DayFromYear_next. cbn [monthStart daysInMonth]. lia.
  - rewrite (Z.div_small (m + 1)), (Z.mod_small (m + 1)) by lia.
    rewrite !Z.add_0_r.
    assert (Hcases : m = 0 \/ m = 1 \/ m = 2 \/ m = 3 \/ m = 4 \/ m = 5
                     \/ m = 6 \/ m = 7 \/ m = 8 \/ m = 9 \/ m = 10) by lia.
    repeat (destruct Hcases as [-> | Hcases]); try subst m;
      simpl (_ + 1); cbn [monthStart daysInMonth]; lia.
Qed.

(** A day is the day its calendar fields name. *)
Lemma Day_of_fields d :
  d = MakeDay (YearFromDay d) (MonthFromDay d) (DateFromDay d).
Proof.
  pose proof (MonthFromDay_range d) as Hm.
  unfold MakeDay. cbv zeta.
  rewrite (Z.div_small (MonthFromDay d)), (Z.mod_small (MonthFromDay d)),
    Z.add_0_r by lia.
  unfold DateFromDay, DayWithinYear. lia.
Qed.

Lemma newDate_last_day year month :
  ~ 0 <= year <= 99 ->
  0 <= month <= 11 ->
  newDate year (month + 1) 0 = newDate year month (daysInMonth year month).
Proof.
  intros Hyear Hm. unfold newDate.
  assert (Hremap : (if (0 <=? year) && (year <=? 99) then 1900 + year
                    else year) = year).
  { destruct (Z.leb_spec 0 year); destruct (Z.leb_spec year 99); cbn;
      try reflexivity. lia. }
  rewrite Hremap. now rewrite MakeDay_last_day.
Qed.

Lemma newDate_Day year month date :
  ~ 0 <= year <= 99 ->
  Day (newDate year month date) = MakeDay year month date.
Proof.
  intro Hyear. unfold newDate, Day.
  assert (Hremap : (if (0 <=? year) && (year <=? 99) then 1900 + year
                    else year) = year).
  { destruct (Z.leb_spec 0 year); destruct (Z.leb_spec year 99); cbn;
      try reflexivity. lia. }
  rewrite Hremap. apply Z.div_mul. unfold msPerDay. lia.
Qed.

(** The period of the invoices of a run is the month of the run, from its
    first day to its last: 28 to 31 days on, also in December, where
    [new Date(year, 12, 0)] carries into the next year and back. *)
Theorem generateMonthly_period_is_the_month
    (today : Date) (db db' : Db) (created : list Invoice.t) :
  InvoiceRoutes.generateMonthly today db = (inr created, db') ->
  ~ 0 <= getFullYear today <= 99 ->
  Forall (fun i =>
            calendarDay (Invoice.periodFrom i)
            = (getFullYear today, getMonth today, 1)
            /\ calendarDay (Invoice.periodTo i)
               = (getFullYear today, getMonth today,
                  daysInMonth (getFullYear today) (getMonth today))
            /\ Invoice.periodFrom i <= today)
         created.
Proof.
  intros Hrun Hyear. rewrite generateMonthly_generateWith in Hrun.
  match type of Hrun with
  | generateWith ?f ?t ?pf ?pt ?ls ?c ?d = _ =>
      destruct (generateWith_effect f t pf pt ls c d)
        as (extra & _ & Hall & Hret)
  end.
  rewrite Hrun in Hret. rewrite (Hret created eq_refl). cbn [app].
  pose proof (MonthFromDay_range (Day today)) as Hm.
  fold (getMonth today) in Hm.
  pose proof (daysInMonth_at_least_28 (getFullYear today) (getMonth today))
    as Hdim.
  assert (Hfirst : calendarDay (periodFromOf today)
                   = (getFullYear today, getMonth today, 1)).
  { unfold periodFromOf.
    rewrite newDate_calendarDay;
      rewrite ?Z.div_small, ?Z.mod_small, ?Z.add_0_r by lia;
      [reflexivity|exact Hyear|lia]. }
  assert (Hlast : calendarDay (periodToOf today)
                  = (getFullYear today, getMonth today,
                     daysInMonth (getFullYear today) (getMonth today))).
  { unfold periodToOf. rewrite newDate_last_day by assumption.
    rewrite newDate_calendarDay;
      rewrite ?Z.div_small, ?Z.mod_small, ?Z.add_0_r by lia;
      [reflexivity|exact Hyear|lia]. }
  assert (Hstart : periodFromOf today <= today).
  { unfold periodFromOf, newDate.
    assert (Hremap : (if (0 <=? getFullYear today)
                         && (getFullYear today <=? 99)
                      then 1900 + getFullYear today
                      else getFullYear today) = getFullYear today).
    { destruct (Z.leb_spec 0 (getFullYear today));
        destruct (Z.leb_spec (getFullYear today) 99); cbn;
        try reflexivity. lia. }
    rewrite Hremap.
    pose proof (Day_of_fields (Day today)) as Hday.
    fold (getFullYear today) (getMonth today) (getDate today) in Hday.
    assert (Hdate : 1 <= getDate today).
    { unfold getDate, DateFromDay, DayWithinYear.
      pose proof (YearFromDay_bounds (Day today)) as [Hlo _].
      pose proof (leapDay_range (YearFromDay (Day today))) as Hleap.
      unfold MonthFromDay, DayWithinYear. cbv zeta.
      set (leap := leapDay (YearFromDay (Day today))) in *.
      set (w := Day today - DayFromYear (YearFromDay (Day today))) in *.
      assert (0 <= w) by (subst w; lia).
      repeat match goal with
             | |- context [if ?a <? ?b then _ else _] =>
                 destruct (Z.ltb_spec a b); [cbn [monthStart]; lia|]
             end.
      cbn [monthStart]. lia. }
    assert (MakeDay (getFullYear today) (getMonth today) 1 <= Day today).
    { rewrite Hday at 1. unfold MakeDay. cbv zeta. lia. }
    unfold Day in *. unfold msPerDay in *.
    pose proof (Z.mul_div_le today 86400000 ltac:(lia)).
    change (1000 * 60 * 60 * 24) with 86400000 in *. nia. }
  eapply Forall_impl; [|exact Hall].
  intros i (e & _ & _ & -> & -> & _). auto.
Qed.

(** December 2023: the period runs to 31 December. *)
Lemma generateMonthly_period_is_the_month_witness :
  let december := newDate 2023 11 10 in
  Forall (fun i =>
            calendarDay (Invoice.periodFrom i) = (2023, 11, 1)
            /\ calendarDay (Invoice.periodTo i) = (2023, 11, 31)
            /\ Invoice.periodFrom i <= december)
         (match result (InvoiceRoutes.generateMonthly december)
                  Example.leasedDb with
          | inr created => created
          | inl _ => []
          end).
Proof.
  intro december.
  refine (@generateMonthly_period_is_the_month december Example.leasedDb
            (exec (InvoiceRoutes.generateMonthly december) Example.leasedDb)
            _ _ _).
  - vm_compute. reflexivity.
  - vm_compute. intros [_ H]. apply H. reflexivity.
Defined.

End Months.

(** ** The dashboard *)

Section DashboardProperties.
Import JsDate.
Local Open Scope Q_scope.

Definition fromCopy (r : Request) : bool :=
  match r with
  | VariantRecalculateLateFees _ => true
  | _ => false
  end.

Definition noneOverdue (db : Db) : Prop :=
  Forall (fun i => Invoice.status i <> overdue) (invoices db).

Lemma feeStep_status cfg today x y :
  feeStep cfg today x = Some y -> Invoice.status y = Invoice.status x.
Proof. unfold feeStep. destruct (negb _); intros [=]. now subst. Qed.

Lemma handle_keeps_noneOverdue (r : Request) (db : Db) :
  fromCopy r = false -> noneOverdue db -> noneOverdue (handle r db).
Proof.
  intros Hr H. unfold noneOverdue in *.
  pose proof (handle_invoices r db) as Hinv.
  assert (Hgen : forall db',
            generated db db' ->
            Forall (fun i => Invoice.status i <> overdue) (invoices db')).
  { intros db' (_ & extra & -> & Hall). apply Forall_app. split; [exact H|].
    eapply Forall_impl; [|exact Hall].
    intros i (lease & _ & _ & _ & _ & _ & _ & ->). discriminate. }
  destruct r as [today|today|now id body|today|body|now id body|id body|body
                |body|id body|id body|id|today|today];
    cbn beta iota in Hinv; try (rewrite Hinv; exact H);
    try discriminate Hr; cbn [handle].
  - apply Hgen, generateMonthly_generated.
  - apply Hgen, scheduledTask_generated.
  - unfold exec.
    destruct (payInvoice_run now id body db)
      as [(e & ->) | (invoice & amount & payment & invoice' & db' & -> & R)];
      [exact H|]. cbn [snd].
    rewrite (recorded_invoices R). apply Forall_saveDoc; [exact H|].
    rewrite (recorded_status R).
    destruct (Qle_bool _ _); [discriminate|].
    destruct (Qlt_bool _ _); [discriminate|].
    rewrite Forall_forall in H. apply H.
    exact (findDoc_In _ _ _ (recorded_found R)).
  - destruct (@recalculateLateFees_effect
                (fun i => Invoice.status i <> overdue) today db)
      as (_ & F); [|exact (F H)].
    intros cfg x y Hx Hy. now rewrite (feeStep_status _ _ _ Hy).
  - apply Hgen, variant_generateMonthly_generated.
Qed.

(** From a database without invoices, as long as the recalculation that
    is served is the one of [routes/invoiceRoutes.js], the dashboard
    counts no overdue invoice, whatever the date and whatever has been
    paid: no route sets that status. *)
Theorem dashboard_counts_no_overdue_invoice
    (rs : list Request) (db0 : Db) (q : DashboardQuery.t) (now : Date) :
  invoices db0 = [] ->
  forallb (fun r => negb (fromCopy r)) rs = true ->
  exists d,
    DashboardRoutes.dashboard q now (serve rs db0) = (inr d, serve rs db0)
    /\ Dashboard.overdueInvoices d = 0%nat.
Proof.
  intros H0 Hrs.
  assert (H : noneOverdue (serve rs db0)).
  { assert (Hstart : noneOverdue db0)
      by (unfold noneOverdue; rewrite H0; constructor).
    clear H0. revert db0 Hstart.
    induction rs as [|r rs IH]; intros db0 Hstart; [exact Hstart|].
    cbn in Hrs. apply andb_true_iff in Hrs. destruct Hrs as [Hr Hrs].
    change (serve (r :: rs) db0) with (serve rs (handle r db0)).
    apply IH; [exact Hrs|].
    apply handle_keeps_noneOverdue; [|exact Hstart].
    now apply negb_true_iff. }
  unfold DashboardRoutes.dashboard, reads.
  destruct (DashboardRoutes.window q now) as [[currentDate s] e].
  eexists. split; [reflexivity|]. cbn [Dashboard.overdueInvoices].
  unfold DashboardRoutes.countDocuments.
  induction H as [|i l Hi _ IH]; [reflexivity|]. cbn [filter].
  destruct (Invoice.status i); cbn; try exact IH. contradiction.
Qed.

(** The March invoice, unpaid and thirteen days past its due date after
    a recalculation, is not counted. *)
Lemma dashboard_counts_no_overdue_invoice_witness :
  exists d,
    DashboardRoutes.dashboard
      {| DashboardQuery.month := None; DashboardQuery.year := None |}
      Example.march18
      (serve [CreateLease Example.leaseBody; ScheduledTask Example.march1;
              RecalculateLateFees Example.march18] Example.seedDb)
    = (inr d,
       serve [CreateLease Example.leaseBody; ScheduledTask Example.march1;
              RecalculateLateFees Example.march18] Example.seedDb)
    /\ Dashboard.overdueInvoices d = 0%nat.
Proof.
  apply (@dashboard_counts_no_overdue_invoice
           [CreateLease Example.leaseBody; ScheduledTask Example.march1;
            RecalculateLateFees Example.march18]
           Example.seedDb); reflexivity.
Defined.

End DashboardProperties.

Section DashboardMonth.
Import JsDate.
Local Open Scope Z_scope.

Lemma last_day_after_midnight (now t : Date) :
  (~ 0 <= getFullYear now <= 99)%Z ->
  calendarDay t
  = (getFullYear now, getMonth now,
     daysInMonth (getFullYear now) (getMonth now)) ->
  (t mod msPerDay <> 0)%Z ->
  (newDate (getFullYear now) (getMonth now + 1) 0 < t)%Z.
Proof.
  intros Hyear Hday Hms.
  pose proof (MonthFromDay_range (Day now)) as Hm.
  fold (getMonth now) in Hm.
  rewrite newDate_last_day by assumption.
  unfold calendarDay in Hday. injection Hday as Hy Hmo Hd.
  pose proof (Day_of_fields (Day t)) as Hfields.
  fold (getFullYear t) (getMonth t) (getDate t) in Hfields.
  rewrite Hy, Hmo, Hd in Hfields.
  unfold newDate.
  assert (Hremap : (if (0 <=? getFullYear now) && (getFullYear now <=? 99)
                    then 1900 + getFullYear now
                    else getFullYear now) = getFullYear now).
  { destruct (Z.leb_spec 0 (getFullYear now));
      destruct (Z.leb_spec (getFullYear now) 99); cbn;
      try reflexivity. lia. }
  rewrite Hremap, <- Hfields. unfold Day, msPerDay in *.
  change (1000 * 60 * 60 * 24) with 86400000 in *.
  pose proof (Z.div_mod t 86400000 ltac:(lia)).
  pose proof (Z.mod_pos_bound t 86400000 ltac:(lia)). lia.
Qed.

(** The month of the dashboard ends at the midnight that starts its last
    day: payments made later on that day are left out of the month's
    collection. *)
Theorem dashboard_month_ends_before_last_day
    (now : Date) (db : Db) (d : Dashboard.t) :
  (~ 0 <= getFullYear now <= 99)%Z ->
  Forall (fun p =>
            calendarDay (Payment.date p)
            = (getFullYear now, getMonth now,
               daysInMonth (getFullYear now) (getMonth now))
            /\ (Payment.date p mod msPerDay <> 0)%Z)
         (payments db) ->
  result
    (DashboardRoutes.dashboard
       {| DashboardQuery.month := None; DashboardQuery.year := None |} now)
    db = inr d ->
  (Dashboard.thisMonthCollection d == 0)%Q.
Proof.
  intros Hyear Hall [= <-]. cbn [Dashboard.thisMonthCollection].
  unfold DashboardRoutes.total.
  replace (filter _ (payments db)) with (@nil Payment.t); [reflexivity|].
  symmetry. induction Hall as [|p l [Hday Hms] _ IH]; [reflexivity|].
  cbn [filter]. rewrite IH. unfold DashboardRoutes.within.
  pose proof (@last_day_after_midnight _ _ Hyear Hday Hms) as Hlt.
  apply Z.leb_gt in Hlt. rewrite Hlt. now rewrite andb_false_r.
Qed.

Lemma dashboard_month_ends_before_last_day_witness :
  let now := (newDate 2024 2 31 + 36000000)%Z in
  let db :=
    serve [CreateLease Example.leaseBody;
           ScheduledTask Example.march1;
           PayInvoice now 11%nat (Example.pay 2000%Q)]
      Example.seedDb in
  map Payment.amount (payments db) = [2000%Q]
  /\ match result
             (DashboardRoutes.dashboard
                {| DashboardQuery.month := None;
                   DashboardQuery.year := None |} now) db with
     | inr d => (Dashboard.thisMonthCollection d == 0)%Q
     | inl _ => False
     end.
Proof.
  intros now db. split; [vm_compute; reflexivity|].
  apply (@dashboard_month_ends_before_last_day now db).
  - vm_compute. intros [_ H]. apply H. reflexivity.
  - repeat constructor; vm_compute; discriminate.
  - reflexivity.
Defined.

End DashboardMonth.

(** ** The payment listings *)

Section PaymentGroups.
Import PaymentRoutes.
Local Open Scope Q_scope.

(** A group of GET /api/payments is in order when it is filed under the id
    of its tenant, counts its own payments, adds up their amounts from 0 in
    their order, and holds payments of that tenant only. *)
Definition groupInOrder (g : Group.t) : Prop :=
  Group.paymentCount g = List.length (Group.payments g)
  /\ Group.totalAmount g = sumInOrder (map Entry.amount (Group.payments g))
  /\ Forall (fun e => option_map Tenant._id (Entry.tenant e)
                      = Some (Tenant._id (Group.tenant g)))
            (Group.payments g).

Definition filed (kg : ObjectId * Group.t) : Prop :=
  fst kg = Tenant._id (Group.tenant (snd kg)) /\ groupInOrder (snd kg).

Definition entriesOf (tenantMap : list (ObjectId * Group.t)) : list Entry.t :=
  List.concat (map (fun kg => Group.payments (snd kg)) tenantMap).

Lemma addToGroup_keys tenant payment tenantMap k :
  In k (map fst (addToGroup tenant payment tenantMap)) ->
  In k (map fst tenantMap) \/ k = Tenant._id tenant.
Proof.
  induction tenantMap as [|[key group] rest IH]; cbn [addToGroup map fst In].
  - intros [<- | []]. now right.
  - destruct (Nat.eqb key (Tenant._id tenant)); cbn [map fst In].
    + intros [<- | H]; auto.
    + intros [<- | H]; auto. destruct (IH H); auto.
Qed.

Lemma addToGroup_NoDup tenant payment tenantMap :
  NoDup (map fst tenantMap) ->
  NoDup (map fst (addToGroup tenant payment tenantMap)).
Proof.
  induction tenantMap as [|[key group] rest IH]; cbn [addToGroup map fst].
  - intros _. constructor; [intros []|constructor].
  - intro H. inversion H as [|? ? Hnotin Hrest]; subst.
    destruct (Nat.eqb key (Tenant._id tenant)) eqn:E; cbn [map fst].
    + now constructor.
    + constructor; [|now apply IH].
      intro Hin. apply addToGroup_keys in Hin as [Hin | ->]; [tauto|].
      now rewrite Nat.eqb_refl in E.
Qed.

Lemma addToGroup_entries tenant payment tenantMap :
  Permutation (entriesOf (addToGroup tenant payment tenantMap))
              (entriesOf tenantMap ++ [payment]).
Proof.
  unfold entriesOf.
  induction tenantMap as [|[key group] rest IH];
    cbn [addToGroup map List.concat snd app].
  - reflexivity.
  - destruct (Nat.eqb key (Tenant._id tenant));
      cbn [map List.concat snd Group.payments].
    + rewrite <- !app_assoc. apply Permutation_app_head.
      apply Permutation_app_comm.
    + rewrite <- app_assoc. now apply Permutation_app_head.
Qed.

Lemma addToGroup_filed tenant payment tenantMap :
  Entry.tenant payment = Some tenant ->
  Forall filed tenantMap ->
  Forall filed (addToGroup tenant payment tenantMap).
Proof.
  intros Ht. induction 1 as [|[key group] rest [Hkey (Hn & Hsum & Hall)] Hrest IH];
    cbn [addToGroup].
  - constructor; [|constructor]. split; [reflexivity|].
    unfold groupInOrder.
    cbn [snd Group.paymentCount Group.totalAmount Group.payments
         Group.tenant List.length map].
    repeat split.
    constructor; [now rewrite Ht|constructor].
  - cbn [fst snd] in *.
    destruct (Nat.eqb key (Tenant._id tenant)) eqn:E;
      [|constructor; [split; [exact Hkey|now repeat split]|exact IH]].
    apply Nat.eqb_eq in E. constructor; [|assumption].
    split; [exact Hkey|]. cbn [snd]. unfold groupInOrder.
    cbn [Group.paymentCount Group.totalAmount Group.payments Group.tenant].
    repeat split.
    + rewrite length_app. cbn [List.length]. lia.
    + rewrite map_app. cbn [map]. now rewrite sumInOrder_snoc, Hsum.
    + apply Forall_app. split; [assumption|].
      constructor; [|constructor]. rewrite Ht. cbn. congruence.
Qed.

Lemma groupLoop_run (todo : list Entry.t) :
  forall tenantMap db,
    Forall (fun e => Entry.tenant e <> None) todo ->
    NoDup (map fst tenantMap) ->
    Forall filed tenantMap ->
    exists tenantMap',
      groupLoop todo tenantMap db = (inr tenantMap', db)
      /\ NoDup (map fst tenantMap')
      /\ Forall filed tenantMap'
      /\ Permutation (entriesOf tenantMap') (entriesOf tenantMap ++ todo).
Proof.
  induction todo as [|payment rest IH]; intros tenantMap db Hall Hnd Hf.
  - exists tenantMap. rewrite app_nil_r. now repeat split.
  - inversion Hall as [|? ? Ht Hrest]; subst.
    destruct (Entry.tenant payment) as [tenant|] eqn:Et; [|congruence].
    destruct (IH (addToGroup tenant payment tenantMap) db Hrest
                (@addToGroup_NoDup tenant payment tenantMap Hnd)
                (@addToGroup_filed tenant payment tenantMap Et Hf))
      as (m & Hrun & Hnd' & Hf' & Hperm).
    exists m. repeat split; try assumption.
    + cbn [groupLoop]. unfold_handler. rewrite Et. exact Hrun.
    + rewrite Hperm, addToGroup_entries, <- app_assoc. reflexivity.
Qed.

Lemma groupLoop_missing_tenant (todo : list Entry.t) :
  forall tenantMap db,
    Exists (fun e => Entry.tenant e = None) todo ->
    groupLoop todo tenantMap db = (inl ServerError, db).
Proof.
  induction todo as [|payment rest IH]; intros tenantMap db Hex.
  - inversion Hex.
  - cbn [groupLoop]. unfold_handler.
    destruct (Entry.tenant payment) as [tenant|] eqn:Et; [|reflexivity].
    inversion Hex as [? ? H|? ? H]; subst; [congruence|].
    now apply IH.
Qed.

Lemma count_of_groups (tenantMap : list (ObjectId * Group.t)) :
  Forall filed tenantMap ->
  forall n,
    fold_left (fun n group => (n + Group.paymentCount group)%nat)
      (map snd tenantMap) n
    = (n + List.length (entriesOf tenantMap))%nat.
Proof.
  unfold entriesOf.
  induction 1 as [|[key group] rest [_ (Hn & _)] _ IH]; intro n;
    cbn [map fold_left List.concat snd].
  - now rewrite Nat.add_0_r.
  - rewrite IH, length_app. cbn [snd] in Hn. lia.
Qed.

End PaymentGroups.

Section PaymentListing.
Import PaymentRoutes.
Variable updatedAt : LightBill.t -> Date.
Local Open Scope Q_scope.

(** GET /api/payments, when every listed payment has its tenant: each
    payment is in exactly one group, the groups are of different tenants,
    each group counts its own payments, which are all of its tenant, and
    has as its total their amounts added up from 0 in their order; the
    overall count is the number of listed payments, and the overall amount
    is the totals of the groups added up from 0 in the order of the
    groups. *)
Theorem listPayments_groups (q : PaymentQuery.t) (db : Db) :
  let all := allPayments updatedAt q db in
  Forall (fun e => Entry.tenant e <> None) all ->
  exists l,
    listPayments updatedAt q db = (inr l, db)
    /\ PaymentList.count l = List.length all
    /\ PaymentList.totalAmount l
       = sumInOrder (map Group.totalAmount (PaymentList.data l))
    /\ Permutation (List.concat (map Group.payments (PaymentList.data l))) all
    /\ NoDup (map (fun g => Tenant._id (Group.tenant g)) (PaymentList.data l))
    /\ Forall groupInOrder (PaymentList.data l).
Proof.
  intros all Hall.
  destruct (@groupLoop_run all [] db Hall (NoDup_nil _) (Forall_nil _))
    as (m & Hrun & Hnd & Hf & Hperm).
  cbn [entriesOf map List.concat app] in Hperm.
  eexists. split.
  { unfold listPayments. unfold_handler. fold all. rewrite Hrun.
    reflexivity. }
  cbn [PaymentList.count PaymentList.totalAmount PaymentList.data].
  assert (Hentries : List.concat (map Group.payments (map snd m))
                     = entriesOf m)
    by (unfold entriesOf; now rewrite map_map).
  repeat split.
  - rewrite (count_of_groups Hf). cbn [Nat.add].
    now apply Permutation_length.
  - apply fold_left_map_plus.
  - now rewrite Hentries.
  - rewrite map_map.
    replace (map (fun x => Tenant._id (Group.tenant (snd x))) m)
      with (map fst m); [exact Hnd|].
    clear - Hf. induction Hf as [|kg rest [Hkey _] _ IH]; [reflexivity|].
    cbn [map]. now rewrite Hkey, IH.
  - clear - Hf. induction Hf as [|kg rest [_ Hg] _ IH]; constructor;
      assumption.
Qed.

(** One listed payment whose tenant is gone fails the whole listing. *)
Theorem listPayments_missing_tenant (q : PaymentQuery.t) (db : Db) :
  Exists (fun e => Entry.tenant e = None) (allPayments updatedAt q db) ->
  listPayments updatedAt q db = (inl ServerError, db).
Proof.
  intro Hex. unfold listPayments. unfold_handler.
  now rewrite (@groupLoop_missing_tenant _ [] db Hex).
Qed.

Lemma insertByDate_Permutation x sorted :
  Permutation (insertByDate x sorted) (x :: sorted).
Proof.
  induction sorted as [|y rest IH]; cbn [insertByDate]; [reflexivity|].
  destruct (Z.leb _ _); [reflexivity|].
  rewrite IH. apply perm_swap.
Qed.

Definition notOlder (a b : HistoryEntry.t) : Prop :=
  (HistoryEntry.date b <= HistoryEntry.date a)%Z.

Lemma insertByDate_sorted x sorted :
  StronglySorted notOlder sorted ->
  StronglySorted notOlder (insertByDate x sorted).
Proof.
  induction 1 as [|y rest Hsorted IH Hall]; cbn [insertByDate].
  - constructor; constructor.
  - destruct (Z.leb_spec (HistoryEntry.date y) (HistoryEntry.date x)).
    + constructor; [now constructor|]. constructor; [assumption|].
      eapply Forall_impl; [|exact Hall]. unfold notOlder. intros; lia.
    + constructor; [assumption|].
      eapply Permutation_Forall;
        [apply Permutation_sym, insertByDate_Permutation|].
      constructor; [unfold notOlder; lia|assumption].
Qed.

Lemma newestFirst_Permutation l : Permutation (newestFirst l) l.
Proof.
  induction l as [|x l IH]; [reflexivity|]. cbn [newestFirst fold_right].
  fold (newestFirst l). rewrite insertByDate_Permutation. now constructor.
Qed.

Lemma newestFirst_sorted l : StronglySorted notOlder (newestFirst l).
Proof.
  induction l as [|x l IH]; [constructor|]. cbn [newestFirst fold_right].
  now apply insertByDate_sorted.
Qed.

(** GET /api/payments/tenant/:tenantId of a stored tenant lists the
    tenant's payments on invoices and the tenant's light bills with
    something paid, no entry older than the one after it.  In its summary
    the total of the invoice payments is their amounts added up from 0 in
    stored order, the total of the light bills their paid amounts added up
    likewise, and the total paid is the first total plus the second. *)
Theorem paymentHistory_newest_first
    (tenantId : ObjectId) (tenant : Tenant.t) (db : Db) :
  findDoc Tenant._id tenantId (tenants db) = Some tenant ->
  exists h,
    paymentHistory updatedAt tenantId db = (inr h, db)
    /\ History.tenant h = tenant
    /\ StronglySorted notOlder (History.payments h)
    /\ Permutation (History.payments h)
         (map (historyOfPayment db)
            (filter (fun p => Nat.eqb (Payment.tenant p) tenantId)
               (payments db))
          ++ map (historyOfBill updatedAt)
               (filter (fun b => Nat.eqb (LightBill.tenant b) tenantId
                                 && Qlt_bool 0 (LightBill.paidAmount b))
                  (lightBills db)))
    /\ History.totalPayments h = List.length (History.payments h)
    /\ History.totalInvoicePayments h
       = sumInOrder
           (map Payment.amount
              (filter (fun p => Nat.eqb (Payment.tenant p) tenantId)
                 (payments db)))
    /\ History.totalLightBillPayments h
       = sumInOrder
           (map LightBill.paidAmount
              (filter (fun b => Nat.eqb (LightBill.tenant b) tenantId
                                && Qlt_bool 0 (LightBill.paidAmount b))
                 (lightBills db)))
    /\ History.totalAmountPaid h
       = History.totalInvoicePayments h + History.totalLightBillPayments h.
Proof.
  intro Hfound. eexists. split.
  { unfold paymentHistory. unfold_handler. rewrite Hfound. reflexivity. }
  cbn [History.tenant History.payments History.totalPayments
       History.totalAmountPaid History.totalInvoicePayments
       History.totalLightBillPayments].
  repeat split.
  - apply newestFirst_sorted.
  - apply newestFirst_Permutation.
  - apply fold_left_map_plus.
  - apply fold_left_map_plus.
Qed.

End PaymentListing.

Module BooksExample.
Import JsDate.

(** A lease with its March invoice paid in two parts (payments 12 and 14)
    and a light bill (13) paid in full. *)
Definition paidDb : Db :=
  serve [CreateLease Example.leaseBody;
         ScheduledTask Example.march1;
         PayInvoice Example.march10 11%nat (Example.pay 2000);
         CreateLightBill BillExample.billBody;
         PayLightBill 13%nat BillExample.payInFull;
         PayInvoice Example.march15 11%nat (Example.pay 1000)]
    Example.seedDb.

(** The same books after the tenants have been removed. *)
Definition orphanedDb : Db :=
  {| rooms := rooms paidDb; tenants := []; leases := leases paidDb;
     invoices := invoices paidDb; payments := payments paidDb;
     lightBills := lightBills paidDb; settings := settings paidDb;
     nextId := nextId paidDb |}.

Definition updatedAt (b : LightBill.t) : Date := newDate 2024 3 5.

Definition everything : PaymentQuery.t :=
  {| PaymentQuery.tenantId := None; PaymentQuery.leaseId := None;
     PaymentQuery.invoiceId := None; PaymentQuery.startDate := None;
     PaymentQuery.endDate := None; PaymentQuery.mode := None |}.

End BooksExample.

Section PaymentListingExamples.
Import PaymentRoutes.
Local Open Scope Q_scope.

Lemma listPayments_groups_witness :
  exists l,
    listPayments BooksExample.updatedAt BooksExample.everything
      BooksExample.paidDb
    = (inr l, BooksExample.paidDb)
    /\ PaymentList.count l = 3%nat
    /\ map Group.totalAmount (PaymentList.data l) = [3870].
Proof.
  destruct (@listPayments_groups BooksExample.updatedAt
              BooksExample.everything BooksExample.paidDb)
    as (l & Hrun & Hcount & _).
  - vm_compute. repeat constructor; discriminate.
  - exists l. split; [exact Hrun|]. split; [exact Hcount|].
    assert (E : result (listPayments BooksExample.updatedAt
                          BooksExample.everything) BooksExample.paidDb
                = inr l)
      by (unfold result; rewrite Hrun; reflexivity).
    vm_compute in E. injection E as <-. reflexivity.
Defined.

Lemma listPayments_missing_tenant_witness :
  listPayments BooksExample.updatedAt BooksExample.everything
    BooksExample.orphanedDb
  = (inl ServerError, BooksExample.orphanedDb).
Proof.
  apply (@listPayments_missing_tenant BooksExample.updatedAt
           BooksExample.everything BooksExample.orphanedDb).
  apply Exists_cons_hd. vm_compute. reflexivity.
Defined.

Lemma paymentHistory_newest_first_witness :
  exists h,
    paymentHistory BooksExample.updatedAt 2%nat BooksExample.paidDb
    = (inr h, BooksExample.paidDb)
    /\ map HistoryEntry._id (History.payments h) = [13%nat; 14%nat; 12%nat]
    /\ History.totalAmountPaid h
       = History.totalInvoicePayments h + History.totalLightBillPayments h.
Proof.
  destruct (@paymentHistory_newest_first BooksExample.updatedAt 2%nat
              {| Tenant._id := 2%nat; Tenant.fullName := "Tenant";
                 Tenant.phone := "0000000000" |} BooksExample.paidDb)
    as (h & Hrun & _ & _ & _ & _ & _ & _ & Hsum).
  - vm_compute. reflexivity.
  - exists h. split; [exact Hrun|]. split; [|exact Hsum].
    assert (E : result (paymentHistory BooksExample.updatedAt 2%nat)
                  BooksExample.paidDb = inr h)
      by (unfold result; rewrite Hrun; reflexivity).
    vm_compute in E. injection E as <-. vm_compute. reflexivity.
Defined.

End PaymentListingExamples.

(** ** Notifications *)

Section AdminNotifications.
Import NotificationService.

(** A notification made from [data] for [recipient]. *)
Definition madeFrom (data : NotificationData.t) (recipient : ObjectId)
    (n : Notification.t) : Prop :=
  Notification.recipient n = recipient
  /\ Notification.isRead n = false
  /\ Notification.title n = NotificationData.title data
  /\ Notification.type n = NotificationData.type data
  /\ Notification.relatedEntity n = NotificationData.relatedEntity data
  /\ Notification.relatedEntityType n
     = NotificationData.relatedEntityType data
  /\ Notification.priority n = NotificationData.priority data.

Lemma notifyEach_run (data : NotificationData.t) (admins : list User.t) :
  forall created box,
  exists new,
    notifyEach data admins created box
    = (created ++ new,
       {| users := users box;
          notifications := notifications box ++ new;
          nextNotificationId :=
            (nextNotificationId box + List.length admins)%nat |})
    /\ Forall2 (fun admin n => madeFrom data (User._id admin) n) admins new
    /\ map Notification._id new
       = seq (nextNotificationId box) (List.length admins).
Proof.
  induction admins as [|admin rest IH]; intros created box.
  - exists []. cbn [notifyEach List.length seq map].
    rewrite !app_nil_r, Nat.add_0_r. repeat split; [|constructor].
    now destruct box.
  - cbn [notifyEach createNotification].
    match goal with
    | |- context [notifyEach data rest (created ++ [?n]) ?b] =>
        destruct (IH (created ++ [n]) b) as (new & Hrun & Hall & Hids);
        exists (n :: new); rewrite Hrun
    end.
    cbn [users notifications nextNotificationId List.length seq map
         Notification._id].
    rewrite <- !app_assoc. cbn [app]. rewrite Nat.add_succ_r.
    repeat split.
    + constructor; [|exact Hall]. now repeat split.
    + now rewrite Hids.
Qed.

End AdminNotifications.

Section Inboxes.
Import NotificationService.

Lemma unreadCount_app user (box : Inbox) (new : list Notification.t) us k :
  NotificationRoutes.unreadCount user
    {| users := us; notifications := notifications box ++ new;
       nextNotificationId := k |}
  = (NotificationRoutes.unreadCount user box + List.length (filter (NotificationRoutes.unread user) new))%nat.
Proof.
  unfold NotificationRoutes.unreadCount. cbn [notifications].
  now rewrite filter_app, length_app.
Qed.

Lemma unread_madeFrom data (admins : list User.t) :
  forall (new : list Notification.t) user,
    Forall2 (fun admin n => madeFrom data (User._id admin) n) admins new ->
    List.length (filter (NotificationRoutes.unread user) new)
    = List.length (filter (fun a => Nat.eqb (User._id a) user) admins).
Proof.
  intros new user. induction 1 as [|admin n admins new H _ IH];
    [reflexivity|].
  destruct H as (Hr & Hread & _). cbn [filter]. unfold NotificationRoutes.unread at 1, NotificationRoutes.mine.
  rewrite Hr, Hread, andb_true_r.
  destruct (Nat.eqb (User._id admin) user); cbn [List.length]; now rewrite IH.
Qed.

(** [createAdminNotifications] makes one notification for every user whose
    role is admin, in the order of the users: NotificationRoutes.unread, addressed to that
    admin and carrying the given data.  It stores them after the stored
    ones under new ids, and a user's count of NotificationRoutes.unread notifications grows
    by the number of times the user is among the admins. *)
Theorem createAdminNotifications_one_per_admin
    (data : NotificationData.t) (box : Inbox) :
  let admins := filter isAdmin (users box) in
  let created := fst (createAdminNotifications data box) in
  let box' := snd (createAdminNotifications data box) in
  Forall2 (fun admin n => madeFrom data (User._id admin) n) admins created
  /\ map Notification._id created
     = seq (nextNotificationId box) (List.length admins)
  /\ notifications box' = notifications box ++ created
  /\ users box' = users box
  /\ forall user,
       NotificationRoutes.unreadCount user box'
       = (NotificationRoutes.unreadCount user box
          + List.length
              (filter (fun a => Nat.eqb (User._id a) user) admins))%nat.
Proof.
  intros admins created box'. subst created box'.
  unfold createAdminNotifications. fold admins.
  destruct (notifyEach_run data admins [] box) as (new & -> & Hall & Hids).
  cbn [fst snd app notifications users]. repeat split; try assumption.
  intro user. rewrite unreadCount_app. f_equal.
  now apply unread_madeFrom with (data := data).
Qed.

Lemma filter_length_false (A : Type) (p : A -> bool) (l : list A) :
  Forall (fun x => p x = false) l -> filter p l = [].
Proof.
  induction 1 as [|x l H _ IH]; [reflexivity|]. cbn [filter].
  now rewrite H.
Qed.

Lemma readAll_notifications user (l : list Notification.t) :
  filter (NotificationRoutes.unread user)
    (map (fun n => if NotificationRoutes.unread user n then Notification.set_isRead n true
                   else n) l) = [].
Proof.
  induction l as [|n l IH]; [reflexivity|]. cbn [map filter].
  destruct (NotificationRoutes.unread user n) eqn:E.
  - unfold NotificationRoutes.unread in *. cbn [Notification.isRead Notification.set_isRead].
    unfold NotificationRoutes.mine in *. cbn [Notification.recipient].
    now rewrite andb_false_r.
  - now rewrite E.
Qed.

Lemma readAll_others user v (l : list Notification.t) :
  v <> user ->
  filter (NotificationRoutes.mine v)
    (map (fun n => if NotificationRoutes.unread user n then Notification.set_isRead n true
                   else n) l)
  = filter (NotificationRoutes.mine v) l.
Proof.
  intro Hv. induction l as [|n l IH]; [reflexivity|]. cbn [map filter].
  rewrite IH. destruct (NotificationRoutes.unread user n) eqn:E; [|reflexivity].
  unfold NotificationRoutes.unread, NotificationRoutes.mine in *. cbn [Notification.recipient].
  apply andb_prop in E as [E _]. apply Nat.eqb_eq in E.
  assert (Hf : Nat.eqb (Notification.recipient n) v = false)
    by (apply Nat.eqb_neq; congruence).
  cbn [filter Notification.recipient Notification.set_isRead].
  now rewrite Hf.
Qed.

(** PUT /api/notifications/read-all reports as many notifications as
    the user had NotificationRoutes.unread, leaves the user none NotificationRoutes.unread, keeps the ids and
    the recipients of all notifications, leaves the notifications of
    every other user as they were, and has nothing to mark when called
    again. *)
Theorem readAll_leaves_none_unread (user : ObjectId) (box : Inbox) :
  let box' := snd (NotificationRoutes.readAll user box) in
  fst (NotificationRoutes.readAll user box) = NotificationRoutes.unreadCount user box
  /\ NotificationRoutes.unreadCount user box' = 0%nat
  /\ map Notification._id (notifications box')
     = map Notification._id (notifications box)
  /\ map Notification.recipient (notifications box')
     = map Notification.recipient (notifications box)
  /\ (forall v, v <> user ->
        filter (NotificationRoutes.mine v) (notifications box')
        = filter (NotificationRoutes.mine v) (notifications box))
  /\ fst (NotificationRoutes.readAll user box') = 0%nat.
Proof.
  cbn [NotificationRoutes.readAll fst snd notifications]. unfold NotificationRoutes.unreadCount.
  cbn [notifications]. rewrite readAll_notifications.
  repeat split; try reflexivity.
  - rewrite map_map. apply map_ext. intro n. now destruct (NotificationRoutes.unread user n).
  - rewrite map_map. apply map_ext. intro n. now destruct (NotificationRoutes.unread user n).
  - intros v Hv. now apply readAll_others.
Qed.

Lemma filter_saveDoc_found (p : Notification.t -> bool)
    (n n' : Notification.t) (l : list Notification.t) :
  findDoc Notification._id (Notification._id n') l = Some n ->
  p n = false -> p n' = false ->
  filter p (saveDoc Notification._id n' l) = filter p l.
Proof.
  unfold findDoc. intros Hfound Hn Hn'.
  induction l as [|x l IH]; [reflexivity|]. cbn [find saveDoc] in *.
  destruct (Nat.eqb (Notification._id x) (Notification._id n')).
  - injection Hfound as ->. cbn [filter]. now rewrite Hn, Hn'.
  - cbn [filter]. now rewrite (IH Hfound).
Qed.

Lemma filter_filter_none (A : Type) (p q : A -> bool) (l : list A) :
  (forall x, p x = true -> q x = true) ->
  filter p (filter q l) = filter p l.
Proof.
  intro H. induction l as [|x l IH]; [reflexivity|]. cbn [filter].
  destruct (q x) eqn:Eq; cbn [filter]; rewrite IH; [reflexivity|].
  destruct (p x) eqn:Ep; [|reflexivity]. rewrite (H x Ep) in Eq.
  discriminate.
Qed.

(** No route that marks or clears notifications for one user changes what
    another user has: the other user's notifications are the same, in the
    same order, after read-all, after marking one read and after deleting
    the read ones, whatever the id asked for. *)
Theorem inbox_of_others_untouched
    (user other : ObjectId) (id : ObjectId) (box : Inbox) :
  other <> user ->
  let others b := filter (NotificationRoutes.mine other) (notifications b) in
  others (snd (NotificationRoutes.readAll user box)) = others box
  /\ others (snd (NotificationRoutes.markRead user id box)) = others box
  /\ others (snd (NotificationRoutes.deleteRead user box)) = others box.
Proof.
  intros Hother others. subst others. cbn beta. repeat split.
  - cbn [NotificationRoutes.readAll snd notifications]. now apply readAll_others.
  - unfold NotificationRoutes.markRead.
    destruct (findDoc Notification._id id (notifications box)) as [n|] eqn:E;
      [|reflexivity].
    destruct (Nat.eqb_spec (Notification.recipient n) user) as [Hr|Hr];
      cbn [negb snd notifications]; [|reflexivity].
    pose proof (findDoc_id _ _ _ E) as Hid.
    apply filter_saveDoc_found with (n := n).
    + cbn [Notification.set_isRead Notification._id]. now rewrite Hid.
    + unfold NotificationRoutes.mine. apply Nat.eqb_neq. congruence.
    + unfold NotificationRoutes.mine. cbn [Notification.set_isRead Notification.recipient].
      apply Nat.eqb_neq. congruence.
  - cbn [NotificationRoutes.deleteRead snd notifications]. apply filter_filter_none.
    intros n Hn. unfold NotificationRoutes.mine in *. apply Nat.eqb_eq in Hn.
    destruct (Nat.eqb_spec (Notification.recipient n) user); [congruence|].
    reflexivity.
Qed.

(** Marking read or deleting a notification addressed to someone else is
    refused as not authorized, and the notifications stay as they are. *)
Theorem foreign_notification_refused
    (user : ObjectId) (id : ObjectId) (n : Notification.t) (box : Inbox) :
  findDoc Notification._id id (notifications box) = Some n ->
  Notification.recipient n <> user ->
  NotificationRoutes.markRead user id box = (inl NotAuthorized, box)
  /\ NotificationRoutes.delete user id box = (inl NotAuthorized, box).
Proof.
  intros Hfound Hr. unfold NotificationRoutes.markRead, NotificationRoutes.delete. rewrite Hfound.
  apply Nat.eqb_neq in Hr. now rewrite Hr.
Qed.

Lemma filter_of_map (A B : Type) (p : B -> bool) (f : A -> B) (l : list A) :
  filter p (map f l) = map f (filter (fun x => p (f x)) l).
Proof.
  induction l as [|x l IH]; [reflexivity|]. cbn [map filter].
  destruct (p (f x)); cbn [map]; now rewrite IH.
Qed.

Lemma read_after_readAll user (n : Notification.t) :
  let n' := if NotificationRoutes.unread user n
            then Notification.set_isRead n true else n in
  NotificationRoutes.mine user n' && Notification.isRead n'
  = NotificationRoutes.mine user n.
Proof.
  unfold NotificationRoutes.unread, NotificationRoutes.mine. cbv zeta.
  destruct (Nat.eqb (Notification.recipient n) user) eqn:Em;
    destruct (Notification.isRead n) eqn:Er; cbn [andb negb];
    cbn [Notification.set_isRead Notification.recipient Notification.isRead];
    rewrite ?Em, ?Er; reflexivity.
Qed.

(** After read-all, deleting the read notifications removes every
    notification of the user and no other. *)
Theorem deleteRead_after_readAll (user : ObjectId) (box : Inbox) :
  let box' :=
    snd (NotificationRoutes.deleteRead user
           (snd (NotificationRoutes.readAll user box))) in
  fst (NotificationRoutes.deleteRead user
         (snd (NotificationRoutes.readAll user box)))
  = List.length (filter (NotificationRoutes.mine user) (notifications box))
  /\ notifications box'
     = filter (fun n => negb (NotificationRoutes.mine user n))
         (notifications box).
Proof.
  cbn [NotificationRoutes.deleteRead NotificationRoutes.readAll fst snd
       notifications].
  rewrite !filter_of_map, length_map. split.
  - f_equal. apply filter_ext. intro n. apply read_after_readAll.
  - rewrite (@filter_ext _ _ (fun n => negb (NotificationRoutes.mine user n))).
    + rewrite <- (map_id (filter _ (notifications box))) at 2.
      apply map_ext_in. intros n Hn. apply filter_In in Hn as [_ Hn].
      unfold NotificationRoutes.unread.
      apply negb_true_iff in Hn. now rewrite Hn.
    + intro n. f_equal. apply read_after_readAll.
Qed.

End Inboxes.

Section Pages.

Lemma chunks_cover (A : Type) (size : nat) :
  (0 < size)%nat ->
  forall (n : nat) (l : list A),
    (List.length l <= n * size)%nat ->
    List.concat
      (map (fun k => firstn size (skipn (k * size) l)) (seq 0 n)) = l.
Proof.
  intros Hsize n. induction n as [|n IH]; intros l Hl.
  - destruct l; [reflexivity|]. cbn in Hl. lia.
  - cbn [seq map List.concat Nat.mul Nat.add skipn].
    rewrite <- seq_shift, map_map.
    rewrite (@map_ext _ _ _
               (fun k => firstn size (skipn (k * size) (skipn size l)))).
    + rewrite IH; [apply firstn_skipn|]. rewrite length_skipn. lia.
    + intro k. rewrite skipn_skipn. do 2 f_equal. lia.
Qed.

(** The query of GET /api/notifications for page [p] of the same
    listing. *)
Definition onPage (q : NotificationQuery.t) (p : positive)
    : NotificationQuery.t :=
  {| NotificationQuery.isRead := NotificationQuery.isRead q;
     NotificationQuery.type := NotificationQuery.type q;
     NotificationQuery.limit := NotificationQuery.limit q;
     NotificationQuery.page := Some p |}.

Definition limitOf (q : NotificationQuery.t) : nat :=
  match NotificationQuery.limit q with
  | Some l => Pos.to_nat l
  | None => 20%nat
  end.

(** GET /api/notifications, page after page: no page is longer than the
    limit, and the pages 1 to [pages] that the answer announces, put one
    after the other, are the user's matching notifications from the
    newest to the oldest, each once; [total] is their number. *)
Theorem list_pages_cover
    (user : ObjectId) (q : NotificationQuery.t) (box : Inbox) :
  let page p := NotificationRoutes.list user (onPage q p) box in
  let matching :=
    rev (filter (NotificationRoutes.listed user q) (notifications box)) in
  (forall p, (NotificationPage.count (page p) <= limitOf q)%nat
             /\ NotificationPage.count (page p)
                = List.length (NotificationPage.data (page p))
             /\ NotificationPage.total (page p) = List.length matching)
  /\ List.concat
       (map (fun k => NotificationPage.data (page (Pos.of_nat (S k))))
            (seq 0 (NotificationPage.pages (page 1%positive))))
     = matching.
Proof.
  intros page matching.
  assert (Hlimit : (0 < limitOf q)%nat).
  { unfold limitOf. destruct (NotificationQuery.limit q); lia. }
  assert (Hpage : forall p,
            NotificationPage.data (page p)
            = firstn (limitOf q)
                (skipn ((Pos.to_nat p - 1) * limitOf q) matching))
    by reflexivity.
  split.
  - intro p. split; [|split; reflexivity].
    change (NotificationPage.count (page p))
      with (List.length (NotificationPage.data (page p))).
    rewrite Hpage, length_firstn. lia.
  - rewrite (@map_ext _ _ _
               (fun k => firstn (limitOf q)
                           (skipn (k * limitOf q) matching))).
    + apply chunks_cover; [exact Hlimit|].
      change (NotificationPage.pages (page 1%positive))
        with ((List.length matching + limitOf q - 1) / limitOf q)%nat.
      pose proof (Nat.mul_succ_div_gt
                    (List.length matching + limitOf q - 1) (limitOf q)
                    ltac:(lia)).
      nia.
    + intro k. rewrite Hpage, Nat2Pos.id by lia. do 3 f_equal. lia.
Qed.

End Pages.

Module InboxExample.

Definition system : NotificationData.t :=
  {| NotificationData.title := "New Invoice Generated";
     NotificationData.type := invoiceType;
     NotificationData.relatedEntity := Some 11%nat;
     NotificationData.relatedEntityType := Some InvoiceEntity;
     NotificationData.priority := medium |}.

(** Two admins (1 and 2) and a user who is not an admin (3), after three
    rounds of notifications to the admins. *)
Definition box : Inbox :=
  let start :=
    {| users := [ {| User._id := 1%nat; User.role := "admin";
                     User.isActive := true |};
                  {| User._id := 2%nat; User.role := "admin";
                     User.isActive := true |};
                  {| User._id := 3%nat; User.role := "user";
                     User.isActive := true |} ];
       notifications := [];
       nextNotificationId := 100%nat |} in
  snd (NotificationService.createAdminNotifications system
         (snd (NotificationService.createAdminNotifications system
                 (snd (NotificationService.createAdminNotifications system
                         start))))).

End InboxExample.

Section InboxExamples.

Lemma inbox_of_others_untouched_witness :
  let others b :=
    filter (NotificationRoutes.mine 2%nat) (notifications b) in
  List.length (others InboxExample.box) = 3%nat
  /\ others (snd (NotificationRoutes.readAll 1%nat InboxExample.box))
     = others InboxExample.box
  /\ others (snd (NotificationRoutes.markRead 1%nat 101%nat
                    InboxExample.box))
     = others InboxExample.box.
Proof.
  intro others. split; [reflexivity|].
  destruct (@inbox_of_others_untouched 1%nat 2%nat 101%nat InboxExample.box)
    as (H1 & H2 & _); [discriminate|].
  split; [exact H1|exact H2].
Defined.

Lemma foreign_notification_refused_witness :
  NotificationRoutes.markRead 1%nat 101%nat InboxExample.box
  = (inl NotAuthorized, InboxExample.box)
  /\ NotificationRoutes.delete 1%nat 101%nat InboxExample.box
     = (inl NotAuthorized, InboxExample.box).
Proof.
  eapply foreign_notification_refused.
  - vm_compute. reflexivity.
  - cbn. discriminate.
Defined.

End InboxExamples.

(** ** Room names *)

Section RoomNames.

(** The rooms have distinct [_id]s, all handed out, and distinct names. *)
Definition roomsInOrder (db : Db) : Prop :=
  handedOut (nextId db) (map Room._id (rooms db))
  /\ NoDup (map Room.name (rooms db)).

Lemma Room_update_names id st cur (l : list Room.t) :
  map Room.name (LeaseRoutes.Room_update id st cur l) = map Room.name l.
Proof.
  induction l as [|r l IH]; [reflexivity|]. cbn.
  destruct (Nat.eqb (Room._id r) id); cbn; [reflexivity|now rewrite IH].
Qed.

Lemma Room_assign_names id body (l : list Room.t) x :
  In x (map Room.name (RoomRoutes.Room_assign id body l)) ->
  In x (map Room.name l) \/ RoomReq.name body = Some x.
Proof.
  induction l as [|r l IH]; [intros []|]. cbn [RoomRoutes.Room_assign].
  destruct (Nat.eqb (Room._id r) id); cbn [map In Room.name].
  - intros [H | H]; [|auto]. destruct (RoomReq.name body); auto.
    right. now subst.
  - intros [H | H]; [auto|]. destruct (IH H); auto.
Qed.

Lemma Room_assign_NoDup id body (l : list Room.t) :
  NoDup (map Room._id l) ->
  NoDup (map Room.name l) ->
  match RoomReq.name body with
  | Some n => find (fun r => String.eqb (Room.name r) n
                             && negb (Nat.eqb (Room._id r) id)) l = None
  | None => True
  end ->
  NoDup (map Room.name (RoomRoutes.Room_assign id body l)).
Proof.
  induction l as [|r l IH]; intros Hids Hnames Hfree; [constructor|].
  cbn [map] in Hids, Hnames.
  inversion Hids as [|? ? Hid Hids']; subst.
  inversion Hnames as [|? ? Hname Hnames']; subst.
  cbn [RoomRoutes.Room_assign].
  destruct (Nat.eqb (Room._id r) id) eqn:E; cbn [map Room.name].
  - apply Nat.eqb_eq in E. constructor; [|exact Hnames'].
    destruct (RoomReq.name body) as [n|]; [|exact Hname].
    intro Hin. apply in_map_iff in Hin as (x & Hx & Hin).
    cbn [find] in Hfree.
    destruct (String.eqb (Room.name r) n && negb (Nat.eqb (Room._id r) id));
      [discriminate|].
    pose proof (find_none _ _ Hfree x Hin) as Hnone. cbv beta in Hnone.
    rewrite Hx, String.eqb_refl in Hnone. cbn [andb] in Hnone.
    apply negb_false_iff, Nat.eqb_eq in Hnone.
    apply Hid. apply in_map_iff. exists x. split; [congruence|exact Hin].
  - assert (Hfree' : match RoomReq.name body with
                     | Some n =>
                         find (fun r => String.eqb (Room.name r) n
                                        && negb (Nat.eqb (Room._id r) id)) l
                         = None
                     | None => True
                     end).
    { destruct (RoomReq.name body) as [n|]; [|exact I].
      cbn [find] in Hfree.
      now destruct (String.eqb (Room.name r) n
                    && negb (Nat.eqb (Room._id r) id)). }
    constructor; [|now apply IH].
    intro Hin. apply Room_assign_names in Hin as [Hin | Hn]; [tauto|].
    rewrite Hn in Hfree. cbn [find] in Hfree.
    rewrite String.eqb_refl, E in Hfree. discriminate.
Qed.

Lemma updateRoom_rooms id body db :
  nextId (exec (RoomRoutes.updateRoom id body) db) = nextId db
  /\ (rooms (exec (RoomRoutes.updateRoom id body) db) = rooms db
      \/ rooms (exec (RoomRoutes.updateRoom id body) db)
         = RoomRoutes.Room_assign id body (rooms db)
         /\ match RoomReq.name body with
            | Some n =>
                find (fun r => String.eqb (Room.name r) n
                               && negb (Nat.eqb (Room._id r) id)) (rooms db)
                = None
            | None => True
            end).
Proof.
  unfold exec, RoomRoutes.updateRoom. unfold_handler.
  destruct (RoomReq.name body) as [n|] eqn:En.
  - destruct (String.eqb n EmptyString); [cbn; auto|]. cbn.
    destruct (find _ (rooms db)) eqn:Ef; [cbn; auto|]. cbn.
    destruct (find _ (RoomRoutes.Room_assign id body (rooms db)));
      cbn; rewrite ?En; auto.
  - cbn.
    destruct (find _ (RoomRoutes.Room_assign id body (rooms db)));
      cbn; rewrite ?En; auto.
Qed.

Lemma handle_keeps_roomsInOrder (r : Request) (db : Db) :
  roomsInOrder db -> roomsInOrder (handle r db).
Proof.
  intros [Hids Hnames]. unfold roomsInOrder.
  pose proof (handle_nextId r db) as Hnext.
  pose proof (handle_frame r db) as (_ & _ & _ & _ & Hrooms).
  destruct r as [today|today|now id body|today|body|now id body|id body|body
                |body|id body|id body|id|today|today];
    cbn beta iota in Hrooms;
    try (split; [rewrite Hrooms; exact (handedOut_later Hnext Hids)
                |rewrite Hrooms; exact Hnames]);
    cbn [handle] in *.
  - unfold exec in *.
    destruct (createLease_run body db) as [(e & E) | (lease & db' & E & C)];
      rewrite E in *; cbn [snd] in *; [now split|].
    rewrite (created_rooms C). split.
    + rewrite Room_update_ids. exact (handedOut_later Hnext Hids).
    + now rewrite Room_update_names.
  - unfold exec in *. pose proof (endLease_cases now id body db) as C.
    destruct (findDoc Lease._id id (leases db));
      [destruct C as (lease' & db' & E & C)|rewrite C; now split].
    rewrite E in *. cbn [snd] in *. rewrite (ended_rooms C). split.
    + rewrite Room_update_ids. exact (handedOut_later Hnext Hids).
    + now rewrite Room_update_names.
  - destruct (updateRoom_rooms id body db) as (Hn & [-> | (-> & Hfree)]).
    + split; [exact (handedOut_later Hnext Hids)|exact Hnames].
    + split.
      * rewrite Room_assign_ids. exact (handedOut_later Hnext Hids).
      * apply Room_assign_NoDup; [exact (proj1 Hids)|exact Hnames|exact Hfree].
Qed.

Lemma find_app_none (A : Type) (p : A -> bool) (l extra : list A) :
  find p l = None -> find p (l ++ extra) = find p extra.
Proof.
  induction l as [|x l IH]; [reflexivity|]. cbn [find app].
  destruct (p x); [discriminate|exact IH].
Qed.

Lemma createRoom_cases (body : RoomCreateReq.t) (db : Db) :
  (exists e, RoomCreate.createRoom body db = (inl e, db))
  \/ exists name,
       RoomCreateReq.name body = Some name
       /\ find (fun r => String.eqb (Room.name r) name) (rooms db) = None
       /\ let room :=
            {| Room._id := nextId db; Room.name := name;
               Room.status := match RoomCreateReq.status body with
                              | Some s => s | None => vacant end;
               Room.currentLease := RoomCreateReq.currentLease body |} in
          RoomCreate.createRoom body db
          = (inr room, set_rooms (rooms db ++ [room]) (snd (freshId db))).
Proof.
  unfold RoomCreate.createRoom.
  destruct (RoomCreateReq.name body) as [name|]; [|left; eauto].
  destruct (String.eqb name EmptyString); [left; eauto|].
  destruct (RoomCreateReq.defaultRent body) as [rent|]; [|left; eauto].
  destruct (falsyQ rent || Qle_bool rent 0); [left; eauto|].
  destruct (RoomCreateReq.defaultDeposit body) as [deposit|]; [|left; eauto].
  destruct (falsyQ deposit || Qlt_bool deposit 0); [left; eauto|].
  destruct (find _ (rooms db)) eqn:E; [left; eauto|].
  right. exists name. now repeat split.
Qed.

Lemma perform_keeps_roomsInOrder (op : Operation) (db : Db) :
  roomsInOrder db -> roomsInOrder (perform op db).
Proof.
  intro H. destruct op as [r|body|]; cbn [perform].
  - now apply handle_keeps_roomsInOrder.
  - destruct (createRoom_cases body db)
      as [(e & ->) | (name & _ & Hfree & ->)]; [exact H|].
    destruct H as [Hids Hnames]. unfold roomsInOrder.
    cbn [snd rooms set_rooms nextId freshId Room._id Room.name].
    split.
    + rewrite map_app. now apply handedOut_snoc.
    + rewrite map_app. apply NoDup_app; [exact Hnames| |].
      * repeat constructor. intros [].
      * intros x Hin [<- | []]. apply in_map_iff in Hin as (r & Hr & Hin).
        pose proof (find_none _ _ Hfree r Hin) as Hnone. cbv beta in Hnone.
        now rewrite Hr, String.eqb_refl in Hnone.
  - unfold exec. pose proof (getSettings_cases db) as C.
    destruct (settings db); rewrite C; exact H.
Qed.

(** Whatever is performed, rooms created and renamed among the requests,
    no two rooms come to bear the same name, and no two the same id. *)
Theorem room_names_stay_distinct (ops : list Operation) (db : Db) :
  roomsInOrder db ->
  NoDup (map Room.name (rooms (performAll ops db)))
  /\ NoDup (map Room._id (rooms (performAll ops db))).
Proof.
  intro H.
  assert (H' : roomsInOrder (performAll ops db)).
  { revert db H. induction ops as [|op ops IH]; intros db H; [exact H|].
    cbn. apply IH. now apply perform_keeps_roomsInOrder. }
  destruct H' as [[Hids _] Hnames]. now split.
Qed.

(** A room is created vacant unless the body says otherwise, under a new
    id and after the stored rooms; creating it once more is turned down
    because the name is taken, and changes nothing. *)
Theorem createRoom_once
    (body : RoomCreateReq.t) (db db' : Db) (room : Room.t) :
  RoomCreate.createRoom body db = (inr room, db') ->
  rooms db' = rooms db ++ [room]
  /\ Room._id room = nextId db
  /\ RoomCreateReq.name body = Some (Room.name room)
  /\ Room.status room
     = match RoomCreateReq.status body with Some s => s | None => vacant end
  /\ RoomCreate.createRoom body db' = (inl RoomWithNameExists, db').
Proof.
  intro Hrun.
  destruct (createRoom_cases body db)
    as [(e & E) | (name & Hname & Hfree & E)];
    rewrite E in Hrun; [discriminate|].
  injection Hrun as <- <-. cbn [Room._id Room.name Room.status].
  repeat split; [exact Hname|].
  unfold RoomCreate.createRoom in *. rewrite Hname in *.
  destruct (String.eqb name EmptyString); [discriminate|].
  destruct (RoomCreateReq.defaultRent body) as [rent|]; [|discriminate].
  destruct (falsyQ rent || Qle_bool rent 0); [discriminate|].
  destruct (RoomCreateReq.defaultDeposit body) as [deposit|]; [|discriminate].
  destruct (falsyQ deposit || Qlt_bool deposit 0); [discriminate|].
  cbn [rooms set_rooms].
  rewrite (@find_app_none _ _ _ _ Hfree).
  cbn [find Room.name]. now rewrite String.eqb_refl.
Qed.

End RoomNames.

Module RoomExample.

Definition room102 : RoomCreateReq.t :=
  {| RoomCreateReq.name := Some "Room 102"%string;
     RoomCreateReq.defaultRent := Some 5000%Q;
     RoomCreateReq.defaultDeposit := Some 10000%Q;
     RoomCreateReq.status := None;
     RoomCreateReq.currentLease := None |}.

(** An attempt to give room 1 the name of the new room. *)
Definition rename : RoomReq.t :=
  {| RoomReq.name := Some "Room 102"%string; RoomReq.status := None |}.

End RoomExample.

Section RoomExamples.

Lemma seedDb_roomsInOrder : roomsInOrder Example.seedDb.
Proof.
  split; [split|]; cbn.
  - constructor; [intros []|constructor].
  - constructor; [lia|constructor].
  - constructor; [intros []|constructor].
Qed.

Lemma room_names_stay_distinct_witness :
  let db :=
    performAll [CreateRoom RoomExample.room102;
                Serve (UpdateRoom 1%nat RoomExample.rename);
                CreateRoom RoomExample.room102;
                Serve (CreateLease Example.leaseBody)]
      Example.seedDb in
  map Room.name (rooms db) = ["Room 101"%string; "Room 102"%string]
  /\ NoDup (map Room.name (rooms db)).
Proof.
  intro db. split; [vm_compute; reflexivity|].
  exact (proj1 (@room_names_stay_distinct
                  [CreateRoom RoomExample.room102;
                   Serve (UpdateRoom 1%nat RoomExample.rename);
                   CreateRoom RoomExample.room102;
                   Serve (CreateLease Example.leaseBody)]
                  Example.seedDb seedDb_roomsInOrder)).
Defined.

Lemma createRoom_once_witness :
  exists db',
    snd (RoomCreate.createRoom RoomExample.room102 Example.seedDb) = db'
    /\ map Room.name (rooms db') = ["Room 101"%string; "Room 102"%string]
    /\ RoomCreate.createRoom RoomExample.room102 db'
       = (inl RoomWithNameExists, db').
Proof.
  eexists. split; [reflexivity|]. split; [vm_compute; reflexivity|].
  eapply (@createRoom_once RoomExample.room102 Example.seedDb).
  vm_compute. reflexivity.
Defined.

End RoomExamples.

(** ** Who passes [authRequired] *)

Section Authorization.
Import AuthMiddleware.
Variable verify : string -> option ObjectId.
Local Open Scope string_scope.

Fixpoint noSpace (s : string) : bool :=
  match s with
  | EmptyString => true
  | String c rest => negb (Ascii.eqb c space) && noSpace rest
  end.

Lemma split_noSpace s : noSpace s = true -> split s = [s].
Proof.
  induction s as [|c rest IH]; [reflexivity|]. cbn [noSpace split].
  intro H. apply andb_prop in H as [Hc Hrest].
  apply negb_true_iff in Hc. now rewrite Hc, (IH Hrest).
Qed.

Lemma split_at_space s t :
  noSpace s = true -> split (s ++ String space t) = s :: split t.
Proof.
  induction s as [|c rest IH]; cbn [noSpace append split].
  - intros _. now rewrite Ascii.eqb_refl.
  - intro H. apply andb_prop in H as [Hc Hrest].
    apply negb_true_iff in Hc. now rewrite Hc, (IH Hrest).
Qed.

Lemma prefix_append s t : String.prefix s (s ++ t) = true.
Proof.
  induction s as [|c rest IH]; cbn [append String.prefix];
    [now destruct t|].
  destruct (ascii_dec c c); [exact IH|congruence].
Qed.

(** The outcome once the token is known. *)
Definition answerFor (token : string) (users : list User.t)
    : authFailure + User.t :=
  match verify token with
  | None => inl TokenInvalidOrExpired
  | Some id =>
      match findDoc User._id id users with
      | None => inl NotAuthorizedUser
      | Some user =>
          if negb (String.eqb (User.role user) "admin")
             || negb (User.isActive user)
          then inl NotAuthorizedUser
          else inr user
      end
  end.

Lemma authRequired_bearer (token : string) (users : list User.t) :
  noSpace token = true ->
  token <> "" ->
  authRequired verify (Some ("Bearer " ++ token)) users
  = answerFor token users.
Proof.
  intros Hns Hne. unfold authRequired.
  rewrite prefix_append.
  change ("Bearer " ++ token) with ("Bearer" ++ String space token).
  rewrite split_at_space by reflexivity. rewrite (split_noSpace _ Hns).
  cbn [nth_error]. unfold truthy.
  destruct token; [congruence|]. reflexivity.
Qed.

(** Whoever [authRequired] lets through is a stored user with the role
    admin who is active, and is the user that the verified token of a
    header starting with "Bearer " names. *)
Theorem authRequired_passes_only_active_admins
    (authorization : option string) (users : list User.t) (user : User.t) :
  authRequired verify authorization users = inr user ->
  User.role user = "admin"
  /\ User.isActive user = true
  /\ In user users
  /\ exists header token,
       authorization = Some header
       /\ String.prefix "Bearer " header = true
       /\ nth_error (split header) 1 = Some token
       /\ verify token = Some (User._id user).
Proof.
  unfold authRequired. intro H.
  destruct authorization as [header|]; [|discriminate].
  destruct (String.prefix "Bearer " header) eqn:Ep; [|discriminate].
  destruct (nth_error (split header) 1) as [token|] eqn:Et; [|discriminate].
  destruct (negb (truthy token)); [discriminate|].
  destruct (verify token) as [id|] eqn:Ev; [|discriminate].
  destruct (findDoc User._id id users) as [found|] eqn:Ef; [|discriminate].
  destruct (String.eqb (User.role found) "admin") eqn:Er;
    [|discriminate].
  destruct (User.isActive found) eqn:Ea; [|discriminate].
  cbn in H. injection H as <-.
  apply String.eqb_eq in Er.
  pose proof (findDoc_id _ _ _ Ef) as Hid.
  pose proof (find_some _ _ Ef) as [Hin _].
  repeat split; try assumption.
  exists header, token. repeat split; try assumption. now rewrite Hid.
Qed.

(** With the header "Bearer " followed by a token without spaces, the
    middleware lets through exactly the active admin that the verified
    token names, answers "token invalid" exactly when the token does not
    verify, and never answers that there is no token. *)
Theorem authRequired_bearer_token (token : string) (users : list User.t) :
  noSpace token = true ->
  token <> "" ->
  let answer := authRequired verify (Some ("Bearer " ++ token)) users in
  (forall user,
     answer = inr user
     <-> exists id,
           verify token = Some id
           /\ findDoc User._id id users = Some user
           /\ User.role user = "admin"
           /\ User.isActive user = true)
  /\ (answer = inl TokenInvalidOrExpired <-> verify token = None)
  /\ answer <> inl NoToken.
Proof.
  intros Hns Hne answer. subst answer.
  rewrite (authRequired_bearer users Hns Hne). unfold answerFor.
  destruct (verify token) as [id|].
  - destruct (findDoc User._id id users) as [found|] eqn:Ef.
    + destruct (String.eqb (User.role found) "admin") eqn:Er;
        destruct (User.isActive found) eqn:Ea; cbn [negb orb].
      * apply String.eqb_eq in Er. repeat split; try discriminate.
        -- intros [= <-]. exists id. now repeat split.
        -- intros (id' & [= <-] & Hf & _). congruence.
      * repeat split; try discriminate.
        intros (id' & [= <-] & Hf & _ & Ha). congruence.
      * apply String.eqb_neq in Er. repeat split; try discriminate.
        intros (id' & [= <-] & Hf & Hr & _). congruence.
      * apply String.eqb_neq in Er. repeat split; try discriminate.
        intros (id' & [= <-] & Hf & Hr & _). congruence.
    + repeat split; try discriminate.
      intros (id' & [= <-] & Hf & _). congruence.
  - repeat split; try discriminate; try reflexivity.
    intros (id' & Hv & _). discriminate.
Qed.

End Authorization.

Module AuthExample.

(** A verifier that knows one token, which names user 1. *)
Definition verify (token : string) : option ObjectId :=
  if String.eqb token "t0k3n" then Some 1%nat else None.

Definition users : list User.t :=
  [ {| User._id := 1%nat; User.role := "admin"; User.isActive := true |};
    {| User._id := 2%nat; User.role := "admin"; User.isActive := false |} ].

End AuthExample.

Section AuthorizationExamples.
Local Open Scope string_scope.

Lemma authRequired_passes_only_active_admins_witness :
  exists user,
    AuthMiddleware.authRequired AuthExample.verify (Some "Bearer t0k3n")
      AuthExample.users = inr user
    /\ User.role user = "admin"
    /\ User.isActive user = true.
Proof.
  eexists. split; [reflexivity|].
  destruct (@authRequired_passes_only_active_admins AuthExample.verify
              (Some "Bearer t0k3n") AuthExample.users _ eq_refl)
    as (Hr & Ha & _).
  split; [exact Hr|exact Ha].
Defined.

Lemma authRequired_bearer_token_witness :
  AuthMiddleware.authRequired AuthExample.verify (Some "Bearer other")
    AuthExample.users = inl TokenInvalidOrExpired.
Proof.
  apply (proj1 (proj2 (@authRequired_bearer_token AuthExample.verify
                         "other" AuthExample.users eq_refl
                         ltac:(discriminate)))).
  reflexivity.
Defined.

End AuthorizationExamples.

Section EndedLeaseExample.
Local Open Scope Q_scope.

Lemma generateMonthly_skips_ended_lease_witness :
  let db :=
    serve [CreateLease Example.leaseBody;
           EndLease Example.march10 10%nat
             {| EndLeaseReq.endDate := None; EndLeaseReq.notes := None |}]
      Example.seedDb in
  map Lease._id (leases db) = [10%nat]
  /\ exists created db',
       InvoiceRoutes.generateMonthly Example.march15 db = (inr created, db')
       /\ Forall (fun i => Invoice.lease i <> 10%nat) created.
Proof.
  intro db. split; [vm_compute; reflexivity|].
  exists [], db. split; [vm_compute; reflexivity|].
  refine (proj1 (@generateMonthly_skips_ended_lease Example.march15 db db []
            {| Lease._id := 10%nat; Lease.tenant := 2%nat;
               Lease.room := 1%nat;
               Lease.startDate := JsDate.newDate 2024 0 1;
               Lease.endDate := Some Example.march10;
               Lease.rentPerMonth := 5000;
               Lease.depositAgreed := 10000; Lease.depositPaid := 0;
               Lease.depositRefunded := 0; Lease.billingDay := Some 5%Z;
               Lease.status := ended; Lease.notes := None |} _ _ _ _)).
  - vm_compute. repeat constructor. intros [].
  - left. vm_compute. reflexivity.
  - discriminate.
  - vm_compute. reflexivity.
Defined.

End EndedLeaseExample.

From Stdlib Require Import Floats.

(** * The pay route on binary64 numbers

    A JavaScript Number is an IEEE 754 binary64 value, and the sum and the
    comparisons of POST /api/invoices/:id/pay are those of binary64.  The
    handlers above take amounts as exact rationals; here the route runs on
    [float], the binary64 numbers of Rocq, so that what it accepts and
    refuses is decided by the rounded sum, as in Node. *)

Module Binary64.

(** [x !== x] *)
Definition isNaN (x : float) : bool := negb (x =? x)%float.

(** [!x] on a number: the zero of either sign and NaN are falsy. *)
Definition falsy (x : float) : bool := (x =? 0)%float || isNaN x.

(** [x || 0] *)
Definition orZero (x : float) : float := if falsy x then 0%float else x.

Module Invoice.
Record t := {
  _id : ObjectId;
  lease : ObjectId;
  tenant : ObjectId;
  room : ObjectId;
  periodFrom : Date;
  periodTo : Date;
  issueDate : Date;
  dueDate : Date;
  baseAmount : float;
  lateFee : float;
  totalAmount : float;
  paidAmount : float;
  status : InvoiceStatus
}.

Definition set_paidAmount (i : t) (v : float) : t :=
  {| _id := _id i; lease := lease i; tenant := tenant i; room := room i;
     periodFrom := periodFrom i; periodTo := periodTo i;
     issueDate := issueDate i; dueDate := dueDate i;
     baseAmount := baseAmount i; lateFee := lateFee i;
     totalAmount := totalAmount i; paidAmount := v; status := status i |}.

Definition set_status (i : t) (v : InvoiceStatus) : t :=
  {| _id := _id i; lease := lease i; tenant := tenant i; room := room i;
     periodFrom := periodFrom i; periodTo := periodTo i;
     issueDate := issueDate i; dueDate := dueDate i;
     baseAmount := baseAmount i; lateFee := lateFee i;
     totalAmount := totalAmount i; paidAmount := paidAmount i; status := v |}.
End Invoice.

Module Payment.
Record t := {
  _id : ObjectId;
  invoice : ObjectId;
  lease : ObjectId;
  tenant : ObjectId;
  amount : float;
  date : Date;
  mode : PaymentMode;
  note : option string
}.
End Payment.

Module PayReq.
(** [req.body] of the pay route; an absent field is [None]. *)
Record t := {
  amount : option float;
  date : option Date;
  mode : option PaymentMode;
  note : option string
}.
End PayReq.

(** The two collections the route touches, and the [_id] counter. *)
Record Books := {
  invoices : list Invoice.t;
  payments : list Payment.t;
  nextId : ObjectId
}.

(** POST /api/invoices/:id/pay; [now] is the [new Date()] that stands in
    for an absent [date]. *)
Definition payInvoice (now : Date) (id : ObjectId) (body : PayReq.t)
    (db : Books) : (failure + Payment.t * Invoice.t) * Books :=
  match PayReq.amount body with
  | None => (inl PaymentAmountNotPositive, db)
  | Some amount =>
      if falsy amount || (amount <=? 0)%float
      then (inl PaymentAmountNotPositive, db) else
      match findDoc Invoice._id id (invoices db) with
      | None => (inl InvoiceNotFound, db)
      | Some invoice =>
          let newPaidAmount :=
            (orZero (Invoice.paidAmount invoice) + amount)%float in
          if (Invoice.totalAmount invoice <? newPaidAmount)%float
          then (inl PaymentExceedsInvoiceTotal, db) else
          let payment :=
            {| Payment._id := nextId db;
               Payment.invoice := Invoice._id invoice;
               Payment.lease := Invoice.lease invoice;
               Payment.tenant := Invoice.tenant invoice;
               Payment.amount := amount;
               Payment.date := match PayReq.date body with
                               | Some d => d | None => now end;
               Payment.mode := match PayReq.mode body with
                               | Some m => m | None => cash end;
               Payment.note := PayReq.note body |} in
          let invoice1 := Invoice.set_paidAmount invoice newPaidAmount in
          let invoice2 :=
            if (Invoice.totalAmount invoice1
                <=? Invoice.paidAmount invoice1)%float
            then Invoice.set_status invoice1 paid
            else if (0 <? Invoice.paidAmount invoice1)%float
            then Invoice.set_status invoice1 partially_paid
            else invoice1 in
          (inr (payment, invoice2),
           {| invoices := saveDoc Invoice._id invoice2 (invoices db);
              payments := payments db ++ [payment];
              nextId := S (nextId db) |})
      end
  end.

(** A request that carries the amount only. *)
Definition pay (a : float) : PayReq.t :=
  {| PayReq.amount := Some a; PayReq.date := None; PayReq.mode := None;
     PayReq.note := None |}.

(** Payments of the amounts of a list on one invoice, one request after
    the other; the answers, in order. *)
Fixpoint payEach (now : Date) (id : ObjectId) (amounts : list float)
    (db : Books) : list (option failure) * Books :=
  match amounts with
  | [] => ([], db)
  | a :: rest =>
      let (r, db1) := payInvoice now id (pay a) db in
      let (answers, db2) := payEach now id rest db1 in
      (match r with inl e => Some e | inr _ => None end :: answers, db2)
  end.

End Binary64.

(** ** Paying an invoice *)

Section Binary64Numbers.
Import SpecFloat FloatAxioms.
Local Open Scope float_scope.

(** What [0 < a] says of the binary64 value [a]. *)
Lemma positive_cases (a : float) :
  (0 <? a) = true ->
  Prim2SF a = S754_infinity false
  \/ exists m e, Prim2SF a = S754_finite false m e.
Proof.
  rewrite ltb_spec. change (Prim2SF 0) with (S754_zero false).
  unfold SFltb, SFcompare.
  destruct (Prim2SF a) as [s|s| |s m e]; try discriminate.
  - destruct s; [discriminate|]. now left.
  - destruct s; [discriminate|]. right. now exists m, e.
Qed.

Lemma positive_truthy (a : float) :
  (0 <? a) = true ->
  Binary64.falsy a || (a <=? 0) = false.
Proof.
  intro H. unfold Binary64.falsy, Binary64.isNaN.
  rewrite !eqb_spec, leb_spec. change (Prim2SF 0) with (S754_zero false).
  destruct (@positive_cases a H) as [-> | (m & e & ->)]; cbn.
  - reflexivity.
  - unfold SFeqb, SFleb. cbn. rewrite Z.compare_refl, Pos.compare_refl.
    reflexivity.
Qed.

(** [(x || 0) + a] is [x + a] for a positive [a], unless [x] is NaN. *)
Lemma orZero_plus (x a : float) :
  (0 <? a) = true ->
  Binary64.isNaN x = false ->
  Binary64.orZero x + a = x + a.
Proof.
  intros Ha Hx. unfold Binary64.orZero, Binary64.falsy. rewrite Hx, orb_false_r.
  destruct (x =? 0) eqn:E; [|reflexivity].
  apply Prim2SF_inj. rewrite !add_spec.
  rewrite eqb_spec in E. change (Prim2SF 0) with (S754_zero false) in *.
  unfold SFeqb, SFcompare in E.
  destruct (Prim2SF x) as [s|s| |s m e]; try discriminate;
    [|destruct s; discriminate|destruct s; discriminate].
  destruct (@positive_cases a Ha) as [-> | (m & e & ->)]; reflexivity.
Qed.

(** A sum with NaN is NaN, and nothing is below NaN. *)
Lemma not_below_NaN_sum (t x a : float) :
  Binary64.isNaN x = true -> (t <? x + a) = false.
Proof.
  unfold Binary64.isNaN. rewrite negb_true_iff, eqb_spec, ltb_spec, add_spec.
  unfold SFeqb, SFcompare.
  destruct (Prim2SF x) as [s|s| |s m e] eqn:Ex.
  - discriminate.
  - destruct s; discriminate.
  - intros _. unfold SF64add, SFadd, SFltb, SFcompare.
    now destruct (Prim2SF t).
  - destruct s; rewrite Z.compare_refl, Pos.compare_refl; discriminate.
Qed.

End Binary64Numbers.

Module Binary64Example.
Import JsDate.

(** The March invoice of the running example: 5000, nothing paid. *)
Definition marchInvoice : Binary64.Invoice.t :=
  {| Binary64.Invoice._id := 11%nat; Binary64.Invoice.lease := 10%nat;
     Binary64.Invoice.tenant := 2%nat; Binary64.Invoice.room := 1%nat;
     Binary64.Invoice.periodFrom := newDate 2024 2 1;
     Binary64.Invoice.periodTo := newDate 2024 3 0;
     Binary64.Invoice.issueDate := Example.march1;
     Binary64.Invoice.dueDate := newDate 2024 2 5;
     Binary64.Invoice.baseAmount := 5000; Binary64.Invoice.lateFee := 0;
     Binary64.Invoice.totalAmount := 5000; Binary64.Invoice.paidAmount := 0;
     Binary64.Invoice.status := unpaid |}.

Definition billed : Binary64.Books :=
  {| Binary64.invoices := [marchInvoice]; Binary64.payments := [];
     Binary64.nextId := 12%nat |}.

(** An invoice of [total] of which [paid] is paid. *)
Definition invoiceOf (total paid : float) (status : InvoiceStatus)
    : Binary64.Books :=
  {| Binary64.invoices :=
       [ {| Binary64.Invoice._id := 11%nat; Binary64.Invoice.lease := 10%nat;
            Binary64.Invoice.tenant := 2%nat; Binary64.Invoice.room := 1%nat;
            Binary64.Invoice.periodFrom := newDate 2024 2 1;
            Binary64.Invoice.periodTo := newDate 2024 3 0;
            Binary64.Invoice.issueDate := Example.march1;
            Binary64.Invoice.dueDate := newDate 2024 2 5;
            Binary64.Invoice.baseAmount := total;
            Binary64.Invoice.lateFee := 0;
            Binary64.Invoice.totalAmount := total;
            Binary64.Invoice.paidAmount := paid;
            Binary64.Invoice.status := status |} ];
     Binary64.payments := [];
     Binary64.nextId := 12%nat |}.

End Binary64Example.

Section PayInvoice.
Local Open Scope float_scope.

(** C1: for a stored invoice and a positive payment amount with
    paidAmount + amount > totalAmount, the sum and the comparison being
    the binary64 ones of the route, POST /api/invoices/:id/pay answers
    with the Conflict "would exceed total" and leaves the books as they
    were: paidAmount and status keep their values and no payment is
    recorded. *)
Theorem payInvoice_refuses_overpayment
    (now : Date) (id : ObjectId) (body : Binary64.PayReq.t)
    (db : Binary64.Books) (invoice : Binary64.Invoice.t) (amount : float) :
  findDoc Binary64.Invoice._id id (Binary64.invoices db) = Some invoice ->
  Binary64.PayReq.amount body = Some amount ->
  (0 <? amount) = true ->
  (Binary64.Invoice.totalAmount invoice
   <? Binary64.Invoice.paidAmount invoice + amount) = true ->
  Binary64.payInvoice now id body db = (inl PaymentExceedsInvoiceTotal, db)
  /\ kind PaymentExceedsInvoiceTotal = Conflict.
Proof.
  intros Hfind Hamount Hpos Hover. split; [|reflexivity].
  unfold Binary64.payInvoice.
  rewrite Hamount, (@positive_truthy amount Hpos), Hfind.
  destruct (Binary64.isNaN (Binary64.Invoice.paidAmount invoice)) eqn:Enan.
  - rewrite (@not_below_NaN_sum _ _ _ Enan) in Hover. discriminate.
  - rewrite (@orZero_plus _ _ Hpos Enan), Hover. reflexivity.
Qed.

Lemma payInvoice_refuses_overpayment_witness :
  Binary64.payInvoice Example.march10 11%nat (Binary64.pay 5000.5)
    Binary64Example.billed
  = (inl PaymentExceedsInvoiceTotal, Binary64Example.billed).
Proof.
  refine (proj1 (@payInvoice_refuses_overpayment Example.march10 11%nat
            (Binary64.pay 5000.5) Binary64Example.billed
            Binary64Example.marchInvoice 5000.5 _ _ _ _));
    reflexivity.
Defined.

#[local] Set Warnings "-inexact-float".

(** The sum that decides is the rounded one.  On an invoice of 1000 that
    is paid in full, 1000 + 1e-14 is 1000 again: the payment is accepted
    and recorded, and the paid amount stays 1000. *)
Lemma payInvoice_rounded_sum :
  let db := Binary64Example.invoiceOf 1000 1000 paid in
  exists payment invoice db',
    Binary64.payInvoice Example.march10 11%nat (Binary64.pay 1e-14) db
    = (inr (payment, invoice), db')
    /\ Binary64.Invoice.paidAmount invoice = 1000
    /\ Binary64.Invoice.status invoice = paid
    /\ map Binary64.Payment.amount (Binary64.payments db') = [1e-14].
Proof. do 3 eexists. split; [reflexivity|]. repeat split. Qed.

(** So the order of partial payments matters to what is accepted: on an
    invoice of 0.6, the payments 0.3, 0.2, 0.1 all go through, and of the
    payments 0.1, 0.2, 0.3 the last is refused. *)
Lemma payInvoice_order_of_payments :
  let db := Binary64Example.invoiceOf 0.6 0 unpaid in
  fst (Binary64.payEach Example.march10 11%nat [0.3; 0.2; 0.1] db)
  = [None; None; None]
  /\ fst (Binary64.payEach Example.march10 11%nat [0.1; 0.2; 0.3] db)
     = [None; None; Some PaymentExceedsInvoiceTotal].
Proof. split; vm_compute; reflexivity. Qed.

End PayInvoice.
